(** * Task-management backend: command interpreter, normalizer, dispatcher
      and task store, embedded from the Python sources

    Sources embedded here:
    - [app/schemas/task.py]      (TaskState, TaskPriority, TaskCreate, TaskUpdate)
    - [app/models/task.py]       (Task rows)
    - [app/services/task_service.py] (TaskStateService, TaskService)
    - [app/services/ai_service.py]   (AIService: parsing, normalizing, dispatch)
    - [app/services/task_service.py] (UserService) and [app/core/security.py]
      (password hashing)

    Conventions.  Python [str] values are modelled by [string]; the text
    primitives ([lower], [strip], the character classes of [re]) follow
    CPython on ASCII text, which is the domain on which the statements below
    are to be read.  Python dictionaries with string keys are finite maps
    [gmap string pyval].  Exceptions are explicit: a function that can raise
    returns a sum or an option. *)

From Stdlib Require Import ZArith Ascii String List Bool Lia DecimalString.
From Stdlib Require Strings.Byte.
From stdpp Require Import gmap strings list fin_maps.

Local Open Scope string_scope.
Local Open Scope Z_scope.

(* ===================================================================== *)
(** * Text primitives (Python [str] methods)                              *)
(* ===================================================================== *)

Definition code (c : ascii) : N := N_of_ascii c.

Definition in_range (lo hi : N) (c : ascii) : bool :=
  (lo <=? code c)%N && (code c <=? hi)%N.

Definition is_upper (c : ascii) : bool := in_range 65 90 c.
Definition is_lower (c : ascii) : bool := in_range 97 122 c.
Definition is_digit (c : ascii) : bool := in_range 48 57 c.
Definition is_alpha (c : ascii) : bool := is_upper c || is_lower c.

(** [str.isspace]: TAB, LF, VT, FF, CR, the separators FS, GS, RS, US and
    the blank.  The same set is what [\s] matches and what [strip] removes. *)
Definition is_space (c : ascii) : bool := in_range 9 13 c || in_range 28 32 c.

(** The class [\w] of [re]: letters, digits and the underscore. *)
Definition is_word (c : ascii) : bool :=
  is_alpha c || is_digit c || Ascii.eqb c "_".

Definition newline : ascii := "010".
Definition nl : string := String newline EmptyString.

Definition lower_char (c : ascii) : ascii :=
  if is_upper c then ascii_of_N (code c + 32) else c.

(** [s.lower()] *)
Fixpoint lower (s : string) : string :=
  match s with
  | EmptyString => EmptyString
  | String c r => String (lower_char c) (lower r)
  end.

(** [s.lstrip()] *)
Fixpoint lstrip (s : string) : string :=
  match s with
  | EmptyString => EmptyString
  | String c r => if is_space c then lstrip r else s
  end.

(** [s.rstrip()] *)
Fixpoint rstrip (s : string) : string :=
  match s with
  | EmptyString => EmptyString
  | String c r =>
      match rstrip r with
      | EmptyString => if is_space c then EmptyString else String c EmptyString
      | r' => String c r'
      end
  end.

(** [s.strip()] *)
Definition strip (s : string) : string := rstrip (lstrip s).

(** [needle in hay] on strings: substring containment. *)
Fixpoint contains (needle hay : string) : bool :=
  String.prefix needle hay ||
  match hay with
  | EmptyString => false
  | String _ r => contains needle r
  end.

(** [x in [s1, ..., sn]]: membership in a list of strings. *)
Definition mem_str (x : string) (l : list string) : bool :=
  existsb (String.eqb x) l.

(** [any(word in text for word in words)] *)
Definition any_in (words : list string) (text : string) : bool :=
  existsb (fun w => contains w text) words.

(** Truth value of a string: non-empty. *)
Definition nonempty (s : string) : bool :=
  match s with EmptyString => false | _ => true end.

(** [l.append(x)] *)
Definition py_append {A : Type} (l : list A) (x : A) : list A := (l ++ [x])%list.

(** [sep.join(parts)] *)
Fixpoint join (sep : string) (parts : list string) : string :=
  match parts with
  | [] => EmptyString
  | [p] => p
  | p :: ps => p ++ sep ++ join sep ps
  end.

(** Decimal rendering of a natural number, [str(n)]. *)
Definition str_N (n : N) : string := NilZero.string_of_uint (N.to_uint n).

(** [str(z)] for an integer. *)
Definition str_Z (z : Z) : string :=
  if z <? 0 then "-" ++ str_N (Z.to_N (- z)) else str_N (Z.to_N z).

(** [f"{n:0{w}d}"] for a non-negative [n]: zero padded to width [w]. *)
Definition zfill (w : nat) (n : N) : string :=
  let d := str_N n in
  string_of_list_ascii (repeat "0"%char (w - String.length d)) ++ d.

Definition digit_val (c : ascii) : N := (code c - 48)%N.

(** [int(s)] on a string of decimal digits. *)
Definition int_of_digits (s : string) : N :=
  fold_left (fun acc c => (10 * acc + digit_val c)%N) (list_ascii_of_string s) 0%N.

(* ===================================================================== *)
(** * A backtracking matcher for the [re] patterns of the sources         *)
(* ===================================================================== *)

(** Pattern syntax.  [Star true r] is the greedy [r*], [Star false r] the
    lazy [r*?]; [Group n r] is the [n]-th capturing group; [Bol], [Eol] and
    [WordB] are [^], [$] and [\b]. *)
Inductive regex : Type :=
| Eps
| Chr (c : ascii)
| Cls (p : ascii -> bool)
| Seq (r1 r2 : regex)
| Alt (r1 r2 : regex)
| Star (greedy : bool) (r : regex)
| Group (n : nat) (r : regex)
| Bol
| Eol
| WordB.

(** Matcher state: the characters already passed (most recent first), the
    characters still ahead, and the groups captured so far. *)
Record mstate : Type := MState {
  seen : list ascii;
  rest : list ascii;
  caps : list (nat * string)
}.

Definition advance (st : mstate) (c : ascii) (cs : list ascii) : mstate :=
  MState (c :: seen st) cs (caps st).

(** Text consumed between an earlier state [st0] and a later state [st1]. *)
Definition consumed (st0 st1 : mstate) : string :=
  string_of_list_ascii
    (rev (take (length (seen st1) - length (seen st0)) (seen st1))).

Definition set_cap (n : nat) (st0 st1 : mstate) : mstate :=
  MState (seen st1) (rest st1) ((n, consumed st0 st1) :: caps st1).

Definition at_word_boundary (st : mstate) : bool :=
  xorb (match seen st with c :: _ => is_word c | [] => false end)
       (match rest st with c :: _ => is_word c | [] => false end).

(** Repetition of a pattern whose matcher is [body]: a greedy repetition
    tries one more round before stopping, a lazy one stops before trying
    one more round.  A round has to consume input, which every repeated
    pattern of the sources does; [fuel] bounds the rounds by the length of
    the text that is left. *)
Fixpoint star_loop (body : mstate -> (mstate -> option mstate) -> option mstate)
  (greedy : bool) (k : mstate -> option mstate) (fuel : nat) (st : mstate)
  : option mstate :=
  match fuel with
  | O => k st
  | S fuel' =>
      let round (_ : unit) :=
        body st (fun st1 =>
          if (length (rest st1) <? length (rest st))%nat
          then star_loop body greedy k fuel' st1 else None) in
      if greedy then
        match round tt with
        | Some res => Some res
        | None => k st
        end
      else
        match k st with
        | Some res => Some res
        | None => round tt
        end
  end.

(** Continuation-passing matcher with the priorities of [re]: of two
    alternatives the first is tried first. *)
Fixpoint rmatch (r : regex) (st : mstate) (k : mstate -> option mstate)
  : option mstate :=
  match r with
  | Eps => k st
  | Chr c =>
      match rest st with
      | x :: xs => if Ascii.eqb x c then k (advance st x xs) else None
      | [] => None
      end
  | Cls p =>
      match rest st with
      | x :: xs => if p x then k (advance st x xs) else None
      | [] => None
      end
  | Seq r1 r2 => rmatch r1 st (fun st1 => rmatch r2 st1 k)
  | Alt r1 r2 =>
      match rmatch r1 st k with
      | Some res => Some res
      | None => rmatch r2 st k
      end
  | Star greedy r1 => star_loop (rmatch r1) greedy k (length (rest st)) st
  | Group n r1 => rmatch r1 st (fun st1 => k (set_cap n st st1))
  | Bol => match seen st with [] => k st | _ => None end
  | Eol =>
      match rest st with
      | [] => k st
      | [c] => if Ascii.eqb c newline then k st else None
      | _ => None
      end
  | WordB => if at_word_boundary st then k st else None
  end.

(** Pattern abbreviations. *)
Fixpoint lit_chars (cs : list ascii) : regex :=
  match cs with
  | [] => Eps
  | [c] => Chr c
  | c :: cs' => Seq (Chr c) (lit_chars cs')
  end.

Definition lit (s : string) : regex := lit_chars (list_ascii_of_string s).

Fixpoint alts (rs : list regex) : regex :=
  match rs with
  | [] => Cls (fun _ => false)
  | [r] => r
  | r :: rs' => Alt r (alts rs')
  end.

Fixpoint seqs (rs : list regex) : regex :=
  match rs with
  | [] => Eps
  | [r] => r
  | r :: rs' => Seq r (seqs rs')
  end.

Definition words (ws : list string) : regex := alts (map lit ws).

Definition any_char : regex := Cls (fun c => negb (Ascii.eqb c newline)).
Definition digit : regex := Cls is_digit.
Definition space : regex := Cls is_space.
Definition plus (greedy : bool) (r : regex) : regex := Seq r (Star greedy r).
Definition opt (r : regex) : regex := Alt r Eps.
(** [\d{1,2}] *)
Definition digit12 : regex := Seq digit (opt digit).
(** [\d{2}] *)
Definition digit2 : regex := Seq digit digit.
(** [\s+] and [\s*] *)
Definition spaces1 : regex := plus true space.
Definition spaces0 : regex := Star true space.

(** A successful match: where it starts, the state where it ends. *)
Record rematch : Type := ReMatch { m_from : mstate; m_to : mstate }.

(** [m.group(n)]: the text of group [n], [None] when the group took no part
    in the match. *)
Definition group (n : nat) (m : rematch) : option string :=
  match n with
  | O => Some (consumed (m_from m) (m_to m))
  | _ => snd <$> List.find (fun p => Nat.eqb (fst p) n) (caps (m_to m))
  end.

(** Match attempt at one position. *)
Definition match_here (r : regex) (before after : list ascii) : option rematch :=
  let st0 := MState before after [] in
  ReMatch st0 <$> rmatch r st0 Some.

(** Leftmost match at or after the current position. *)
Fixpoint search_from (r : regex) (before after : list ascii) : option rematch :=
  match match_here r before after with
  | Some m => Some m
  | None =>
      match after with
      | [] => None
      | c :: after' => search_from r (c :: before) after'
      end
  end.

(** [re.search(r, s)] *)
Definition re_search (r : regex) (s : string) : option rematch :=
  search_from r [] (list_ascii_of_string s).

(** [re.match(r, s)] *)
Definition re_match (r : regex) (s : string) : option rematch :=
  match_here r [] (list_ascii_of_string s).

(** [re.sub(r, '', s)]: every non-overlapping match, left to right, is
    deleted.  An empty match deletes nothing and moves on by one character. *)
Fixpoint sub_loop (fuel : nat) (r : regex) (before after : list ascii)
  : list ascii :=
  match fuel with
  | O => after
  | S fuel' =>
      match match_here r before after with
      | Some m =>
          let n := (length (seen (m_to m)) - length before)%nat in
          match n, after with
          | S _, _ => sub_loop fuel' r (seen (m_to m)) (rest (m_to m))
          | O, c :: after' => c :: sub_loop fuel' r (c :: before) after'
          | O, [] => []
          end
      | None =>
          match after with
          | [] => []
          | c :: after' => c :: sub_loop fuel' r (c :: before) after'
          end
      end
  end.

Definition re_sub_empty (r : regex) (s : string) : string :=
  let cs := list_ascii_of_string s in
  string_of_list_ascii (sub_loop (S (length cs)) r [] cs).

(* ===================================================================== *)
(** * Calendar dates ([datetime.date])                                    *)
(* ===================================================================== *)

Record date : Type := Date { year : Z; month : Z; day : Z }.

Definition is_leap (y : Z) : bool :=
  (y mod 4 =? 0) && (negb (y mod 100 =? 0) || (y mod 400 =? 0)).

Definition days_in_month (y m : Z) : Z :=
  if m =? 2 then (if is_leap y then 29 else 28)
  else if (m =? 4) || (m =? 6) || (m =? 9) || (m =? 11) then 30
  else 31.

(** The dates a [datetime.date] can hold: years 1 to 9999. *)
Definition valid_date (d : date) : bool :=
  (1 <=? year d) && (year d <=? 9999) &&
  (1 <=? month d) && (month d <=? 12) &&
  (1 <=? day d) && (day d <=? days_in_month (year d) (month d)).

Definition date_succ (d : date) : date :=
  if day d <? days_in_month (year d) (month d)
  then Date (year d) (month d) (day d + 1)
  else if month d <? 12 then Date (year d) (month d + 1) 1
  else Date (year d + 1) 1 1.

Definition date_pred (d : date) : date :=
  if 1 <? day d then Date (year d) (month d) (day d - 1)
  else if 1 <? month d
       then Date (year d) (month d - 1) (days_in_month (year d) (month d - 1))
  else Date (year d - 1) 12 31.

(** Exceptions raised by the modelled code. *)
Inductive pyexc : Type :=
| OverflowError
| AttributeError (tyname attr : string)
| ValueError (msg : string)
| TypeError (msg : string)
| ValidationError (fields : list string)
| HTTPException (status_code : Z) (detail : string).

(** Outcome of a computation that may raise. *)
Inductive res (A : Type) : Type :=
| Ok (a : A)
| Raise (e : pyexc).
Arguments Ok {A} a.
Arguments Raise {A} e.

#[global] Instance res_bind : MBind res := fun A B f m =>
  match m with
  | Ok a => f a
  | Raise e => Raise e
  end.

#[global] Instance res_ret : MRet res := fun A a => Ok a.

(** [d + timedelta(days=n)] for [n >= 0] and [d - timedelta(days=n)]:
    [OverflowError] when the result leaves the years 1 to 9999. *)
Definition date_plus (d : date) (n : nat) : res date :=
  let r := Nat.iter n date_succ d in
  if valid_date r then Ok r else Raise OverflowError.

Definition date_minus (d : date) (n : nat) : res date :=
  let r := Nat.iter n date_pred d in
  if valid_date r then Ok r else Raise OverflowError.

(** [str(d)], the ISO form [YYYY-MM-DD]. *)
Definition str_date (d : date) : string :=
  zfill 4 (Z.to_N (year d)) ++ "-" ++ zfill 2 (Z.to_N (month d)) ++ "-" ++
  zfill 2 (Z.to_N (day d)).

(** ** [datetime.strptime(s, "%Y-%m-%d")]

    CPython turns the format into one pattern and matches it at the start
    of the text: [%Y] is [\d\d\d\d], [%m] is [1[0-2]|0[1-9]|[1-9]] and [%d]
    is [3[0-1]|[1-2]\d|0[1-9]|[1-9]| [1-9]], alternatives tried in that
    order; the leading zero of month and day is optional.  Text left after
    the match, or a day that the month does not have, is a [ValueError]
    ([None] here).  No alternative of [%m] can succeed after an earlier one
    matched and the following [-] failed, so taking the first alternative
    that matches is what the pattern does. *)
Definition parse_Y (cs : list ascii) : option (N * list ascii) :=
  match cs with
  | a :: b :: c :: d :: r =>
      if is_digit a && is_digit b && is_digit c && is_digit d
      then Some (int_of_digits (string_of_list_ascii [a; b; c; d]), r)
      else None
  | _ => None
  end.

Definition parse_m (cs : list ascii) : option (N * list ascii) :=
  match cs with
  | a :: r =>
      match r with
      | b :: r' =>
          if Ascii.eqb a "1" && in_range 48 50 b then Some (10 + digit_val b, r')%N
          else if Ascii.eqb a "0" && in_range 49 57 b then Some (digit_val b, r')
          else if in_range 49 57 a then Some (digit_val a, r)
          else None
      | [] => if in_range 49 57 a then Some (digit_val a, r) else None
      end
  | [] => None
  end.

Definition parse_d (cs : list ascii) : option (N * list ascii) :=
  match cs with
  | a :: r =>
      match r with
      | b :: r' =>
          if Ascii.eqb a "3" && in_range 48 49 b then Some (30 + digit_val b, r')%N
          else if in_range 49 50 a && is_digit b
               then Some (10 * digit_val a + digit_val b, r')%N
          else if Ascii.eqb a "0" && in_range 49 57 b then Some (digit_val b, r')
          else if in_range 49 57 a then Some (digit_val a, r)
          else if Ascii.eqb a " " && in_range 49 57 b then Some (digit_val b, r')
          else None
      | [] => if in_range 49 57 a then Some (digit_val a, r) else None
      end
  | [] => None
  end.

Definition expect (c : ascii) (cs : list ascii) : option (list ascii) :=
  match cs with
  | x :: r => if Ascii.eqb x c then Some r else None
  | [] => None
  end.

Definition strptime_Ymd (s : string) : option date :=
  '(y, r1) ← parse_Y (list_ascii_of_string s);
  r2 ← expect "-" r1;
  '(m, r3) ← parse_m r2;
  r4 ← expect "-" r3;
  '(d, r5) ← parse_d r4;
  match r5 with
  | [] =>
      let dt := Date (Z.of_N y) (Z.of_N m) (Z.of_N d) in
      if valid_date dt then Some dt else None
  | _ => None
  end.

(* ===================================================================== *)
(** * Python values and action descriptors                                *)
(* ===================================================================== *)

(** The values a descriptor can hold.  [VOther] stands for the values whose
    structure the code never inspects (floats, lists, nested objects): the
    code sees their type name, their truth value and their [str()]. *)
Inductive pyval : Type :=
| VNone
| VBool (b : bool)
| VInt (z : Z)
| VStr (s : string)
| VOther (tyname : string) (truth : bool) (text : string).

Definition truthy (v : pyval) : bool :=
  match v with
  | VNone => false
  | VBool b => b
  | VInt z => negb (z =? 0)
  | VStr s => nonempty s
  | VOther _ t _ => t
  end.

Definition py_str (v : pyval) : string :=
  match v with
  | VNone => "None"
  | VBool true => "True"
  | VBool false => "False"
  | VInt z => str_Z z
  | VStr s => s
  | VOther _ _ t => t
  end.

Definition type_name (v : pyval) : string :=
  match v with
  | VNone => "NoneType"
  | VBool _ => "bool"
  | VInt _ => "int"
  | VStr _ => "str"
  | VOther n _ _ => n
  end.

Definition VFloat (text : string) : pyval := VOther "float" true text.

(** [v == s] for a string literal [s]: only an equal string is equal. *)
Definition eq_str (v : pyval) (s : string) : bool :=
  match v with
  | VStr x => String.eqb x s
  | _ => false
  end.

(** An action descriptor is a Python [dict] with string keys. *)
Abbreviation descriptor := (gmap string pyval).

(** What [json.loads] can return: an object, an array, a string, or one of
    the other values (a number, [true], [false], [null]), which [JScalar]
    holds; a string is always a [JString]. *)
Inductive json_value : Type :=
| JObject (d : descriptor)
| JArray (items : list pyval)
| JString (s : string)
| JScalar (v : pyval).

(** The name of the Python type of a decoded value. *)
Definition json_type_name (parsed : json_value) : string :=
  match parsed with
  | JObject _ => "dict"
  | JArray _ => "list"
  | JString _ => "str"
  | JScalar v => type_name v
  end.

(* ===================================================================== *)
(** * The normalizer ([AIService._normalize_parsed_command])              *)
(* ===================================================================== *)

Definition priority_map (p : string) : option string :=
  if String.eqb p "low" then Some "LOW"
  else if String.eqb p "medium" then Some "MEDIUM"
  else if String.eqb p "high" then Some "HIGH"
  else if String.eqb p "urgent" then Some "URGENT"
  else None.

Definition normalize_priority (d : descriptor) : descriptor :=
  match d !! "priority" with
  | Some v =>
      if truthy v then
        match priority_map (lower (py_str v)) with
        | Some p => <["priority" := VStr p]> d
        | None => d
        end
      else d
  | None => d
  end.

(** [[\[\]]] *)
Definition bracket : regex :=
  Cls (fun c => Ascii.eqb c "[" || Ascii.eqb c "]").

(** The helper [normalize_date_field]; [None] is Python's [None]. *)
Definition normalize_date_field (today : date) (date_value : pyval)
  : res (option string) :=
  if negb (truthy date_value) then Ok None
  else
    let date_str := strip (lower (py_str date_value)) in
    let date_str := re_sub_empty bracket date_str in
    if mem_str date_str ["yyyy-mm-dd"; "yyyy/mm/dd"; "[yyyy-mm-dd]"] then Ok None
    else if mem_str date_str ["today"; "[today]"] then Ok (Some (str_date today))
    else if mem_str date_str ["tomorrow"; "[tomorrow]"] then
      t ← date_plus today 1; Ok (Some (str_date t))
    else if mem_str date_str ["yesterday"; "[yesterday]"] then
      t ← date_minus today 1; Ok (Some (str_date t))
    else if contains "next week" date_str then
      t ← date_plus today 7; Ok (Some (str_date t))
    else if contains "next month" date_str then
      t ← date_plus today 30; Ok (Some (str_date t))
    else
      match strptime_Ymd date_str with
      | Some _ => Ok (Some date_str)
      | None => Ok None
      end.

Definition time_mappings (t : string) : option string :=
  if String.eqb t "morning" then Some "09:00"
  else if String.eqb t "afternoon" then Some "14:00"
  else if String.eqb t "evening" then Some "18:00"
  else if String.eqb t "night" then Some "20:00"
  else if String.eqb t "noon" then Some "12:00"
  else if String.eqb t "midnight" then Some "00:00"
  else None.

(** [^\d{1,2}:\d{2}$] *)
Definition time_shape : regex := seqs [Bol; digit12; Chr ":"; digit2; Eol].

(** The helper [normalize_time_field]. *)
Definition normalize_time_field (time_value : pyval) : option string :=
  if negb (truthy time_value) then None
  else
    let time_str := strip (lower (py_str time_value)) in
    if mem_str time_str ["hh:mm"; "hh:mm:ss"; "[hh:mm]"] then None
    else
      match time_mappings time_str with
      | Some t => Some t
      | None =>
          match re_match time_shape time_str with
          | Some _ => Some time_str
          | None => None
          end
      end.

(** One "Handle <key>" block: the key, when present, is overwritten with
    the normalized text if that is a non-empty string and removed
    otherwise. *)
Definition store_or_pop (key : string) (normalized : option string)
  (d : descriptor) : descriptor :=
  match normalized with
  | Some s => if nonempty s then <[key := VStr s]> d else delete key d
  | None => delete key d
  end.

Definition handle_date (today : date) (key : string) (d : descriptor)
  : res descriptor :=
  match d !! key with
  | Some v =>
      n ← normalize_date_field today v; Ok (store_or_pop key n d)
  | None => Ok d
  end.

Definition handle_time (key : string) (d : descriptor) : descriptor :=
  match d !! key with
  | Some v => store_or_pop key (normalize_time_field v) d
  | None => d
  end.

(** [_normalize_parsed_command]; [today] is [datetime.now().date()]. *)
Definition normalize_parsed_command (today : date) (parsed_command : descriptor)
  : res descriptor :=
  let d := normalize_priority parsed_command in
  d ← handle_date today "scheduled_date" d;
  d ← handle_date today "due_date" d;
  d ← handle_date today "date_filter" d;
  let d := handle_time "scheduled_time" d in
  let d := handle_time "due_time" d in
  Ok d.

(** The keys that [_normalize_parsed_command] tests with [in], in the order
    of the tests. *)
Definition handled_keys : list string :=
  ["priority"; "scheduled_date"; "due_date"; "date_filter"; "scheduled_time";
   "due_time"].

(** [_normalize_parsed_command] on whatever [json.loads] returned.  Nothing
    in it asks for a dict.  On a list, [key in parsed_command] compares the
    key with the items, on a string it looks for the key as a substring,
    and on any other value it raises [TypeError]; when the test succeeds on
    a list or a string, [parsed_command[key]] raises [TypeError].  A list or
    a string with none of the keys in it is returned as it is. *)
Definition normalize_reply (today : date) (parsed_command : json_value)
  : res json_value :=
  match parsed_command with
  | JObject d => d' ← normalize_parsed_command today d; Ok (JObject d')
  | JArray items =>
      if existsb (fun key => existsb (fun x => eq_str x key) items) handled_keys
      then Raise (TypeError "list indices must be integers or slices, not str")
      else Ok (JArray items)
  | JString s =>
      if any_in handled_keys s
      then Raise (TypeError "string indices must be integers, not 'str'")
      else Ok (JString s)
  | JScalar v =>
      Raise (TypeError ("argument of type '" ++ type_name v ++ "' is not iterable"))
  end.

(* ===================================================================== *)
(** * The pattern interpreter ([AIService._parse_with_patterns])          *)
(* ===================================================================== *)

Definition greetings : list string :=
  ["hi"; "hello"; "hey"; "good morning"; "good afternoon"; "good evening"].

Definition help_words : list string :=
  ["help"; "what can you do"; "how do you work"; "commands"].

Definition schedule_words : list string :=
  ["schedule"; "plan"; "appointment"; "meeting"; "remind"; "at"; "on"; "book"].

Definition list_words : list string :=
  ["show"; "list"; "what's"; "schedule"; "agenda"; "today"; "tomorrow"; "view"].

Definition task_keywords : list string :=
  ["add"; "create"; "new"; "make"; "start"; "begin"; "complete"; "finish";
   "done"; "delete"; "remove"; "show"; "list"; "view"; "see"; "task"; "todo";
   "schedule"; "plan"].

Definition am_pm : regex := words ["am"; "pm"].

(** [(\d{1,2}):(\d{2})\s*(am|pm)?] *)
Definition specific_time_re : regex :=
  seqs [Group 1 digit12; Chr ":"; Group 2 digit2; spaces0; opt (Group 3 am_pm)].

(** [(\d{1,2})\s*(am|pm)] *)
Definition hour_ampm_re : regex :=
  seqs [Group 1 digit12; spaces0; Group 2 am_pm].

Definition time_patterns : list (regex * string) :=
  [ (specific_time_re, "specific_time");
    (hour_ampm_re, "hour_ampm");
    (lit "morning", "09:00");
    (lit "afternoon", "14:00");
    (lit "evening", "18:00");
    (lit "night", "20:00") ].

Definition title_patterns : list regex :=
  [ (* (?:schedule|plan|book) (.+?) (?:at|on|for|tomorrow|today) *)
    seqs [words ["schedule"; "plan"; "book"]; Chr " ";
          Group 1 (plus false any_char); Chr " ";
          words ["at"; "on"; "for"; "tomorrow"; "today"]];
    (* remind me to (.+?)(?:\s+at|\s+on|\s+for|\s+tomorrow|\s+today|$) *)
    seqs [lit "remind me to "; Group 1 (plus false any_char);
          alts [Seq spaces1 (lit "at"); Seq spaces1 (lit "on");
                Seq spaces1 (lit "for"); Seq spaces1 (lit "tomorrow");
                Seq spaces1 (lit "today"); Eol]];
    (* (?:schedule|plan|remind me to|book) (.+) *)
    seqs [words ["schedule"; "plan"; "remind me to"; "book"]; Chr " ";
          Group 1 (plus true any_char)] ].

(** [\b(schedule|plan|remind me to|book|at|on|for)\b] *)
Definition scheduling_word_re : regex :=
  seqs [WordB;
        Group 1 (words ["schedule"; "plan"; "remind me to"; "book"; "at"; "on"; "for"]);
        WordB].

Definition create_patterns : list regex :=
  [ (* (?:add|create|new|make)\s+(?:a\s+)?(?:task\s+)?(?:to\s+)?(.+) *)
    seqs [words ["add"; "create"; "new"; "make"]; spaces1;
          opt (Seq (Chr "a") spaces1); opt (Seq (lit "task") spaces1);
          opt (Seq (lit "to") spaces1); Group 1 (plus true any_char)];
    (* (.+)\s+(?:task|todo) *)
    seqs [Group 1 (plus true any_char); spaces1; words ["task"; "todo"]] ].

Definition trailing_task : regex := opt (Seq spaces1 (lit "task")).

(** [(?:start|begin|working on)\s+(.+?)(?:\s+task)?$] *)
Definition start_re : regex :=
  seqs [words ["start"; "begin"; "working on"]; spaces1;
        Group 1 (plus false any_char); trailing_task; Eol].

(** [(?:complete|finish|mark\s+(?:as\s+)?(?:completed|done)|done)\s+(.+?)(?:\s+task)?$] *)
Definition complete_re : regex :=
  seqs [alts [lit "complete"; lit "finish";
              seqs [lit "mark"; spaces1; opt (Seq (lit "as") spaces1);
                    words ["completed"; "done"]];
              lit "done"];
        spaces1; Group 1 (plus false any_char); trailing_task; Eol].

Definition delete_patterns : list regex :=
  [ (* (?:delete|remove)\s+(.+?)(?:\s+task)?$ *)
    seqs [words ["delete"; "remove"]; spaces1;
          Group 1 (plus false any_char); trailing_task; Eol] ].

(** [match.group(n)] of a group that took part in the match. *)
Definition group_text (n : nat) (m : rematch) : string := default EmptyString (group n m).

(** [for pattern in patterns: match = re.search(...); if match: ...; break] *)
Fixpoint first_search (patterns : list regex) (text : string) : option rematch :=
  match patterns with
  | [] => None
  | p :: ps =>
      match re_search p text with
      | Some m => Some m
      | None => first_search ps text
      end
  end.

(** The 12-hour to 24-hour adjustment shared by both clock patterns. *)
Definition adjust_hour (hour : N) (ampm : option string) : N :=
  if bool_decide (ampm = Some "pm") && (hour <? 12)%N then (hour + 12)%N
  else if bool_decide (ampm = Some "am") && (hour =? 12)%N then 0%N
  else hour.

Definition time_of_match (time_type : string) (m : rematch) : string :=
  if String.eqb time_type "specific_time" then
    let hour := int_of_digits (group_text 1 m) in
    let minute := int_of_digits (group_text 2 m) in
    let hour := adjust_hour hour (group 3 m) in
    zfill 2 hour ++ ":" ++ zfill 2 minute
  else if String.eqb time_type "hour_ampm" then
    let hour := int_of_digits (group_text 1 m) in
    let hour := adjust_hour hour (group 2 m) in
    zfill 2 hour ++ ":00"
  else time_type.

(** The "Extract time" loop: the first pattern that matches decides. *)
Fixpoint extract_time (patterns : list (regex * string)) (text : string)
  : option string :=
  match patterns with
  | [] => None
  | (p, time_type) :: ps =>
      match re_search p text with
      | Some m => Some (time_of_match time_type m)
      | None => extract_time ps text
      end
  end.

Definition set_opt (key : string) (v : option pyval) (d : descriptor) : descriptor :=
  match v with
  | Some x => <[key := x]> d
  | None => d
  end.

(** Title of a scheduling command. *)
Definition schedule_title (command_lower : string) : string :=
  let found :=
    match first_search title_patterns command_lower with
    | Some m => Some (strip (group_text 1 m))
    | None => None
    end in
  if nonempty (default EmptyString found) then default EmptyString found
  else
    let title := strip (re_sub_empty scheduling_word_re command_lower) in
    if nonempty title then title else "Scheduled task".

Definition schedule_priority (command_lower : string) : string :=
  if any_in ["urgent"; "asap"; "immediately"] command_lower then "URGENT"
  else if any_in ["important"; "high"] command_lower then "HIGH"
  else if any_in ["low"; "minor"] command_lower then "LOW"
  else "MEDIUM".

(** The scheduling branch. *)
Definition parse_schedule (today : date) (command_lower : string) : res descriptor :=
  let result : descriptor :=
    <["confidence" := VFloat "0.8"]> (<["action" := VStr "create"]> ∅) in
  let result := <["task_title" := VStr (schedule_title command_lower)]> result in
  let result :=
    set_opt "due_time" (VStr <$> extract_time time_patterns command_lower) result in
  due ←
    (if contains "today" command_lower then Ok (Some (str_date today))
     else if contains "tomorrow" command_lower
          then t ← date_plus today 1; Ok (Some (str_date t))
     else Ok None);
  let result := set_opt "due_date" (VStr <$> due) result in
  let result := <["priority" := VStr (schedule_priority command_lower)]> result in
  let result :=
    if contains "remind" command_lower
    then <["reminder_time" := VInt 15]> result else result in
  Ok result.

(** The listing branch. *)
Definition parse_list (today : date) (command_lower : string) : res descriptor :=
  let result : descriptor :=
    <["confidence" := VFloat "0.8"]> (<["action" := VStr "list"]> ∅) in
  filt ←
    (if any_in ["today"; "today's"] command_lower then Ok (Some (str_date today))
     else if any_in ["tomorrow"; "tomorrow's"] command_lower
          then t ← date_plus today 1; Ok (Some (str_date t))
     else Ok None);
  let result := set_opt "date_filter" (VStr <$> filt) result in
  let result :=
    if contains "completed" command_lower
    then <["state_filter" := VStr "Completed"]> result
    else if contains "progress" command_lower
    then <["state_filter" := VStr "In Progress"]> result
    else if contains "pending" command_lower || contains "not started" command_lower
    then <["state_filter" := VStr "Not Started"]> result
    else result in
  Ok result.

Definition chat_descriptor (message confidence : string) : descriptor :=
  <["confidence" := VFloat confidence]>
    (<["message" := VStr message]> (<["action" := VStr "chat"]> ∅)).

Definition titled (action : string) (title : string) (confidence : string)
  : descriptor :=
  <["confidence" := VFloat confidence]>
    (<["task_title" := VStr title]> (<["action" := VStr action]> ∅)).

(** The branches after the keyword gates: create, start, complete, delete,
    and the "unclear" default. *)
Definition parse_task_command (command_lower : string) : descriptor :=
  let create_match :=
    if any_in ["add"; "create"; "new"; "make"] command_lower
    then first_search create_patterns command_lower else None in
  match create_match with
  | Some m => titled "create" (strip (group_text 1 m)) "0.8"
  | None =>
      let start_match :=
        if any_in ["start"; "begin"; "working"] command_lower
        then re_search start_re command_lower else None in
      match start_match with
      | Some m =>
          <["new_state" := VStr "In Progress"]>
            (titled "update_state" (strip (group_text 1 m)) "0.9")
      | None =>
          let complete_match :=
            if any_in ["complete"; "finish"; "done"] command_lower
            then re_search complete_re command_lower else None in
          match complete_match with
          | Some m =>
              <["new_state" := VStr "Completed"]>
                (titled "update_state" (strip (group_text 1 m)) "0.9")
          | None =>
              match first_search delete_patterns command_lower with
              | Some m => titled "delete" (strip (group_text 1 m)) "0.8"
              | None => chat_descriptor "unclear" "0.5"
              end
          end
      end
  end.

(** [_parse_with_patterns]; [today] is [datetime.now().date()]. *)
Definition parse_with_patterns (today : date) (command : string) : res descriptor :=
  let command_lower := strip (lower command) in
  if mem_str command_lower greetings then Ok (chat_descriptor "greeting" "0.9")
  else if any_in help_words command_lower then Ok (chat_descriptor "help" "0.9")
  else if any_in schedule_words command_lower then parse_schedule today command_lower
  else if any_in list_words command_lower then parse_list today command_lower
  else if negb (any_in task_keywords command_lower)
       then Ok (chat_descriptor "general" "0.8")
  else Ok (parse_task_command command_lower).

(* ===================================================================== *)
(** * Schemas ([app/schemas/task.py]) and rows ([app/models/task.py])     *)
(* ===================================================================== *)

Inductive TaskState : Type := NOT_STARTED | IN_PROGRESS | COMPLETED.

#[global] Instance TaskState_eq_dec : EqDecision TaskState.
Proof. solve_decision. Defined.

(** The [.value] of a member. *)
Definition state_value (s : TaskState) : string :=
  match s with
  | NOT_STARTED => "Not Started"
  | IN_PROGRESS => "In Progress"
  | COMPLETED => "Completed"
  end.

(** [TaskState.get_valid_transitions] *)
Definition get_valid_transitions (current_state : TaskState) : list TaskState :=
  match current_state with
  | NOT_STARTED => [IN_PROGRESS]
  | IN_PROGRESS => [COMPLETED]
  | COMPLETED => []
  end.

(** [TaskState.is_valid_transition]: [to_state in valid_transitions]. *)
Definition is_valid_transition (from_state to_state : TaskState) : bool :=
  bool_decide (to_state ∈ get_valid_transitions from_state).

(** [TaskState(v)], the lookup of a member by value; [None] is the
    [ValueError] of a value that no member has. *)
Definition TaskState_of (v : pyval) : option TaskState :=
  match v with
  | VStr s =>
      if String.eqb s "Not Started" then Some NOT_STARTED
      else if String.eqb s "In Progress" then Some IN_PROGRESS
      else if String.eqb s "Completed" then Some COMPLETED
      else None
  | _ => None
  end.

Inductive TaskPriority : Type := LOW | MEDIUM | HIGH | URGENT.

#[global] Instance TaskPriority_eq_dec : EqDecision TaskPriority.
Proof. solve_decision. Defined.

Definition priority_value (p : TaskPriority) : string :=
  match p with
  | LOW => "LOW"
  | MEDIUM => "MEDIUM"
  | HIGH => "HIGH"
  | URGENT => "URGENT"
  end.

(** Validation of a [TaskPriority] field: a member is found by value. *)
Definition TaskPriority_of (v : pyval) : option TaskPriority :=
  match v with
  | VStr s =>
      if String.eqb s "LOW" then Some LOW
      else if String.eqb s "MEDIUM" then Some MEDIUM
      else if String.eqb s "HIGH" then Some HIGH
      else if String.eqb s "URGENT" then Some URGENT
      else None
  | _ => None
  end.

(** [datetime.time] *)
Record pytime : Type := MkTime { hour : Z; minute : Z; second : Z }.

(** [TaskBase] / [TaskCreate]: there is no [state] field. *)
Record TaskCreate : Type := MkTaskCreate {
  tc_title : string;
  tc_description : option string;
  tc_priority : TaskPriority;
  tc_category : option string;
  tc_scheduled_date : option date;
  tc_scheduled_time : option pytime;
  tc_due_date : option date;
  tc_due_time : option pytime;
  tc_reminder_time : option Z
}.

(** [TaskUpdate]: every field optional, default [None]. *)
Record TaskUpdate : Type := MkTaskUpdate {
  tu_title : option string;
  tu_description : option string;
  tu_state : option TaskState;
  tu_priority : option TaskPriority;
  tu_category : option string;
  tu_scheduled_date : option date;
  tu_scheduled_time : option pytime;
  tu_due_date : option date;
  tu_due_time : option pytime;
  tu_reminder_time : option Z
}.

(** [TaskUpdate(state=s)] *)
Definition state_update (s : TaskState) : TaskUpdate :=
  MkTaskUpdate None None (Some s) None None None None None None None.

(** A row of the [tasks] table.  The two timestamps, which the database
    stamps on its own and no service reads, are left out. *)
Record Task : Type := MkTask {
  id : Z;
  title : string;
  description : option string;
  state : TaskState;
  priority : TaskPriority;
  category : option string;
  scheduled_date : option date;
  scheduled_time : option pytime;
  due_date : option date;
  due_time : option pytime;
  reminder_time : option Z;
  user_id : Z
}.

(* ===================================================================== *)
(** * The database session ([self.db])                                    *)
(* ===================================================================== *)

(** [objects] are the rows as the session sees them: queries read them and
    attribute assignments on a loaded row change them at once.  [stored] are
    the rows as of the last [commit()].  [next_id] is the primary key the
    database gives to the next inserted row; the services below move it as
    a counter does, and [runs_to] lets the database choose any unused key
    between two calls.  A [commit()] is taken to succeed, that is, the
    integers of the rows to fit the columns of the store. *)
Record Session : Type := MkSession {
  stored : list Task;
  objects : list Task;
  next_id : Z
}.

(** [db.commit()] *)
Definition commit (db : Session) : Session :=
  MkSession (objects db) (objects db) (next_id db).

(** Assignments to the first row that a query returned with [.first()]. *)
Fixpoint update_first (p : Task -> bool) (f : Task -> Task) (l : list Task)
  : list Task :=
  match l with
  | [] => []
  | t :: l' => if p t then f t :: l' else t :: update_first p f l'
  end.

(** [db.delete(row)] of the first row that a query returned. *)
Fixpoint remove_first (p : Task -> bool) (l : list Task) : list Task :=
  match l with
  | [] => []
  | t :: l' => if p t then l' else t :: remove_first p l'
  end.

(** The primary key is unique and below the next key to be handed out. *)
Definition session_wf (db : Session) : Prop :=
  NoDup (id <$> objects db) /\ Forall (fun t => id t < next_id db) (objects db).

(* ===================================================================== *)
(** * What the libraries around the services compute                      *)
(* ===================================================================== *)

(** Behaviour of the libraries the services call and that is not part of
    the repository: the database's evaluation of [Task.title.contains(p)]
    (a [LIKE] whose case rule depends on the engine), the text of an
    exception, the field validators behind [TaskCreate(...)], [int(v)], the
    rendering of an enum member and of a time inside an f-string, and
    [json.loads] on the text of a reply, which gives a JSON value of any
    kind or raises. *)
Class Runtime : Type := {
  title_contains : string -> string -> bool;
  exc_text : pyexc -> string;
  validate_category : pyval -> option string;
  validate_date : pyval -> option date;
  validate_time : pyval -> option pytime;
  py_int : pyval -> res Z;
  format_priority : TaskPriority -> string;
  str_time : pytime -> string;
  json_loads : string -> res json_value
}.

(* ===================================================================== *)
(** * [TaskStateService] and [TaskService]                                *)
(* ===================================================================== *)

(** [TaskStateService.validate_state_transition] *)
Definition validate_state_transition (current_state new_state : TaskState) : bool :=
  is_valid_transition current_state new_state.

(** [TaskStateService.get_allowed_transitions] *)
Definition get_allowed_transitions (current_state : TaskState) : list TaskState :=
  get_valid_transitions current_state.

(** [TaskService.create_task] *)
Definition create_task (task : TaskCreate) (user_id : Z) (db : Session)
  : Session * Task :=
  let db_task :=
    MkTask (next_id db)
      (tc_title task)
      (tc_description task)
      NOT_STARTED
      (if nonempty (priority_value (tc_priority task))
       then tc_priority task else MEDIUM)
      (tc_category task)
      (tc_scheduled_date task)
      (tc_scheduled_time task)
      (tc_due_date task)
      (tc_due_time task)
      (tc_reminder_time task)
      user_id in
  let db := MkSession (stored db) (py_append (objects db) db_task) (next_id db + 1) in
  (commit db, db_task).

(** The filter [Task.id == task_id, Task.user_id == user_id]. *)
Definition id_and_owner (task_id owner : Z) (t : Task) : bool :=
  (id t =? task_id) && (user_id t =? owner).

(** The filter [Task.user_id == user_id]. *)
Definition owned_by (owner : Z) (t : Task) : bool := user_id t =? owner.

(** [TaskService.get_task] *)
Definition get_task (task_id user_id : Z) (db : Session) : option Task :=
  List.find (id_and_owner task_id user_id) (objects db).

(** [TaskService.get_tasks]; every member of [TaskState] is a non-empty
    string, so [if state_filter:] is the test of its value. *)
Definition get_tasks (user_id : Z) (state_filter : option TaskState) (db : Session)
  : list Task :=
  let query := List.filter (owned_by user_id) (objects db) in
  match state_filter with
  | Some st =>
      if nonempty (state_value st)
      then List.filter (fun t => bool_decide (state t = st)) query
      else query
  | None => query
  end.

Definition or_keep {A : Type} (new : option A) (old : A) : A := default old new.
Definition or_keep_opt {A : Type} (new : option A) (old : option A) : option A :=
  match new with
  | Some x => Some x
  | None => old
  end.

(** The "Update basic fields" block of [update_task]. *)
Definition assign_basic_fields (u : TaskUpdate) (t : Task) : Task :=
  MkTask (id t)
    (or_keep (tu_title u) (title t))
    (or_keep_opt (tu_description u) (description t))
    (state t)
    (or_keep (tu_priority u) (priority t))
    (or_keep_opt (tu_category u) (category t))
    (or_keep_opt (tu_scheduled_date u) (scheduled_date t))
    (or_keep_opt (tu_scheduled_time u) (scheduled_time t))
    (or_keep_opt (tu_due_date u) (due_date t))
    (or_keep_opt (tu_due_time u) (due_time t))
    (or_keep_opt (tu_reminder_time u) (reminder_time t))
    (user_id t).

(** [db_task.state = new_state] *)
Definition assign_state (new_state : TaskState) (t : Task) : Task :=
  MkTask (id t) (title t) (description t) new_state (priority t) (category t)
    (scheduled_date t) (scheduled_time t) (due_date t) (due_time t)
    (reminder_time t) (user_id t).

(** [repr] of a list of state values, as it appears in the error detail. *)
Definition repr_values (l : list TaskState) : string :=
  "[" ++ join ", " (map (fun s => "'" ++ state_value s ++ "'") l) ++ "]".

Definition invalid_transition_detail (current new_state : TaskState) : string :=
  "Invalid state transition from '" ++ state_value current ++ "' to '" ++
  state_value new_state ++ "'. Allowed transitions: " ++
  repr_values (get_allowed_transitions current).

Definition not_found : pyexc := HTTPException 404 "Task not found".

(** [TaskService.update_task].  The assignments act on the row held by the
    session; only [commit()] makes them the stored rows. *)
Definition update_task (task_id : Z) (task_update : TaskUpdate) (user_id : Z)
  (db : Session) : Session * res Task :=
  match get_task task_id user_id db with
  | None => (db, Raise not_found)
  | Some db_task =>
      let touch f :=
        MkSession (stored db)
          (update_first (id_and_owner task_id user_id) f (objects db))
          (next_id db) in
      let basic := assign_basic_fields task_update in
      match tu_state task_update with
      | Some new_state =>
          if negb (validate_state_transition (state db_task) new_state)
          then (touch basic,
                Raise (HTTPException 400
                         (invalid_transition_detail (state db_task) new_state)))
          else (commit (touch (fun t => assign_state new_state (basic t))),
                Ok (assign_state new_state (basic db_task)))
      | None => (commit (touch basic), Ok (basic db_task))
      end
  end.

(** [TaskService.delete_task] *)
Definition delete_task (task_id user_id : Z) (db : Session) : Session * res bool :=
  match get_task task_id user_id db with
  | None => (db, Raise not_found)
  | Some _ =>
      (commit (MkSession (stored db)
                 (remove_first (id_and_owner task_id user_id) (objects db))
                 (next_id db)),
       Ok true)
  end.

(** [TaskService.search_tasks_by_title] *)
Definition search_tasks_by_title `{Runtime} (title_pattern : string) (user_id : Z)
  (db : Session) : list Task :=
  List.filter (fun t => owned_by user_id t && title_contains (title t) title_pattern)
    (objects db).

(* ===================================================================== *)
(** * The dispatcher ([AIService._execute_action])                        *)
(* ===================================================================== *)

Record AICommandResponse : Type := MkResponse {
  success : bool;
  message : string;
  action : option string;
  task_id : option Z;
  tasks : option (list Task)
}.

Definition failure (msg : string) : AICommandResponse :=
  MkResponse false msg None None None.

Definition greeting_message : string :=
  "Hello! I'm your personal day planner assistant. I can help you:" ++ nl ++ nl ++
  "📅 **Schedule Tasks:**" ++ nl ++
  "• 'Schedule meeting tomorrow at 3pm'" ++ nl ++
  "• 'Plan study session for today at 8pm'" ++ nl ++
  "• 'Remind me to call John at 2pm'" ++ nl ++ nl ++
  "📋 **Manage Tasks:**" ++ nl ++
  "• 'Show my schedule for today'" ++ nl ++
  "• 'What's on my agenda tomorrow?'" ++ nl ++
  "• 'Mark presentation as completed'" ++ nl ++ nl ++
  "⏰ **Set Reminders:**" ++ nl ++
  "• 'Remind me 30 minutes before the meeting'" ++ nl ++
  "• 'Set reminder for doctor appointment'" ++ nl ++ nl ++
  "How can I help organize your day?".

Definition help_message : string :=
  "I'm your AI day planner! Here's how I can help:" ++ nl ++ nl ++
  "📅 **Scheduling:**" ++ nl ++
  "• 'Schedule meeting tomorrow at 3pm'" ++ nl ++
  "• 'Plan workout for today morning'" ++ nl ++
  "• 'Book dentist appointment Friday 2pm'" ++ nl ++ nl ++
  "⏰ **Time Management:**" ++ nl ++
  "• 'Show my schedule for today'" ++ nl ++
  "• 'What's due tomorrow?'" ++ nl ++
  "• 'List urgent tasks'" ++ nl ++ nl ++
  "🔔 **Reminders:**" ++ nl ++
  "• 'Remind me 15 minutes before meeting'" ++ nl ++
  "• 'Set reminder for grocery shopping'" ++ nl ++ nl ++
  "✅ **Task Updates:**" ++ nl ++
  "• 'Start working on presentation'" ++ nl ++
  "• 'Complete the research task'" ++ nl ++
  "• 'Delete old appointment'" ++ nl ++ nl ++
  "🏷️ **Categories & Priorities:**" ++ nl ++
  "• 'Add high priority work task'" ++ nl ++
  "• 'Create personal reminder'" ++ nl ++ nl ++
  "Just tell me what you need to plan or organize!".

Definition general_message : string :=
  "I'm your personal task assistant! I can help you create, manage, and track your tasks. Try asking me to:" ++ nl ++ nl ++
  "• 'Add a new task'" ++ nl ++
  "• 'Show my current tasks'" ++ nl ++
  "• 'Mark a task as done'" ++ nl ++ nl ++
  "What would you like me to help you with?".

Definition not_understood_message : string :=
  "I couldn't understand what you want to do. Try commands like 'create task', 'start task', 'complete task', or 'show tasks'.".

(** [parsed_command.get(key, '').strip()]: a value that is not a string
    has no [strip]. *)
Definition get_stripped (key : string) (d : descriptor) : res string :=
  match default (VStr EmptyString) (d !! key) with
  | VStr s => Ok (strip s)
  | v => Raise (AttributeError (type_name v) "strip")
  end.

(** [key in parsed_command and parsed_command[key]] *)
Definition present (key : string) (d : descriptor) : option pyval :=
  match d !! key with
  | Some v => if truthy v then Some v else None
  | None => None
  end.

(** The keyword arguments collected in [task_create_data]. *)
Record create_data : Type := MkCreateData {
  cd_title : string;
  cd_description : option string;
  cd_priority : option pyval;
  cd_category : option pyval;
  cd_scheduled_date : option pyval;
  cd_scheduled_time : option pyval;
  cd_due_date : option pyval;
  cd_due_time : option pyval;
  cd_reminder_time : option Z
}.

Definition collect_create_data `{Runtime} (task_title : string) (d : descriptor)
  : res create_data :=
  description ←
    match present "description" d with
    | Some (VStr s) => Ok (Some (strip s))
    | Some v => Raise (AttributeError (type_name v) "strip")
    | None => Ok None
    end;
  reminder ←
    match present "reminder_time" d with
    | Some v => n ← py_int v; Ok (Some n)
    | None => Ok None
    end;
  Ok (MkCreateData task_title description
        (present "priority" d) (present "category" d)
        (present "scheduled_date" d) (present "scheduled_time" d)
        (present "due_date" d) (present "due_time" d) reminder).

(** Validation of one optional field: absent, valid, or in error. *)
Definition check_field {A : Type} (name : string) (validate : pyval -> option A)
  (v : option pyval) : list string * option A :=
  match v with
  | None => ([], None)
  | Some x =>
      match validate x with
      | Some a => ([], Some a)
      | None => ([name], None)
      end
  end.

(** Construction of a [TaskCreate] from the collected keyword arguments: fields that are not given take their
    defaults; the fields that fail validation are reported together. *)
Definition make_TaskCreate `{Runtime} (data : create_data) : res TaskCreate :=
  let '(e1, prio) := check_field "priority" TaskPriority_of (cd_priority data) in
  let '(e2, cat) := check_field "category" validate_category (cd_category data) in
  let '(e3, sd) := check_field "scheduled_date" validate_date (cd_scheduled_date data) in
  let '(e4, st) := check_field "scheduled_time" validate_time (cd_scheduled_time data) in
  let '(e5, dd) := check_field "due_date" validate_date (cd_due_date data) in
  let '(e6, dt) := check_field "due_time" validate_time (cd_due_time data) in
  match (e1 ++ e2 ++ e3 ++ e4 ++ e5 ++ e6)%list with
  | [] =>
      Ok (MkTaskCreate (cd_title data) (cd_description data) (default MEDIUM prio)
            cat sd st dd dt (cd_reminder_time data))
  | errors => Raise (ValidationError errors)
  end.

(** The confirmation text of a created task. *)
Definition created_message `{Runtime} (task : Task) : string :=
  let parts := ["Created task: '" ++ title task ++ "'"] in
  let parts :=
    match scheduled_date task with
    | Some d =>
        py_append parts
          ("📅 Scheduled for " ++ str_date d ++
           match scheduled_time task with
           | Some t => " at " ++ str_time t
           | None => EmptyString
           end)
    | None => parts
    end in
  let parts :=
    match due_date task with
    | Some d =>
        py_append parts
          ("⏰ Due " ++ str_date d ++
           match due_time task with
           | Some t => " at " ++ str_time t
           | None => EmptyString
           end)
    | None => parts
    end in
  let parts :=
    if nonempty (priority_value (priority task)) &&
       negb (String.eqb (priority_value (priority task)) "Medium")
    then py_append parts ("🔥 Priority: " ++ format_priority (priority task))
    else parts in
  let parts :=
    match reminder_time task with
    | Some n =>
        if negb (n =? 0)
        then py_append parts ("🔔 Reminder: " ++ str_Z n ++ " minutes before due")
        else parts
    | None => parts
    end in
  join nl parts.

Definition multiple_message (matching : list Task) : string :=
  "Multiple tasks found: " ++ join ", " (map title matching) ++
  ". Please be more specific.".

Definition state_suffix (state_filter : option pyval) : string :=
  match state_filter with
  | Some v => if truthy v then " in state '" ++ py_str v ++ "'" else EmptyString
  | None => EmptyString
  end.

(** The body of the [try] of [_execute_action]: the session it leaves and
    either the response or the exception that escapes the branch. *)
Definition execute_body `{Runtime} (parsed_command : descriptor) (user_id : Z)
  (db : Session) : Session * res AICommandResponse :=
  let action := default VNone (parsed_command !! "action") in
  if eq_str action "chat" then
    let message_type := default (VStr "general") (parsed_command !! "message") in
    if eq_str message_type "greeting"
    then (db, Ok (MkResponse true greeting_message None None None))
    else if eq_str message_type "help"
    then (db, Ok (MkResponse true help_message None None None))
    else (db, Ok (MkResponse true general_message None None None))
  else if eq_str action "create" then
    match get_stripped "task_title" parsed_command with
    | Raise e => (db, Raise e)
    | Ok task_title =>
        if negb (nonempty task_title)
        then (db, Ok (failure "Please provide a task title."))
        else
          match collect_create_data task_title parsed_command with
          | Raise e => (db, Raise e)
          | Ok task_create_data =>
              match make_TaskCreate task_create_data with
              | Raise e =>
                  (db, Ok (failure ("Failed to create task: " ++ exc_text e)))
              | Ok task_create =>
                  let '(db, task) := create_task task_create user_id db in
                  (db, Ok (MkResponse true (created_message task)
                             (Some "create") (Some (id task)) None))
              end
          end
    end
  else if eq_str action "update_state" then
    match get_stripped "task_title" parsed_command with
    | Raise e => (db, Raise e)
    | Ok task_title =>
        let new_state := default VNone (parsed_command !! "new_state") in
        if negb (nonempty task_title)
        then (db, Ok (failure "Please specify which task to update."))
        else
          let matching_tasks := search_tasks_by_title task_title user_id db in
          match matching_tasks with
          | [] => (db, Ok (failure ("No tasks found matching '" ++ task_title ++ "'")))
          | [task] =>
              match TaskState_of new_state with
              | None => (db, Ok (failure ("Invalid state: " ++ py_str new_state)))
              | Some new_state_enum =>
                  match update_task (id task) (state_update new_state_enum) user_id db with
                  | (db, Raise e) => (db, Raise e)
                  | (db, Ok updated_task) =>
                      (db, Ok (MkResponse true
                                 ("Updated '" ++ title updated_task ++ "' to '" ++
                                  py_str new_state ++ "'")
                                 (Some "update_state") (Some (id updated_task)) None))
                  end
              end
          | _ => (db, Ok (failure (multiple_message matching_tasks)))
          end
    end
  else if eq_str action "list" then
    let state_filter := parsed_command !! "state_filter" in
    let run (state_enum : option TaskState) :=
      let found := get_tasks user_id state_enum db in
      match found with
      | [] =>
          (db, Ok (MkResponse true ("No tasks found" ++ state_suffix state_filter)
                     (Some "list") None (Some [])))
      | _ =>
          (db, Ok (MkResponse true
                     ("Found " ++ str_Z (Z.of_nat (length found)) ++ " task(s)" ++
                      state_suffix state_filter)
                     (Some "list") None (Some found)))
      end in
    match state_filter with
    | Some v =>
        if truthy v then
          match TaskState_of v with
          | Some st => run (Some st)
          | None => (db, Ok (failure ("Invalid state filter: " ++ py_str v)))
          end
        else run None
    | None => run None
    end
  else if eq_str action "delete" then
    match get_stripped "task_title" parsed_command with
    | Raise e => (db, Raise e)
    | Ok task_title =>
        if negb (nonempty task_title)
        then (db, Ok (failure "Please specify which task to delete."))
        else
          let matching_tasks := search_tasks_by_title task_title user_id db in
          match matching_tasks with
          | [] => (db, Ok (failure ("No tasks found matching '" ++ task_title ++ "'")))
          | [task] =>
              match delete_task (id task) user_id db with
              | (db, Raise e) => (db, Raise e)
              | (db, Ok _) =>
                  (db, Ok (MkResponse true ("Deleted task: '" ++ title task ++ "'")
                             (Some "delete") (Some (id task)) None))
              end
          | _ => (db, Ok (failure (multiple_message matching_tasks)))
          end
    end
  else (db, Ok (failure not_understood_message)).

(** [_execute_action]: an exception that escapes a branch becomes a failed
    response. *)
Definition execute_action `{Runtime} (parsed_command : descriptor) (user_id : Z)
  (db : Session) : Session * AICommandResponse :=
  match execute_body parsed_command user_id db with
  | (db, Ok response) => (db, response)
  | (db, Raise e) => (db, failure ("Error: " ++ exc_text e))
  end.

(* ===================================================================== *)
(** * The LLM interpreter and the entry point                             *)
(* ===================================================================== *)

(** The generative-text client: from the dates and the command that the
    prompt embeds to the text of the reply, or the error of the call. *)
Record GeminiClient : Type := MkClient {
  generate_content : date -> date -> string -> res string
}.

(** [AIService]: the client is [None] when no API key is configured. *)
Record AIService : Type := MkService {
  gemini_client : option GeminiClient
}.

(** [s[start:-3]] *)
Definition slice_fence (start : nat) (s : string) : string :=
  String.substring start (String.length s - 3 - start) s.

(** The extraction of the JSON text from the reply. *)
Definition strip_fence (text : string) : string :=
  let json_text := strip text in
  if String.prefix "```json" json_text then slice_fence 7 json_text
  else if String.prefix "```" json_text then slice_fence 3 json_text
  else json_text.

(** [try: ... except Exception: ...] *)
Definition try_except {A : Type} (body : res A) (handler : pyexc -> res A) : res A :=
  match body with
  | Ok a => Ok a
  | Raise e => handler e
  end.

(** The body of the [try] of [_parse_with_gemini]: the call, the decoding
    of the reply and the normalizer. *)
Definition llm_stage `{Runtime} (client : GeminiClient) (today tomorrow : date)
  (command : string) : res json_value :=
  text ← generate_content client today tomorrow command;
  parsed_result ← json_loads (strip_fence text);
  normalize_reply today parsed_result.

(** [_parse_with_gemini]: [tomorrow] is computed for the prompt, before the
    [try]. *)
Definition parse_with_gemini `{Runtime} (client : GeminiClient) (today : date)
  (command : string) : res json_value :=
  tomorrow ← date_plus today 1;
  try_except
    (llm_stage client today tomorrow command)
    (fun _ =>
       fallback_result ← parse_with_patterns today command;
       normalized ← normalize_parsed_command today fallback_result;
       Ok (JObject normalized)).

(** [_parse_command] *)
Definition parse_command `{Runtime} (svc : AIService) (today : date)
  (command : string) : res json_value :=
  match gemini_client svc with
  | Some client => parse_with_gemini client today command
  | None => d ← parse_with_patterns today command; Ok (JObject d)
  end.

(** [_execute_action] on what [_parse_command] returned:
    [parsed_command.get("action")] stands before the [try], and of the
    values that can arrive only a dict has [get]. *)
Definition execute_parsed `{Runtime} (parsed_command : json_value) (user_id : Z)
  (db : Session) : Session * res AICommandResponse :=
  match parsed_command with
  | JObject d =>
      let '(db, response) := execute_action d user_id db in (db, Ok response)
  | v => (db, Raise (AttributeError (json_type_name v) "get"))
  end.

(** [process_command] *)
Definition process_command `{Runtime} (svc : AIService) (today : date)
  (command : string) (user_id : Z) (db : Session) : Session * AICommandResponse :=
  match parse_command svc today command with
  | Ok parsed_command =>
      match execute_parsed parsed_command user_id db with
      | (db, Ok result) => (db, result)
      | (db, Raise e) =>
          (db, failure ("Sorry, I couldn't process that command: " ++ exc_text e))
      end
  | Raise e =>
      (db, failure ("Sorry, I couldn't process that command: " ++ exc_text e))
  end.

(** ** The pipeline as the specification words it

    "raw command text -> Interpreter (LLM, else Pattern) -> raw descriptor
    -> Normalizer -> normalized descriptor -> Dispatcher". *)

(** The interpreter's raw descriptor: the reply of the LLM when there is a
    client and its reply decodes, the pattern interpreter's otherwise. *)
Definition raw_descriptor `{Runtime} (svc : AIService) (today : date)
  (command : string) : res json_value :=
  match gemini_client svc with
  | Some client =>
      tomorrow ← date_plus today 1;
      try_except
        (text ← generate_content client today tomorrow command;
         json_loads (strip_fence text))
        (fun _ => d ← parse_with_patterns today command; Ok (JObject d))
  | None => d ← parse_with_patterns today command; Ok (JObject d)
  end.

(** The normalized descriptor that the specification hands to the
    dispatcher. *)
Definition spec_normalized_descriptor `{Runtime} (svc : AIService) (today : date)
  (command : string) : res json_value :=
  raw ← raw_descriptor svc today command;
  normalize_reply today raw.

(** ** The pipeline as the code has it

    The raw output of the interpreter stage is the reply of the LLM only
    when there is a client and the call, the decoding and the normalizer
    all succeed on it; in every other case it is the descriptor of the
    pattern interpreter. *)
Definition amended_raw_descriptor `{Runtime} (svc : AIService) (today : date)
  (command : string) : res json_value :=
  match gemini_client svc with
  | Some client =>
      tomorrow ← date_plus today 1;
      match (text ← generate_content client today tomorrow command;
             json_loads (strip_fence text)) with
      | Ok raw =>
          match normalize_reply today raw with
          | Ok _ => Ok raw
          | Raise _ => d ← parse_with_patterns today command; Ok (JObject d)
          end
      | Raise _ => d ← parse_with_patterns today command; Ok (JObject d)
      end
  | None => d ← parse_with_patterns today command; Ok (JObject d)
  end.

Definition amended_normalized_descriptor `{Runtime} (svc : AIService)
  (today : date) (command : string) : res json_value :=
  raw ← amended_raw_descriptor svc today command;
  normalize_reply today raw.

(** The dates on which the service is taken to run: far enough from both
    ends of the calendar that no relative date leaves it. *)
Definition service_day (today : date) : Prop :=
  valid_date today = true /\ 2 <= year today <= 9000.

(* ===================================================================== *)
(** * A concrete runtime, used to run the code on examples                *)
(* ===================================================================== *)

Definition sample_exc_text (e : pyexc) : string :=
  match e with
  | OverflowError => "date value out of range"
  | AttributeError ty attr =>
      "'" ++ ty ++ "' object has no attribute '" ++ attr ++ "'"
  | ValueError msg => msg
  | TypeError msg => msg
  | ValidationError fields =>
      str_Z (Z.of_nat (length fields)) ++ " validation error(s) for TaskCreate: " ++
      join ", " fields
  | HTTPException status_code detail => str_Z status_code ++ ": " ++ detail
  end.

Definition sample_validate_date (v : pyval) : option date :=
  match v with
  | VStr s =>
      match strptime_Ymd s with
      | Some d => if String.eqb (str_date d) s then Some d else None
      | None => None
      end
  | _ => None
  end.

Definition sample_validate_time (v : pyval) : option pytime :=
  match v with
  | VStr s =>
      match re_match (seqs [Group 1 digit2; Chr ":"; Group 2 digit2; Eol]) s with
      | Some m =>
          let h := Z.of_N (int_of_digits (group_text 1 m)) in
          let mi := Z.of_N (int_of_digits (group_text 2 m)) in
          if (h <? 24) && (mi <? 60) then Some (MkTime h mi 0) else None
      | None => None
      end
  | _ => None
  end.

Definition sample_int (v : pyval) : res Z :=
  match v with
  | VInt z => Ok z
  | VBool b => Ok (if b then 1 else 0)
  | VStr s =>
      if forallb is_digit (list_ascii_of_string s) && nonempty s
      then Ok (Z.of_N (int_of_digits s))
      else Raise (ValueError ("invalid literal for int() with base 10: '" ++ s ++ "'"))
  | v => Raise (TypeError ("int() argument must be a string or a number, not '" ++
                           type_name v ++ "'"))
  end.

Definition sample_str_time (t : pytime) : string :=
  zfill 2 (Z.to_N (hour t)) ++ ":" ++ zfill 2 (Z.to_N (minute t)) ++ ":" ++
  zfill 2 (Z.to_N (second t)).

(** A decoder for the replies of the examples: [null], [true], [false], the
    empty array and an integer without sign; every other text is refused. *)
Definition sample_json_loads (s : string) : res json_value :=
  if String.eqb s "null" then Ok (JScalar VNone)
  else if String.eqb s "true" then Ok (JScalar (VBool true))
  else if String.eqb s "false" then Ok (JScalar (VBool false))
  else if String.eqb s "[]" then Ok (JArray [])
  else if forallb is_digit (list_ascii_of_string s) && nonempty s &&
          (negb (String.prefix "0" s) || String.eqb s "0")
  then Ok (JScalar (VInt (Z.of_N (int_of_digits s))))
  else Raise (ValueError "Expecting value").

(** Case-sensitive containment; the decoder of the examples. *)
Definition sample_runtime : Runtime := {|
  title_contains := fun title pattern => contains pattern title;
  exc_text := sample_exc_text;
  validate_category := fun v => match v with VStr s => Some s | _ => None end;
  validate_date := sample_validate_date;
  validate_time := sample_validate_time;
  py_int := sample_int;
  format_priority := fun p => "TaskPriority." ++ priority_value p;
  str_time := sample_str_time;
  json_loads := sample_json_loads
|}.

(** The linear workflow as the specification words it:
    Not Started -> In Progress -> Completed. *)
Definition chain_step (from_state to_state : TaskState) : Prop :=
  (from_state = NOT_STARTED /\ to_state = IN_PROGRESS) \/
  (from_state = IN_PROGRESS /\ to_state = COMPLETED).

Definition sample_task (n : Z) (t : string) (s : TaskState) (owner : Z) : Task :=
  MkTask n t None s MEDIUM None None None None None None owner.

Definition completed_db : Session :=
  MkSession [sample_task 1 "Report" COMPLETED 7]
            [sample_task 1 "Report" COMPLETED 7] 2.

Definition two_user_db : Session :=
  MkSession [sample_task 1 "Report" NOT_STARTED 7; sample_task 2 "Report" NOT_STARTED 8]
            [sample_task 1 "Report" NOT_STARTED 7; sample_task 2 "Report" NOT_STARTED 8] 3.

(** The optional fields that a create descriptor can set. *)
Definition optional_keys : list string :=
  ["description"; "priority"; "category"; "scheduled_date"; "scheduled_time";
   "due_date"; "due_time"; "reminder_time"].

Definition title_only (ttl : string) : descriptor :=
  <["task_title" := VStr ttl]> (<["action" := VStr "create"]> ∅).

Definition empty_db : Session := MkSession [] [] 1.

(* ===================================================================== *)
(** * Predicates used in the proofs                                       *)
(* ===================================================================== *)

(** A text that does not start with white space. *)
Definition no_lead (s : string) : Prop :=
  match s with
  | EmptyString => True
  | String c _ => is_space c = false
  end.

(** A text that does not end with white space. *)
Fixpoint no_trail (s : string) : Prop :=
  match s with
  | EmptyString => True
  | String c EmptyString => is_space c = false
  | String _ r => no_trail r
  end.

(** The characters of a text that [strptime_Ymd] accepts. *)
Definition date_char (c : ascii) : bool :=
  is_digit c || Ascii.eqb c "-" || Ascii.eqb c " ".

Definition is_bracket (c : ascii) : bool := Ascii.eqb c "[" || Ascii.eqb c "]".

(** A four-digit year is rendered and read back as itself. *)
Definition year_roundtrip (y : N) : bool :=
  match list_ascii_of_string (zfill 4 y) with
  | [a; b; c; d] =>
      is_digit a && is_digit b && is_digit c && is_digit d &&
      (int_of_digits (string_of_list_ascii [a; b; c; d]) =? y)%N
  | _ => false
  end.

(** Months and days of a date of the calendar, whatever the year. *)
Definition cal_ok (d : date) : Prop :=
  1 <= month d <= 12 /\ 1 <= day d <= days_in_month (year d) (month d).

(** Values that the normalizer leaves as they are. *)
Definition prio_ok (o : option pyval) : Prop :=
  match o with
  | Some v =>
      if truthy v then
        match priority_map (lower (py_str v)) with
        | Some p => v = VStr p
        | None => True
        end
      else True
  | None => True
  end.

Definition date_ok (today : date) (o : option pyval) : Prop :=
  match o with
  | Some v =>
      exists r, v = VStr r /\ nonempty r = true /\
                normalize_date_field today (VStr r) = Ok (Some r)
  | None => True
  end.

Definition time_ok (o : option pyval) : Prop :=
  match o with
  | Some v =>
      exists r, v = VStr r /\ nonempty r = true /\
                normalize_time_field (VStr r) = Some r
  | None => True
  end.

(** A descriptor on which the normalizer has nothing left to do. *)
Definition normal_form (today : date) (d : descriptor) : Prop :=
  prio_ok (d !! "priority") /\
  date_ok today (d !! "scheduled_date") /\
  date_ok today (d !! "due_date") /\
  date_ok today (d !! "date_filter") /\
  time_ok (d !! "scheduled_time") /\
  time_ok (d !! "due_time").

(** The keys that the normalizer reads. *)
Definition normalized_keys : list string :=
  ["priority"; "scheduled_date"; "due_date"; "date_filter"; "scheduled_time";
   "due_time"].

(** The shape of an ISO date, [YYYY-MM-DD]. *)
Definition iso_date_shape : regex :=
  seqs [Bol; digit; digit; digit; digit; Chr "-"; digit2; Chr "-"; digit2; Eol].

(** A descriptor as an LLM may return it: month and day without padding. *)
Definition unpadded_descriptor : descriptor :=
  <["due_date" := VStr "2026-1-5"]>
    (<["task_title" := VStr "dentist"]> (<["action" := VStr "create"]> ∅)).

Definition relative_descriptor : descriptor :=
  <["due_time" := VStr "Evening"]>
    (<["due_date" := VStr "[Tomorrow]"]> (<["priority" := VStr "high"]> ∅)).

(** The service without an LLM client. *)
Definition pattern_service : AIService := MkService None.

(** The two tasks of the disambiguation example, owned by user 7. *)
Definition presentation_db : Session :=
  MkSession
    [sample_task 1 "Presentation draft" NOT_STARTED 7;
     sample_task 2 "Presentation review" NOT_STARTED 7]
    [sample_task 1 "Presentation draft" NOT_STARTED 7;
     sample_task 2 "Presentation review" NOT_STARTED 7]
    3.

(** What a successful run of the matcher went through: [mrel r st st']
    when [r] can take the matcher from state [st] to state [st']. *)
Inductive mrel : regex -> mstate -> mstate -> Prop :=
| MEps st : mrel Eps st st
| MChr c st xs : rest st = c :: xs -> mrel (Chr c) st (advance st c xs)
| MCls p st x xs :
    rest st = x :: xs -> p x = true -> mrel (Cls p) st (advance st x xs)
| MSeq r1 r2 st st1 st2 :
    mrel r1 st st1 -> mrel r2 st1 st2 -> mrel (Seq r1 r2) st st2
| MAltL r1 r2 st st1 : mrel r1 st st1 -> mrel (Alt r1 r2) st st1
| MAltR r1 r2 st st1 : mrel r2 st st1 -> mrel (Alt r1 r2) st st1
| MStarStop g r st : mrel (Star g r) st st
| MStarRound g r st st1 st2 :
    mrel r st st1 -> mrel (Star g r) st1 st2 -> mrel (Star g r) st st2
| MGroup n r st st1 : mrel r st st1 -> mrel (Group n r) st (set_cap n st st1)
| MBol st : seen st = [] -> mrel Bol st st
| MEol st : mrel Eol st st
| MWordB st : at_word_boundary st = true -> mrel WordB st st.

(** A text of one or two decimal digits. *)
Definition one_or_two_digits (s : string) : Prop :=
  (exists a, s = String a EmptyString /\ is_digit a = true) \/
  (exists a b, s = String a (String b EmptyString) /\
               is_digit a = true /\ is_digit b = true).

(** The clock text of an hour and a minute below 100 is left as it is by
    [normalize_time_field]. *)
Definition clock_fixed (h mi : Z) : bool :=
  let t := zfill 2 (Z.to_N h) ++ ":" ++ zfill 2 (Z.to_N mi) in
  nonempty t &&
  match normalize_time_field (VStr t) with
  | Some r => String.eqb r t
  | None => false
  end.

(** A pattern without capturing groups. *)
Fixpoint no_groups (r : regex) : bool :=
  match r with
  | Seq r1 r2 | Alt r1 r2 => no_groups r1 && no_groups r2
  | Star _ r1 => no_groups r1
  | Group _ _ => false
  | _ => true
  end.

(** A value that the normalizer leaves as it is under the key [k]. *)
Definition key_ok (today : date) (k : string) (o : option pyval) : Prop :=
  (k = "priority" -> prio_ok o) /\
  (In k ["scheduled_date"; "due_date"; "date_filter"] -> date_ok today o) /\
  (In k ["scheduled_time"; "due_time"] -> time_ok o).

Definition all_ok (today : date) (d : descriptor) : Prop :=
  forall k, key_ok today k (d !! k).

(** A client whose service is unavailable. *)
Definition unavailable_client : GeminiClient :=
  MkClient (fun _ _ _ => Raise (ValueError "service unavailable")).

(** A client that replies with the number 15, and one that replies with the
    empty array. *)
Definition scalar_client : GeminiClient := MkClient (fun _ _ _ => Ok "15").

Definition array_client : GeminiClient := MkClient (fun _ _ _ => Ok "[]").

(** The last day of the calendar ([date.max]). *)
Definition last_day : date := Date 9999 12 31.


(* ===================================================================== *)
(** * Sequences of store calls, users, passwords                          *)
(* ===================================================================== *)

(** Position of a state in the workflow. *)
Definition state_rank (s : TaskState) : nat :=
  match s with
  | NOT_STARTED => 0
  | IN_PROGRESS => 1
  | COMPLETED => 2
  end.

(** One call of a [TaskService] method that can write. *)
Inductive store_call : Type :=
| CallCreate (task : TaskCreate) (user : Z)
| CallUpdate (task_id : Z) (task_update : TaskUpdate) (user : Z)
| CallDelete (task_id : Z) (user : Z).

(** The session that a call leaves, whether it returned or raised. *)
Definition run_call (c : store_call) (db : Session) : Session :=
  match c with
  | CallCreate task user => (create_task task user db).1
  | CallUpdate task_id task_update user => (update_task task_id task_update user db).1
  | CallDelete task_id user => (delete_task task_id user db).1
  end.

(** Calls made one after the other on the same session. *)
Definition run_calls (cs : list store_call) (db : Session) : Session :=
  fold_left (fun db c => run_call c db) cs db.

(** [TaskUpdate()]: no field given. *)
Definition empty_update : TaskUpdate :=
  MkTaskUpdate None None None None None None None None None None.

(** [TaskUpdate(title=new_title, state=new_state)] *)
Definition retitle_and_move (new_title : string) (new_state : TaskState) : TaskUpdate :=
  MkTaskUpdate (Some new_title) None (Some new_state) None None None None None None None.

Definition plain_create (ttl : string) : TaskCreate :=
  MkTaskCreate ttl None MEDIUM None None None None None None.

(** Rows that do not belong to [user]. *)
Definition foreign_rows (user : Z) (l : list Task) : list Task :=
  List.filter (fun t => negb (owned_by user t)) l.

(** The failure that asks for the title, per action. *)
Definition title_request (act : string) : string :=
  if String.eqb act "create" then "Please provide a task title."
  else if String.eqb act "update_state" then "Please specify which task to update."
  else "Please specify which task to delete.".

Definition move_descriptor (ttl new_state : string) : descriptor :=
  <["new_state" := VStr new_state]>
    (<["task_title" := VStr ttl]> (<["action" := VStr "update_state"]> ∅)).

Definition delete_descriptor (ttl : string) : descriptor :=
  <["task_title" := VStr ttl]> (<["action" := VStr "delete"]> ∅).

(** One task of user 7 and one of user 8 with different titles. *)
Definition office_db : Session :=
  MkSession [sample_task 1 "Report" NOT_STARTED 7; sample_task 2 "Budget" IN_PROGRESS 8]
            [sample_task 1 "Report" NOT_STARTED 7; sample_task 2 "Budget" IN_PROGRESS 8] 3.

(** The user on whose behalf a store call is made. *)
Definition call_user (c : store_call) : Z :=
  match c with
  | CallCreate _ user => user
  | CallUpdate _ _ user => user
  | CallDelete _ user => user
  end.

(** A store call as the dispatcher makes it: an update carries a state and
    nothing else. *)
Definition dispatcher_call (c : store_call) : Prop :=
  match c with
  | CallUpdate _ upd _ => exists ns, upd = state_update ns
  | _ => True
  end.

(** Every character of a matcher state satisfies [P]: the text on both
    sides of the position and the text of every captured group. *)
Definition state_chars (P : ascii -> Prop) (st : mstate) : Prop :=
  Forall P (seen st) /\ Forall P (rest st) /\
  Forall (fun p => Forall P (list_ascii_of_string p.2)) (caps st).

(** A character that [lower] leaves as it is. *)
Definition lower_case (c : ascii) : Prop := lower_char c = c.

(** What the pattern interpreter returns, per action. *)
Definition interpreter_shape (d : descriptor) : Prop :=
  (d !! "action" = Some (VStr "chat") /\
   exists m, d !! "message" = Some (VStr m) /\
             In m ["greeting"; "help"; "general"; "unclear"]) \/
  (d !! "action" = Some (VStr "create") /\
   exists s, d !! "task_title" = Some (VStr s)) \/
  (d !! "action" = Some (VStr "list") /\
   (d !! "state_filter" = None \/
    exists st, d !! "state_filter" = Some (VStr (state_value st)))) \/
  (d !! "action" = Some (VStr "update_state") /\
   (exists s, d !! "task_title" = Some (VStr s)) /\
   exists ns, ns <> NOT_STARTED /\ d !! "new_state" = Some (VStr (state_value ns))) \/
  (d !! "action" = Some (VStr "delete") /\
   exists s, d !! "task_title" = Some (VStr s)).

(* ===================================================================== *)
(** * Passwords ([app/core/security.py]) and users ([UserService])        *)
(* ===================================================================== *)

#[global] Instance byte_eq_dec : EqDecision Byte.byte := Strings.Byte.byte_eq_dec.

(** Behaviour of the hashing and encoding libraries:
    [s.encode('utf-8')], [hashlib.pbkdf2_hmac('sha256', password, salt,
    100000)], [base64.b64encode(b).decode('ascii')], and
    [base64.b64decode(s.encode('ascii'))], which raises on a text that it
    cannot decode. *)
Class Hashing : Type := {
  encode_utf8 : string -> list Byte.byte;
  pbkdf2_hmac_sha256 : list Byte.byte -> list Byte.byte -> list Byte.byte;
  b64encode : list Byte.byte -> string;
  b64decode : string -> res (list Byte.byte)
}.

(** [get_password_hash]; [salt] is the value of [secrets.token_bytes(32)]. *)
Definition get_password_hash `{Hashing} (salt : list Byte.byte) (password : string)
  : string :=
  let pwd_hash := pbkdf2_hmac_sha256 (encode_utf8 password) salt in
  let combined := (salt ++ pwd_hash)%list in
  b64encode combined.

(** [verify_password]: [combined[:32]] is the salt, [combined[32:]] the
    stored hash; any exception gives [False]. *)
Definition verify_password `{Hashing} (plain_password hashed_password : string)
  : bool :=
  match b64decode hashed_password with
  | Ok combined =>
      let salt := take 32 combined in
      let stored_hash := drop 32 combined in
      let pwd_hash := pbkdf2_hmac_sha256 (encode_utf8 plain_password) salt in
      bool_decide (stored_hash = pwd_hash)
  | Raise _ => false
  end.

(** A row of the [users] table, without the timestamp that the database
    stamps on its own. *)
Record User : Type := MkUser {
  uid : Z;
  username : string;
  hashed_password : string
}.

(** The session with both tables: the tasks as in [Session], the rows of
    [users] and the primary key of the next inserted user. *)
Record Database : Type := MkDatabase {
  task_session : Session;
  users : list User;
  next_uid : Z
}.

(** [UserService.get_user_by_username] *)
Definition get_user_by_username (name : string) (db : Database) : option User :=
  List.find (fun u => String.eqb (username u) name) (users db).

(** [UserService.get_user_by_id] *)
Definition get_user_by_id (user_id : Z) (db : Database) : option User :=
  List.find (fun u => uid u =? user_id) (users db).

(** [UserService.create_user]; a [User] object is true, so the test is
    whether a row was found.  [commit()] is the session's: it stores the
    pending task rows as well. *)
Definition create_user `{Hashing} (salt : list Byte.byte) (name password : string)
  (db : Database) : Database * res User :=
  match get_user_by_username name db with
  | Some _ => (db, Raise (HTTPException 400 "Username already registered"))
  | None =>
      let db_user := MkUser (next_uid db) name (get_password_hash salt password) in
      (MkDatabase (commit (task_session db)) (py_append (users db) db_user)
         (next_uid db + 1),
       Ok db_user)
  end.

(** The [users] table as the schema constrains it: unique names, unique
    keys below the next key. *)
Definition users_wf (db : Database) : Prop :=
  NoDup (username <$> users db) /\ NoDup (uid <$> users db) /\
  Forall (fun u => uid u < next_uid db) (users db).

(** An encoding with the round-trip law and a keyed digest, used to run the
    code on examples. *)
Definition sample_hashing : Hashing := {|
  encode_utf8 := list_byte_of_string;
  pbkdf2_hmac_sha256 := fun password salt => (salt ++ rev password)%list;
  b64encode := string_of_list_byte;
  b64decode := fun s => Ok (list_byte_of_string s)
|}.

Definition sample_salt : list Byte.byte := replicate 32 Byte.x2a.

Definition one_user_db : Database :=
  MkDatabase two_user_db [MkUser 7 "ann" "x"] 8.

(* ===================================================================== *)
(** * The reference of the transitions ([get_state_transitions])          *)
(* ===================================================================== *)

(** [for state in TaskState]: the members in the order of their
    definition. *)
Definition TaskState_members : list TaskState := [NOT_STARTED; IN_PROGRESS; COMPLETED].

(** The object that the route returns. *)
Record transitions_reference : Type := MkReference {
  ref_states : list string;
  ref_transitions : gmap string (list string);
  ref_rules : list string
}.

(** [get_state_transitions] of [app/api/tasks.py] *)
Definition get_state_transitions : transitions_reference :=
  let transitions :=
    foldl (fun (m : gmap string (list string)) st =>
             <[state_value st := state_value <$> get_valid_transitions st]> m)
          ∅ TaskState_members in
  MkReference (state_value <$> TaskState_members) transitions
    ["Tasks start in 'Not Started'";
     "'Not Started' can only transition to 'In Progress'";
     "'In Progress' can only transition to 'Completed'";
     "'Completed' is final - no further transitions allowed"].

(** The due date that the scheduling branch reads off the command. *)
Definition schedule_due (today : date) (command_lower : string) : res (option date) :=
  if contains "today" command_lower then Ok (Some today)
  else if contains "tomorrow" command_lower
       then t ← date_plus today 1; Ok (Some t)
  else Ok None.

(** The state filter that the listing branch reads off the command. *)
Definition list_state_filter (command_lower : string) : option TaskState :=
  if contains "completed" command_lower then Some COMPLETED
  else if contains "progress" command_lower then Some IN_PROGRESS
  else if contains "pending" command_lower || contains "not started" command_lower
       then Some NOT_STARTED
  else None.

(** The key of the next inserted row is the database's choice: the value of
    a counter that is never lowered, or (SQLite's INTEGER PRIMARY KEY) one
    more than the largest key in the table, which gives the key of a
    deleted last row to the next row.  Either way the key is above every
    key in use. *)
Definition fresh_key (k : Z) (db : Session) : Prop :=
  Forall (fun t => id t < k) (objects db).

(** Calls made one after the other on the same session, the database
    choosing the key of the next row before each call. *)
Inductive runs_to : list store_call -> Session -> Session -> Prop :=
| runs_nil db : runs_to [] db db
| runs_cons c cs k db db' :
    fresh_key k db ->
    runs_to cs (run_call c (MkSession (stored db) (objects db) k)) db' ->
    runs_to (c :: cs) db db'.

Definition is_delete (c : store_call) : bool :=
  match c with
  | CallDelete _ _ => true
  | _ => false
  end.

(** A value that a 64-bit integer column of the store can hold. *)
Definition int64 (z : Z) : Prop := - 2 ^ 63 <= z < 2 ^ 63.

(** Every reminder that a row of the session carries fits the column. *)
Definition reminders_fit (db : Session) : Prop :=
  Forall (fun t => forall n, reminder_time t = Some n -> int64 n) (objects db).

(* ===================================================================== *)
(** * The task store                                                      *)
(* ===================================================================== *)

Section Store.

Implicit Types (db : Session) (t : Task) (l : list Task).

Lemma get_task_Some task_id user db t :
  get_task task_id user db = Some t ->
  In t (objects db) /\ id t = task_id /\ user_id t = user.
Proof.
  unfold get_task. intros Hf. apply find_some in Hf as [Hin Hp].
  unfold id_and_owner in Hp. apply andb_prop in Hp as [H1 H2].
  split; [done|]. split; lia.
Qed.

Lemma NoDup_ids_inj l t1 t2 :
  NoDup (id <$> l) -> In t1 l -> In t2 l -> id t1 = id t2 -> t1 = t2.
Proof.
  induction l as [|x l IH]; simpl; [done|].
  rewrite NoDup_cons. intros [Hx Hnd] [->|H1] [->|H2] Heq; try done.
  - exfalso. apply Hx. rewrite Heq. apply list_elem_of_In, in_map, H2.
  - exfalso. apply Hx. rewrite <- Heq. apply list_elem_of_In, in_map, H1.
  - by apply IH.
Qed.

(** A row of another user is never what [get_task] finds. *)
Lemma get_task_foreign db t user :
  session_wf db -> In t (objects db) -> user_id t <> user ->
  get_task (id t) user db = None.
Proof.
  intros [Hnd _] Hin Hne.
  destruct (get_task (id t) user db) as [t'|] eqn:Hg; [|done].
  apply get_task_Some in Hg as (Hin' & Hid & Hu).
  assert (t' = t) by (eapply NoDup_ids_inj; eauto). congruence.
Qed.

Lemma find_update_first (p : Task -> bool) (f : Task -> Task) l :
  (forall t, p t = true -> p (f t) = true) ->
  List.find p (update_first p f l) = f <$> List.find p l.
Proof.
  intros Hp. induction l as [|x l IH]; simpl; [done|].
  destruct (p x) eqn:Hx; simpl.
  - by rewrite (Hp _ Hx).
  - by rewrite Hx.
Qed.

Lemma map_update_first {B : Type} (g : Task -> B) (p : Task -> bool)
  (f : Task -> Task) l :
  (forall t, g (f t) = g t) -> map g (update_first p f l) = map g l.
Proof.
  intros Hg. induction l as [|x l IH]; simpl; [done|].
  destruct (p x); simpl; [by rewrite Hg | by rewrite IH].
Qed.

Lemma update_first_same (p : Task -> bool) (f : Task -> Task) l :
  (forall t, f t = t) -> update_first p f l = l.
Proof.
  intros Hf. induction l as [|x l IH]; simpl; [done|].
  destruct (p x); [by rewrite Hf|by rewrite IH].
Qed.

Lemma assign_basic_fields_state_only ns t :
  assign_basic_fields (state_update ns) t = t.
Proof. by destruct t. Qed.

Lemma is_valid_transition_chain s s' :
  is_valid_transition s s' = true <-> chain_step s s'.
Proof.
  unfold chain_step. destruct s, s'; vm_compute; split; intros H;
    try done; try (by left); try (by right);
    destruct H as [[? ?]|[? ?]]; discriminate.
Qed.

(** A request that carries only a state outside the chain: the error and
    the untouched session. *)
Lemma update_task_rejects db task_id user t ns :
  get_task task_id user db = Some t ->
  ~ chain_step (state t) ns ->
  (update_task task_id (state_update ns) user db).1 = db /\
  (update_task task_id (state_update ns) user db).2
  = Raise (HTTPException 400 (invalid_transition_detail (state t) ns)).
Proof.
  intros Hg Hbad. unfold update_task. rewrite Hg. simpl.
  unfold validate_state_transition.
  destruct (is_valid_transition (state t) ns) eqn:Hv.
  { apply is_valid_transition_chain in Hv. contradiction. }
  simpl. split; [|done].
  rewrite update_first_same by apply assign_basic_fields_state_only.
  by destruct db.
Qed.

End Store.

(** C1.  For every task of the calling user and every state requested
    through [update_task], the request is accepted exactly when it is a
    step of the chain Not Started -> In Progress -> Completed (so nothing
    leaves Completed, nothing is skipped, nothing goes back and no state
    is re-entered).  An accepted request stores the new state; any other
    request raises the 400 "Invalid state transition" error, leaves the
    committed rows as they were and changes the state of no row; when the
    request carries nothing but the state, the session is left exactly as
    it was. *)
Theorem update_task_follows_chain :
  forall (db : Session) (task_id user : Z) (t : Task) (upd : TaskUpdate)
         (new_state : TaskState),
    get_task task_id user db = Some t ->
    tu_state upd = Some new_state ->
    let out := update_task task_id upd user db in
    ((exists t', out.2 = Ok t') <-> chain_step (state t) new_state) /\
    (chain_step (state t) new_state ->
       exists t', out.2 = Ok t' /\ state t' = new_state /\
                  get_task task_id user out.1 = Some t' /\
                  stored out.1 = objects out.1) /\
    (~ chain_step (state t) new_state ->
       out.2 = Raise (HTTPException 400
                        (invalid_transition_detail (state t) new_state)) /\
       stored out.1 = stored db /\
       map state (objects out.1) = map state (objects db) /\
       state <$> get_task task_id user out.1 = Some (state t) /\
       (upd = state_update new_state -> out.1 = db)).
Proof.
  intros db task_id user t upd new_state Hget Hst out.
  assert (Hpres : forall f : Task -> Task,
             (forall x, id (f x) = id x /\ user_id (f x) = user_id x) ->
             forall x, id_and_owner task_id user x = true ->
                       id_and_owner task_id user (f x) = true).
  { intros f Hf x. unfold id_and_owner. destruct (Hf x) as [-> ->]. done. }
  subst out. unfold update_task. rewrite Hget, Hst.
  unfold validate_state_transition.
  destruct (is_valid_transition (state t) new_state) eqn:Hv; simpl.
  - apply is_valid_transition_chain in Hv.
    assert (Hfind : get_task task_id user
              (commit (MkSession (stored db)
                 (update_first (id_and_owner task_id user)
                    (fun t0 => assign_state new_state (assign_basic_fields upd t0))
                    (objects db)) (next_id db)))
              = Some (assign_state new_state (assign_basic_fields upd t))).
    { unfold get_task, commit; simpl. rewrite find_update_first.
      - unfold get_task in Hget. by rewrite Hget.
      - apply Hpres. intros x. done. }
    split; [split; eauto|]. split; [|done].
    intros _. eexists. split; [done|]. split; [done|]. split; [exact Hfind|done].
  - assert (Hn : ~ chain_step (state t) new_state).
    { intros Hc. apply is_valid_transition_chain in Hc. congruence. }
    split; [split; [intros [t' Ht']; discriminate | done]|].
    split; [done|]. intros _.
    split; [done|]. split; [done|]. split; [|split].
    + apply map_update_first. done.
    + unfold get_task; simpl. rewrite find_update_first.
      * unfold get_task in Hget. by rewrite Hget.
      * apply Hpres. intros x. done.
    + intros ->. rewrite update_first_same
        by apply assign_basic_fields_state_only.
      by destruct db.
Qed.

(** Witness for C1: a completed task asked to go back to In Progress. *)
Lemma update_task_follows_chain_witness :
  (update_task 1 (state_update IN_PROGRESS) 7 completed_db).2 =
    Raise (HTTPException 400
      "Invalid state transition from 'Completed' to 'In Progress'. Allowed transitions: []") /\
  (update_task 1 (state_update IN_PROGRESS) 7 completed_db).1 = completed_db.
Proof.
  destruct (update_task_follows_chain completed_db 1 7
              (sample_task 1 "Report" COMPLETED 7)
              (state_update IN_PROGRESS) IN_PROGRESS eq_refl eq_refl)
    as (_ & _ & Hbad).
  destruct Hbad as (Hr & _ & _ & _ & Hsame).
  { intros [[? ?]|[? ?]]; discriminate. }
  split; [exact Hr | exact (Hsame eq_refl)].
Defined.

Section Ownership.

Context `{Runtime}.

Lemma search_owned pattern user db t :
  In t (search_tasks_by_title pattern user db) ->
  In t (objects db) /\ user_id t = user.
Proof.
  unfold search_tasks_by_title. rewrite filter_In. intros [Hin Hp].
  apply andb_prop in Hp as [Ho _]. unfold owned_by in Ho. split; [done|lia].
Qed.

Lemma get_tasks_owned user state_filter db t :
  In t (get_tasks user state_filter db) ->
  In t (objects db) /\ user_id t = user.
Proof.
  unfold get_tasks. intros Hin.
  assert (Hq : In t (List.filter (owned_by user) (objects db))).
  { destruct state_filter as [st|]; [|done].
    destruct (nonempty (state_value st)); [|done].
    apply filter_In in Hin as [? _]. done. }
  apply filter_In in Hq as [? Ho]. unfold owned_by in Ho. split; [done|lia].
Qed.

End Ownership.



(* ===================================================================== *)
(** * The dispatcher                                                      *)
(* ===================================================================== *)

Section Dispatch.

Context `{Runtime}.

Lemma present_None key (d : descriptor) : d !! key = None -> present key d = None.
Proof. unfold present. by intros ->. Qed.

Lemma create_task_spec task user db :
  state (create_task task user db).2 = NOT_STARTED /\
  user_id (create_task task user db).2 = user /\
  objects (create_task task user db).1 = (objects db ++ [(create_task task user db).2])%list /\
  stored (create_task task user db).1 = objects (create_task task user db).1.
Proof. done. Qed.

(** What the create branch can do to the session: nothing, or one more row
    in state Not Started owned by the caller. *)
Lemma create_branch_effect (d : descriptor) user db :
  eq_str (default VNone (d !! "action")) "create" = true ->
  (execute_action d user db).1 = db \/
  exists t, objects (execute_action d user db).1 = (objects db ++ [t])%list /\
            state t = NOT_STARTED /\ user_id t = user.
Proof.
  intros Ha. unfold execute_action, execute_body.
  destruct (default VNone (d !! "action")) as [| | |a|]; try discriminate.
  simpl in Ha. apply String.eqb_eq in Ha as ->. simpl.
  destruct (get_stripped "task_title" d) as [ttl|e]; [|by left].
  destruct (negb (nonempty ttl)); [by left|].
  destruct (collect_create_data ttl d) as [cd|e]; [|by left].
  destruct (make_TaskCreate cd) as [tc|e]; [|by left].
  right. eexists. split; [reflexivity|]. done.
Qed.

End Dispatch.

(** C4.  Every task that [create_task] makes is in state Not Started: a
    [TaskCreate] has no state field, and whatever keys a create descriptor
    carries (a state among them), the dispatch either leaves the session as
    it is or adds one row in state Not Started.  A create descriptor whose
    only task field is the title makes a task with that title (trimmed),
    the default priority, and every optional field unset. *)
Theorem created_task_is_not_started :
  forall (R : Runtime),
    (forall task user db, state (create_task task user db).2 = NOT_STARTED) /\
    (forall (d : descriptor) user db,
        eq_str (default VNone (d !! "action")) "create" = true ->
        (execute_action d user db).1 = db \/
        exists t, objects (execute_action d user db).1 = (objects db ++ [t])%list /\
                  state t = NOT_STARTED) /\
    (forall (d : descriptor) user db ttl,
        d !! "action" = Some (VStr "create") ->
        d !! "task_title" = Some (VStr ttl) ->
        nonempty (strip ttl) = true ->
        Forall (fun k => d !! k = None) optional_keys ->
        let t := MkTask (next_id db) (strip ttl) None NOT_STARTED MEDIUM
                        None None None None None None user in
        objects (execute_action d user db).1 = (objects db ++ [t])%list /\
        stored (execute_action d user db).1 = (objects db ++ [t])%list /\
        success (execute_action d user db).2 = true /\
        task_id (execute_action d user db).2 = Some (next_id db)).
Proof.
  intros R. split; [done|]. split.
  - intros d user db Ha.
    destruct (create_branch_effect d user db Ha) as [?|(t & ? & ? & ?)]; eauto.
  - intros d user db ttl Ha Ht Hne Hopt t.
    unfold optional_keys in Hopt.
    repeat match goal with
           | Hf : Forall _ (_ :: _) |- _ =>
               apply Forall_cons in Hf as [? Hf]
           end.
    unfold execute_action, execute_body, get_stripped, collect_create_data,
      make_TaskCreate.
    rewrite Ha, Ht. simpl. rewrite Hne. simpl.
    rewrite !present_None by done. simpl. unfold py_append. subst t.
    repeat split.
Qed.

(** Witness for C4: the descriptor of "buy milk" in an empty session. *)
Lemma created_task_is_not_started_witness :
  objects (execute_action (H := sample_runtime)
             (<["state" := VStr "Completed"]> (title_only " buy milk ")) 7 empty_db).1
  = [MkTask 1 "buy milk" None NOT_STARTED MEDIUM None None None None None None 7].
Proof.
  destruct (created_task_is_not_started sample_runtime) as (_ & _ & Hc).
  refine (proj1 (Hc (<["state" := VStr "Completed"]> (title_only " buy milk "))
                    7 empty_db " buy milk " _ _ _ _)).
  - reflexivity.
  - reflexivity.
  - reflexivity.
  - unfold optional_keys. repeat constructor.
Defined.

(** C9.  A list descriptor is dispatched on [state_filter] and the user id
    alone: two descriptors that agree on every key but [date_filter] and
    [category_filter] get the same response and leave the same session. *)
Theorem list_ignores_date_and_category_filters :
  forall (R : Runtime) (d1 d2 : descriptor) (user : Z) (db : Session),
    eq_str (default VNone (d1 !! "action")) "list" = true ->
    (forall k, k <> "date_filter" -> k <> "category_filter" -> d1 !! k = d2 !! k) ->
    execute_action d1 user db = execute_action d2 user db.
Proof.
  intros R d1 d2 user db Ha Hagree.
  unfold execute_action, execute_body.
  rewrite <- (Hagree "action") by done.
  rewrite <- (Hagree "state_filter") by done.
  destruct (default VNone (d1 !! "action")) as [| | |a|]; try discriminate.
  simpl in Ha. apply String.eqb_eq in Ha as ->. done.
Qed.

(** Witness for C9: two listings that differ in both filters. *)
Lemma list_ignores_date_and_category_filters_witness :
  execute_action (H := sample_runtime)
    (<["date_filter" := VStr "2026-11-04"]> (<["action" := VStr "list"]> ∅))
    7 two_user_db
  = execute_action (H := sample_runtime)
    (<["category_filter" := VStr "Work"]> (<["action" := VStr "list"]> ∅))
    7 two_user_db.
Proof.
  apply (list_ignores_date_and_category_filters sample_runtime).
  - reflexivity.
  - intros k H1 H2.
    rewrite (lookup_insert_ne _ "date_filter") by congruence.
    rewrite (lookup_insert_ne _ "category_filter") by congruence. done.
Defined.

(** C10.  A descriptor whose action is ["update_task"] reaches no store
    operation: the response is the failed "couldn't understand" one and the
    session is returned as it was. *)
Theorem update_task_action_is_not_dispatched :
  forall (R : Runtime) (d : descriptor) (user : Z) (db : Session),
    d !! "action" = Some (VStr "update_task") ->
    execute_action d user db = (db, failure not_understood_message).
Proof.
  intros R d user db Ha. unfold execute_action, execute_body. rewrite Ha. done.
Qed.

(** Witness for C10: a retitling request. *)
Lemma update_task_action_is_not_dispatched_witness :
  execute_action (H := sample_runtime)
    (<["new_title" := VStr "Final report"]>
       (<["task_title" := VStr "Report"]> (<["action" := VStr "update_task"]> ∅)))
    7 two_user_db
  = (two_user_db,
     MkResponse false
       "I couldn't understand what you want to do. Try commands like 'create task', 'start task', 'complete task', or 'show tasks'."
       None None None).
Proof.
  apply (update_task_action_is_not_dispatched sample_runtime). reflexivity.
Defined.

(* ===================================================================== *)
(** * Text primitives                                                     *)
(* ===================================================================== *)

Section Text.

Implicit Types (s : string) (c : ascii).

Ltac all_chars c := destruct c as [[] [] [] [] [] [] [] []]; reflexivity.

Lemma lower_char_idem c : lower_char (lower_char c) = lower_char c.
Proof. all_chars c. Qed.

Lemma is_space_lower_char c : is_space (lower_char c) = is_space c.
Proof. all_chars c. Qed.

Lemma lower_idem s : lower (lower s) = lower s.
Proof. induction s as [|c s IH]; simpl; [done|]. by rewrite lower_char_idem, IH. Qed.

Lemma lower_lstrip s : lower (lstrip s) = lstrip (lower s).
Proof.
  induction s as [|c s IH]; simpl; [done|].
  rewrite is_space_lower_char. by destruct (is_space c).
Qed.

Lemma lower_empty s : lower s = EmptyString <-> s = EmptyString.
Proof. destruct s; simpl; split; intros; done. Qed.

Lemma lower_rstrip s : lower (rstrip s) = rstrip (lower s).
Proof.
  induction s as [|c s IH]; simpl; [done|].
  rewrite <- IH, is_space_lower_char.
  destruct (rstrip s) as [|c' r'] eqn:Hr; simpl; [|done].
  by destruct (is_space c).
Qed.

Lemma lower_strip s : lower (strip s) = strip (lower s).
Proof. unfold strip. by rewrite lower_rstrip, lower_lstrip. Qed.

Lemma lstrip_no_lead s : no_lead (lstrip s).
Proof.
  induction s as [|c s IH]; simpl; [done|].
  destruct (is_space c) eqn:Hc; [done|]. simpl. done.
Qed.

Lemma lstrip_fixed s : no_lead s -> lstrip s = s.
Proof. destruct s as [|c s]; simpl; [done|]. by intros ->. Qed.

Lemma rstrip_fixed s : no_trail s -> rstrip s = s.
Proof.
  induction s as [|c s IH]; simpl; [done|].
  destruct s as [|c' s']; [simpl; by intros ->|].
  intros Hn. rewrite (IH Hn). done.
Qed.

Lemma rstrip_no_trail s : no_trail (rstrip s).
Proof.
  induction s as [|c s IH]; simpl; [done|].
  destruct (rstrip s) as [|c' r'] eqn:Hr.
  - destruct (is_space c) eqn:Hc; simpl; done.
  - exact IH.
Qed.

Lemma rstrip_no_lead s : no_lead s -> no_lead (rstrip s).
Proof.
  destruct s as [|c s]; simpl; [done|]. intros Hc.
  destruct (rstrip s); [by rewrite Hc|]; done.
Qed.

Lemma strip_fixed s : no_lead s -> no_trail s -> strip s = s.
Proof. intros H1 H2. unfold strip. rewrite (lstrip_fixed _ H1). by apply rstrip_fixed. Qed.

Lemma strip_idem s : strip (strip s) = strip s.
Proof.
  apply strip_fixed.
  - apply rstrip_no_lead, lstrip_no_lead.
  - apply rstrip_no_trail.
Qed.

(** The text that both normalizing helpers work on is left as it is by
    the same preparation. *)
Lemma strip_lower_idem s : strip (lower (strip (lower s))) = strip (lower s).
Proof. by rewrite lower_strip, lower_idem, strip_idem. Qed.

Lemma list_ascii_app s1 s2 :
  list_ascii_of_string (s1 ++ s2) =
  (list_ascii_of_string s1 ++ list_ascii_of_string s2)%list.
Proof. induction s1 as [|c s1 IH]; simpl; [done|]. by rewrite IH. Qed.

Lemma prefix_cons_In c needle s :
  String.prefix (String c needle) s = true -> In c (list_ascii_of_string s).
Proof.
  destruct s as [|c' s]; simpl; [done|].
  destruct (ascii_dec c c') as [->|]; [by left|done].
Qed.

(** A text that contains a non-empty needle contains its first character. *)
Lemma contains_In c needle s :
  contains (String c needle) s = true -> In c (list_ascii_of_string s).
Proof.
  induction s as [|c' s IH].
  - simpl. done.
  - intros Hc. change (contains (String c needle) (String c' s))
      with (String.prefix (String c needle) (String c' s) || contains (String c needle) s)
      in Hc.
    apply orb_prop in Hc as [Hp|Hc].
    + by apply prefix_cons_In in Hp.
    + right. by apply IH.
Qed.

End Text.

(* ===================================================================== *)
(** * Dates and their text                                                *)
(* ===================================================================== *)

Section Dates.

Implicit Types (s : string) (cs : list ascii) (dt : date).

Ltac by_chars c := destruct c as [[] [] [] [] [] [] [] []]; try done.

Lemma date_char_not_space_digit c : is_digit c = true -> is_space c = false.
Proof. by_chars c. Qed.

Lemma date_char_lower c : date_char c = true -> lower_char c = c.
Proof. by_chars c. Qed.

Lemma date_char_not_bracket c : date_char c = true -> is_bracket c = false.
Proof. by_chars c. Qed.

Lemma digit_is_date_char c : is_digit c = true -> date_char c = true.
Proof. unfold date_char. by intros ->. Qed.

Lemma in_range_digit lo hi c :
  (48 <= lo)%N -> (hi <= 57)%N -> in_range lo hi c = true -> is_digit c = true.
Proof.
  unfold is_digit, in_range. intros Hlo Hhi Hr.
  apply andb_prop in Hr as [H1 H2].
  apply andb_true_intro. split; apply N.leb_le; apply N.leb_le in H1, H2; lia.
Qed.

(** ** [re.sub] of the brackets is a filter *)

Lemma sub_loop_bracket fuel before after :
  (length after < fuel)%nat ->
  sub_loop fuel bracket before after = List.filter (fun c => negb (is_bracket c)) after.
Proof.
  revert before after. induction fuel as [|fuel IH]; intros before after Hl; [lia|].
  destruct after as [|c after]; [done|].
  simpl in Hl. simpl.
  unfold match_here, bracket. simpl.
  change (Ascii.eqb c "[" || Ascii.eqb c "]") with (is_bracket c).
  destruct (is_bracket c) eqn:Hc; simpl.
  - replace (S (length before) - length before)%nat with 1%nat by lia.
    apply IH. lia.
  - f_equal. apply IH. lia.
Qed.

Lemma filter_all {A : Type} (p : A -> bool) (l : list A) :
  Forall (fun x => p x = true) l -> List.filter p l = l.
Proof.
  induction 1 as [|x l Hx _ IH]; simpl; [done|]. by rewrite Hx, IH.
Qed.

Lemma re_sub_bracket_fixed s :
  Forall (fun c => date_char c = true) (list_ascii_of_string s) ->
  re_sub_empty bracket s = s.
Proof.
  intros Hs. unfold re_sub_empty. rewrite sub_loop_bracket by lia.
  rewrite filter_all.
  - apply string_of_list_ascii_of_string.
  - eapply Forall_impl; [exact Hs|]. simpl. intros c Hc.
    by rewrite date_char_not_bracket.
Qed.

Lemma lower_fixed s :
  Forall (fun c => date_char c = true) (list_ascii_of_string s) -> lower s = s.
Proof.
  induction s as [|c s IH]; simpl; [done|].
  intros Hf. apply Forall_cons in Hf as [Hc Hf].
  by rewrite (date_char_lower _ Hc), IH.
Qed.

(** ** What [strptime_Ymd] accepts *)

Lemma parse_Y_inv cs y r :
  parse_Y cs = Some (y, r) ->
  exists a b c d, cs = a :: b :: c :: d :: r /\
    is_digit a = true /\ is_digit b = true /\ is_digit c = true /\ is_digit d = true.
Proof.
  destruct cs as [|a [|b [|c [|d r']]]]; simpl; try done.
  destruct (is_digit a) eqn:Ha, (is_digit b) eqn:Hb, (is_digit c) eqn:Hc,
    (is_digit d) eqn:Hd; simpl; try done.
  intros [= _ <-]. by exists a, b, c, d.
Qed.

Lemma expect_inv c cs r : expect c cs = Some r -> cs = c :: r.
Proof.
  destruct cs as [|x cs]; simpl; [done|].
  destruct (Ascii.eqb x c) eqn:Hx; [|done].
  apply Ascii.eqb_eq in Hx as ->. by intros [= ->].
Qed.

Lemma parse_m_inv cs m r :
  parse_m cs = Some (m, r) ->
  (exists a, cs = a :: r /\ is_digit a = true) \/
  (exists a b, cs = a :: b :: r /\ is_digit a = true /\ is_digit b = true).
Proof.
  destruct cs as [|a [|b r']]; simpl; [done| |].
  - destruct (in_range 49 57 a) eqn:Ha; [|done]. intros [= _ <-].
    left. exists a. split; [done|]. eapply in_range_digit; [| |exact Ha]; lia.
  - destruct (Ascii.eqb a "1" && in_range 48 50 b) eqn:H1.
    { intros [= _ <-]. right. exists a, b. apply andb_prop in H1 as [Ha Hb].
      apply Ascii.eqb_eq in Ha as ->. split; [done|]. split; [done|].
      eapply in_range_digit; [| |exact Hb]; lia. }
    destruct (Ascii.eqb a "0" && in_range 49 57 b) eqn:H2.
    { intros [= _ <-]. right. exists a, b. apply andb_prop in H2 as [Ha Hb].
      apply Ascii.eqb_eq in Ha as ->. split; [done|]. split; [done|].
      eapply in_range_digit; [| |exact Hb]; lia. }
    destruct (in_range 49 57 a) eqn:Ha; [|done]. intros [= _ <-].
    left. exists a. split; [done|]. eapply in_range_digit; [| |exact Ha]; lia.
Qed.

Lemma parse_d_inv cs n r :
  parse_d cs = Some (n, r) ->
  (exists a, cs = a :: r /\ is_digit a = true) \/
  (exists a b, cs = a :: b :: r /\ date_char a = true /\ is_space a = false /\
               is_digit b = true) \/
  (exists b, cs = " "%char :: b :: r /\ is_digit b = true).
Proof.
  assert (Hd : forall lo hi c, (48 <= lo)%N -> (hi <= 57)%N ->
                 in_range lo hi c = true -> is_digit c = true)
    by exact in_range_digit.
  destruct cs as [|a [|b r']]; simpl; [done| |].
  - destruct (in_range 49 57 a) eqn:Ha; [|done]. intros [= _ <-].
    left. exists a. split; [done|]. eapply Hd; [| |exact Ha]; lia.
  - destruct (Ascii.eqb a "3" && in_range 48 49 b) eqn:H1.
    { intros [= _ <-]. right; left. exists a, b. apply andb_prop in H1 as [Ha Hb].
      apply Ascii.eqb_eq in Ha as ->. split; [done|]. split; [done|]. split; [done|].
      eapply Hd; [| |exact Hb]; lia. }
    destruct (in_range 49 50 a && is_digit b) eqn:H2.
    { intros [= _ <-]. right; left. exists a, b. apply andb_prop in H2 as [Ha Hb].
      assert (is_digit a = true) by (eapply Hd; [| |exact Ha]; lia).
      split; [done|]. split; [by apply digit_is_date_char|].
      split; [by apply date_char_not_space_digit|done]. }
    destruct (Ascii.eqb a "0" && in_range 49 57 b) eqn:H3.
    { intros [= _ <-]. right; left. exists a, b. apply andb_prop in H3 as [Ha Hb].
      apply Ascii.eqb_eq in Ha as ->. split; [done|]. split; [done|]. split; [done|].
      eapply Hd; [| |exact Hb]; lia. }
    destruct (in_range 49 57 a) eqn:Ha.
    { intros [= _ <-]. left. exists a. split; [done|]. eapply Hd; [| |exact Ha]; lia. }
    destruct (Ascii.eqb a " " && in_range 49 57 b) eqn:H5; [|done].
    intros [= _ <-]. right; right. exists b. apply andb_prop in H5 as [Ha' Hb].
    apply Ascii.eqb_eq in Ha' as ->. split; [done|].
    eapply Hd; [| |exact Hb]; lia.
Qed.

Lemma strptime_text s dt :
  strptime_Ymd s = Some dt ->
  Forall (fun c => date_char c = true) (list_ascii_of_string s) /\
  no_lead s /\ no_trail s /\ nonempty s = true.
Proof.
  unfold strptime_Ymd. intros Hp.
  destruct (parse_Y (list_ascii_of_string s)) as [[y r1]|] eqn:HY; [|done].
  simpl in Hp.
  destruct (expect "-" r1) as [r2|] eqn:H1; [|done]. simpl in Hp.
  destruct (parse_m r2) as [[m r3]|] eqn:HM; [|done]. simpl in Hp.
  destruct (expect "-" r3) as [r4|] eqn:H2; [|done]. simpl in Hp.
  destruct (parse_d r4) as [[n r5]|] eqn:HD; [|done]. simpl in Hp.
  destruct r5; [|done]. clear Hp.
  apply parse_Y_inv in HY as (a & b & c & d & Hcs & Ha & Hb & Hc & Hd).
  apply expect_inv in H1, H2. subst r1 r3.
  assert (Hs : s = string_of_list_ascii (list_ascii_of_string s))
    by (symmetry; apply string_of_list_ascii_of_string).
  pose proof digit_is_date_char as Hdc.
  pose proof date_char_not_space_digit as Hns.
  apply parse_m_inv in HM as [(m1 & -> & Hm1)|(m1 & m2 & -> & Hm1 & Hm2)];
    apply parse_d_inv in HD
      as [(d1 & -> & Hd1)|[(d1 & d2 & -> & Hd1 & Hd1' & Hd2)|(d2 & -> & Hd2)]];
    rewrite Hcs in Hs |- *; rewrite Hs; simpl;
    (split; [repeat constructor; auto|]);
    (split; [auto|]); (split; [auto|done]).
Qed.

Lemma mem_str_In s (l : list string) : mem_str s l = true -> In s l.
Proof.
  unfold mem_str. rewrite existsb_exists. intros (x & Hin & Hx).
  apply String.eqb_eq in Hx as ->. done.
Qed.

Lemma not_mem_str s (l : list string) :
  Forall (fun x => strptime_Ymd x = None) l ->
  is_Some (strptime_Ymd s) -> mem_str s l = false.
Proof.
  intros Hl [dt Hs]. destruct (mem_str s l) eqn:Hm; [|done].
  apply mem_str_In in Hm. rewrite Forall_forall in Hl.
  apply list_elem_of_In in Hm. specialize (Hl _ Hm). congruence.
Qed.

Lemma not_contains_letter c needle s :
  date_char c = false ->
  Forall (fun x => date_char x = true) (list_ascii_of_string s) ->
  contains (String c needle) s = false.
Proof.
  intros Hc Hs. destruct (contains (String c needle) s) eqn:Hn; [|done].
  apply contains_In in Hn. rewrite Forall_forall in Hs.
  apply list_elem_of_In in Hn. specialize (Hs _ Hn). simpl in Hs. congruence.
Qed.

(** A text that [strptime_Ymd] accepts goes through [normalize_date_field]
    unchanged. *)
Lemma normalize_date_text today s dt :
  strptime_Ymd s = Some dt ->
  normalize_date_field today (VStr s) = Ok (Some s).
Proof.
  intros Hp. pose proof (strptime_text s dt Hp) as (Hch & Hl & Ht & Hne).
  unfold normalize_date_field. simpl truthy. rewrite Hne. simpl negb. cbv iota.
  simpl py_str. rewrite (lower_fixed s Hch), (strip_fixed s Hl Ht).
  rewrite (re_sub_bracket_fixed s Hch).
  rewrite !not_mem_str; try (by eexists); try (repeat constructor).
  rewrite !not_contains_letter by done.
  by rewrite Hp.
Qed.

(** ** The ISO text of a date is accepted and read back *)

Lemma year_roundtrip_table :
  forallb (fun z => year_roundtrip (Z.to_N z)) (seqZ 1 9999) = true.
Proof. vm_compute. reflexivity. Qed.

Lemma year_roundtrip_ok (y : N) : (1 <= y <= 9999)%N -> year_roundtrip y = true.
Proof.
  intros Hy. pose proof year_roundtrip_table as Ht.
  rewrite forallb_forall in Ht. rewrite <- (N2Z.id y). apply Ht.
  apply list_elem_of_In, elem_of_seqZ. lia.
Qed.

Lemma parse_Y_zfill (y : N) cs :
  (1 <= y <= 9999)%N ->
  parse_Y (list_ascii_of_string (zfill 4 y) ++ cs)%list = Some (y, cs).
Proof.
  intros Hy. pose proof (year_roundtrip_ok y Hy) as Hr.
  unfold year_roundtrip in Hr.
  destruct (list_ascii_of_string (zfill 4 y)) as [|a [|b [|c [|d [|? ?]]]]];
    try discriminate.
  apply andb_prop in Hr as [Hr Hv]. apply N.eqb_eq in Hv.
  simpl. rewrite Hr. simpl in Hv. simpl. by rewrite Hv.
Qed.

Lemma parse_m_zfill (m : Z) cs :
  1 <= m <= 12 ->
  parse_m (list_ascii_of_string (zfill 2 (Z.to_N m)) ++ "-"%char :: cs)%list
  = Some (Z.to_N m, "-"%char :: cs).
Proof.
  intros Hm.
  assert (Hc : m = 1 \/ m = 2 \/ m = 3 \/ m = 4 \/ m = 5 \/ m = 6 \/ m = 7 \/
               m = 8 \/ m = 9 \/ m = 10 \/ m = 11 \/ m = 12) by lia.
  repeat (destruct Hc as [->|Hc]; [reflexivity|]). subst. reflexivity.
Qed.

Lemma parse_d_zfill (n : Z) :
  1 <= n <= 31 ->
  parse_d (list_ascii_of_string (zfill 2 (Z.to_N n))) = Some (Z.to_N n, []).
Proof.
  intros Hn.
  assert (Hc : n = 1 \/ n = 2 \/ n = 3 \/ n = 4 \/ n = 5 \/ n = 6 \/ n = 7 \/
               n = 8 \/ n = 9 \/ n = 10 \/ n = 11 \/ n = 12 \/ n = 13 \/ n = 14 \/
               n = 15 \/ n = 16 \/ n = 17 \/ n = 18 \/ n = 19 \/ n = 20 \/ n = 21 \/
               n = 22 \/ n = 23 \/ n = 24 \/ n = 25 \/ n = 26 \/ n = 27 \/ n = 28 \/
               n = 29 \/ n = 30 \/ n = 31) by lia.
  repeat (destruct Hc as [->|Hc]; [reflexivity|]). subst. reflexivity.
Qed.

Lemma days_in_month_le y m : days_in_month y m <= 31.
Proof.
  unfold days_in_month.
  repeat match goal with |- context [if ?b then _ else _] => destruct b end; lia.
Qed.

Lemma valid_date_bounds dt :
  valid_date dt = true ->
  1 <= year dt <= 9999 /\ 1 <= month dt <= 12 /\
  1 <= day dt <= days_in_month (year dt) (month dt).
Proof. unfold valid_date. rewrite !andb_true_iff, !Z.leb_le. lia. Qed.

Lemma strptime_str_date dt :
  valid_date dt = true -> strptime_Ymd (str_date dt) = Some dt.
Proof.
  intros Hv. pose proof (valid_date_bounds dt Hv) as (Hy & Hm & Hd).
  pose proof (days_in_month_le (year dt) (month dt)) as Hle.
  unfold strptime_Ymd, str_date. rewrite !list_ascii_app.
  change (list_ascii_of_string "-") with ["-"%char]. simpl app.
  rewrite parse_Y_zfill by lia. simpl.
  rewrite parse_m_zfill by lia. simpl.
  rewrite parse_d_zfill by lia. simpl.
  rewrite !Z2N.id by lia. destruct dt as [y m n]. simpl in *. by rewrite Hv.
Qed.

(** The ISO text of a date goes through [normalize_date_field] unchanged. *)
Lemma normalize_str_date today dt :
  valid_date dt = true ->
  normalize_date_field today (VStr (str_date dt)) = Ok (Some (str_date dt)).
Proof. intros Hv. eapply normalize_date_text, strptime_str_date, Hv. Qed.

(** ** Relative dates stay in the calendar *)

Lemma days_in_month_ge y m : 28 <= days_in_month y m.
Proof.
  unfold days_in_month.
  repeat match goal with |- context [if ?b then _ else _] => destruct b end; lia.
Qed.

Lemma date_succ_cal dt :
  cal_ok dt -> cal_ok (date_succ dt) /\ year dt <= year (date_succ dt) <= year dt + 1.
Proof.
  unfold cal_ok, date_succ. intros [Hm Hd].
  destruct (day dt <? days_in_month (year dt) (month dt)) eqn:H1; simpl.
  { apply Z.ltb_lt in H1. lia. }
  destruct (month dt <? 12) eqn:H2; simpl.
  - apply Z.ltb_lt in H2.
    pose proof (days_in_month_ge (year dt) (month dt + 1)). lia.
  - pose proof (days_in_month_ge (year dt + 1) 1). lia.
Qed.

Lemma date_pred_cal dt :
  cal_ok dt -> cal_ok (date_pred dt) /\ year dt - 1 <= year (date_pred dt) <= year dt.
Proof.
  unfold cal_ok, date_pred. intros [Hm Hd].
  destruct (1 <? day dt) eqn:H1; simpl.
  { apply Z.ltb_lt in H1. lia. }
  destruct (1 <? month dt) eqn:H2; simpl.
  - apply Z.ltb_lt in H2.
    pose proof (days_in_month_ge (year dt) (month dt - 1)). lia.
  - change (days_in_month (year dt - 1) 12) with 31. lia.
Qed.

Lemma iter_succ_cal n dt :
  cal_ok dt ->
  cal_ok (Nat.iter n date_succ dt) /\
  year dt <= year (Nat.iter n date_succ dt) <= year dt + Z.of_nat n.
Proof.
  intros Hc. induction n as [|n [IH1 IH2]]; simpl Nat.iter; [split; [done|lia]|].
  destruct (date_succ_cal _ IH1) as [H1 H2]. split; [done|lia].
Qed.

Lemma iter_pred_cal n dt :
  cal_ok dt ->
  cal_ok (Nat.iter n date_pred dt) /\
  year dt - Z.of_nat n <= year (Nat.iter n date_pred dt) <= year dt.
Proof.
  intros Hc. induction n as [|n [IH1 IH2]]; simpl Nat.iter; [split; [done|lia]|].
  destruct (date_pred_cal _ IH1) as [H1 H2]. split; [done|lia].
Qed.

Lemma valid_date_cal dt :
  valid_date dt = true <-> 1 <= year dt <= 9999 /\ cal_ok dt.
Proof. unfold valid_date, cal_ok. rewrite !andb_true_iff, !Z.leb_le. lia. Qed.

Lemma date_plus_ok today n :
  service_day today -> (n <= 30)%nat ->
  exists t, date_plus today n = Ok t /\ valid_date t = true.
Proof.
  intros [Hv Hy] Hn. apply valid_date_cal in Hv as [_ Hc].
  destruct (iter_succ_cal n today Hc) as [H1 H2].
  unfold date_plus.
  assert (Hr : valid_date (Nat.iter n date_succ today) = true)
    by (apply valid_date_cal; split; [lia|done]).
  rewrite Hr. eauto.
Qed.

Lemma date_minus_ok today :
  service_day today ->
  exists t, date_minus today 1 = Ok t /\ valid_date t = true.
Proof.
  intros [Hv Hy]. apply valid_date_cal in Hv as [_ Hc].
  destruct (iter_pred_cal 1 today Hc) as [H1 H2].
  unfold date_minus.
  assert (Hr : valid_date (Nat.iter 1 date_pred today) = true)
    by (apply valid_date_cal; split; [lia|done]).
  rewrite Hr. eauto.
Qed.

Lemma date_plus_valid today n t : date_plus today n = Ok t -> valid_date t = true.
Proof.
  unfold date_plus. destruct (valid_date _) eqn:Hv; [|done]. by intros [= <-].
Qed.

Lemma date_minus_valid today n t : date_minus today n = Ok t -> valid_date t = true.
Proof.
  unfold date_minus. destruct (valid_date _) eqn:Hv; [|done]. by intros [= <-].
Qed.

End Dates.

(* ===================================================================== *)
(** * The normalizer                                                      *)
(* ===================================================================== *)

Section Normalizer.

Implicit Types (d : descriptor) (v : pyval) (s key : string) (today : date).

(** ** The two helpers return fixed points *)

Lemma date_field_result_fixed today v s :
  valid_date today = true ->
  normalize_date_field today v = Ok (Some s) ->
  normalize_date_field today (VStr s) = Ok (Some s).
Proof.
  intros Hv. unfold normalize_date_field at 1.
  destruct (negb (truthy v)); [done|].
  set (ds := re_sub_empty bracket (strip (lower (py_str v)))).
  destruct (mem_str ds _); [done|].
  destruct (mem_str ds _); [intros [= <-]; by apply normalize_str_date|].
  destruct (mem_str ds _).
  { destruct (date_plus today 1) as [t|] eqn:Ht; simpl; [|done].
    intros [= <-]. eapply normalize_str_date, date_plus_valid, Ht. }
  destruct (mem_str ds _).
  { destruct (date_minus today 1) as [t|] eqn:Ht; simpl; [|done].
    intros [= <-]. eapply normalize_str_date, date_minus_valid, Ht. }
  destruct (contains "next week" ds).
  { destruct (date_plus today 7) as [t|] eqn:Ht; simpl; [|done].
    intros [= <-]. eapply normalize_str_date, date_plus_valid, Ht. }
  destruct (contains "next month" ds).
  { destruct (date_plus today 30) as [t|] eqn:Ht; simpl; [|done].
    intros [= <-]. eapply normalize_str_date, date_plus_valid, Ht. }
  destruct (strptime_Ymd ds) as [dt|] eqn:Hp; [|done].
  intros [= <-]. eapply normalize_date_text, Hp.
Qed.

(** What [normalize_date_field] returns is a text that [strptime] reads:
    a four-digit year and a month and a day of one or two digits. *)
Lemma date_field_result_parsable today v s :
  valid_date today = true ->
  normalize_date_field today v = Ok (Some s) ->
  is_Some (strptime_Ymd s).
Proof.
  intros Hv. unfold normalize_date_field.
  destruct (negb (truthy v)); [done|].
  set (ds := re_sub_empty bracket (strip (lower (py_str v)))).
  destruct (mem_str ds _); [done|].
  destruct (mem_str ds _);
    [intros [= <-]; eexists; by apply strptime_str_date|].
  destruct (mem_str ds _).
  { destruct (date_plus today 1) as [t|] eqn:Ht; simpl; [|done].
    intros [= <-]. eexists. eapply strptime_str_date, date_plus_valid, Ht. }
  destruct (mem_str ds _).
  { destruct (date_minus today 1) as [t|] eqn:Ht; simpl; [|done].
    intros [= <-]. eexists. eapply strptime_str_date, date_minus_valid, Ht. }
  destruct (contains "next week" ds).
  { destruct (date_plus today 7) as [t|] eqn:Ht; simpl; [|done].
    intros [= <-]. eexists. eapply strptime_str_date, date_plus_valid, Ht. }
  destruct (contains "next month" ds).
  { destruct (date_plus today 30) as [t|] eqn:Ht; simpl; [|done].
    intros [= <-]. eexists. eapply strptime_str_date, date_plus_valid, Ht. }
  destruct (strptime_Ymd ds) as [dt|] eqn:Hp; [|done].
  intros [= <-]. by eexists.
Qed.

Lemma time_field_result_fixed v s :
  normalize_time_field v = Some s ->
  normalize_time_field (VStr s) = Some s /\ nonempty s = true.
Proof.
  unfold normalize_time_field at 1.
  destruct (negb (truthy v)); [done|].
  set (ts := strip (lower (py_str v))).
  destruct (mem_str ts _) eqn:Hmem; [done|].
  destruct (time_mappings ts) as [t|] eqn:Hmap.
  - intros [= <-]. unfold time_mappings in Hmap.
    repeat match type of Hmap with
           | (if ?b then _ else _) = _ => destruct b
           end;
      try discriminate; injection Hmap as <-; vm_compute; done.
  - destruct (re_match time_shape ts) as [m|] eqn:Hm; [|done].
    intros [= <-].
    assert (Hne : nonempty ts = true).
    { destruct ts; [|done]. vm_compute in Hm. discriminate. }
    split; [|done].
    unfold normalize_time_field. simpl truthy. rewrite Hne. simpl negb. cbv iota.
    simpl py_str. subst ts. rewrite strip_lower_idem.
    by rewrite Hmem, Hmap, Hm.
Qed.

(** ** One key at a time *)

Lemma normalize_priority_fixed d :
  prio_ok (d !! "priority") -> normalize_priority d = d.
Proof.
  unfold prio_ok, normalize_priority.
  destruct (d !! "priority") as [v|] eqn:Hd; [|done].
  destruct (truthy v); [|done].
  destruct (priority_map _) as [p|]; [|done].
  intros ->. by apply insert_id.
Qed.

Lemma normalize_priority_step d :
  prio_ok (normalize_priority d !! "priority") /\
  forall k, k <> "priority" -> normalize_priority d !! k = d !! k.
Proof.
  unfold normalize_priority.
  destruct (d !! "priority") as [v|] eqn:Hd; [|by rewrite Hd].
  destruct (truthy v) eqn:Hv; [|by rewrite Hd; simpl; rewrite Hv].
  destruct (priority_map (lower (py_str v))) as [p|] eqn:Hp.
  - split.
    + rewrite lookup_insert_eq. unfold priority_map in Hp.
      repeat match type of Hp with
             | (if ?b then _ else _) = _ => destruct b
             end;
        try discriminate; injection Hp as <-; vm_compute; done.
    + intros k Hk. by rewrite lookup_insert_ne.
  - split; [|done]. rewrite Hd. simpl. by rewrite Hv, Hp.
Qed.

Lemma handle_date_fixed today key d :
  date_ok today (d !! key) -> handle_date today key d = Ok d.
Proof.
  unfold date_ok, handle_date.
  destruct (d !! key) as [v|] eqn:Hd; [|done].
  intros (r & -> & Hne & Hn). rewrite Hn. simpl.
  unfold store_or_pop. rewrite Hne. f_equal. by apply insert_id.
Qed.

Lemma handle_date_step today key d d' :
  valid_date today = true ->
  handle_date today key d = Ok d' ->
  date_ok today (d' !! key) /\ forall k, k <> key -> d' !! k = d !! k.
Proof.
  intros Hv. unfold handle_date.
  destruct (d !! key) as [v|] eqn:Hd; [|by intros [= <-]; rewrite Hd].
  destruct (normalize_date_field today v) as [n|] eqn:Hn; simpl; [|done].
  intros [= <-]. unfold store_or_pop.
  destruct n as [s|].
  - destruct (nonempty s) eqn:Hne.
    + split.
      * rewrite lookup_insert_eq. exists s. split; [done|]. split; [done|].
        eapply date_field_result_fixed; eauto.
      * intros k Hk. by rewrite lookup_insert_ne.
    + split; [by rewrite lookup_delete_eq|].
      intros k Hk. by rewrite lookup_delete_ne.
  - split; [by rewrite lookup_delete_eq|].
    intros k Hk. by rewrite lookup_delete_ne.
Qed.

Lemma handle_time_fixed key d :
  time_ok (d !! key) -> handle_time key d = d.
Proof.
  unfold time_ok, handle_time.
  destruct (d !! key) as [v|] eqn:Hd; [|done].
  intros (r & -> & Hne & Hn). rewrite Hn.
  unfold store_or_pop. rewrite Hne. by apply insert_id.
Qed.

Lemma handle_time_step key d :
  time_ok (handle_time key d !! key) /\
  forall k, k <> key -> handle_time key d !! k = d !! k.
Proof.
  unfold handle_time.
  destruct (d !! key) as [v|] eqn:Hd; [|by rewrite Hd].
  unfold store_or_pop.
  destruct (normalize_time_field v) as [s|] eqn:Hn.
  - destruct (time_field_result_fixed v s Hn) as [Hfix Hne]. rewrite Hne.
    split.
    + rewrite lookup_insert_eq. by exists s.
    + intros k Hk. by rewrite lookup_insert_ne.
  - split; [by rewrite lookup_delete_eq|].
    intros k Hk. by rewrite lookup_delete_ne.
Qed.

(** ** The whole normalizer *)

Lemma normal_form_fixed today d :
  normal_form today d -> normalize_parsed_command today d = Ok d.
Proof.
  intros (Hp & H1 & H2 & H3 & H4 & H5).
  unfold normalize_parsed_command.
  rewrite (normalize_priority_fixed d Hp).
  rewrite (handle_date_fixed _ _ _ H1). simpl.
  rewrite (handle_date_fixed _ _ _ H2). simpl.
  rewrite (handle_date_fixed _ _ _ H3). simpl.
  rewrite (handle_time_fixed _ _ H4), (handle_time_fixed _ _ H5). done.
Qed.

Lemma normalize_steps today d d' :
  valid_date today = true ->
  normalize_parsed_command today d = Ok d' ->
  normal_form today d' /\
  forall k, ~ In k normalized_keys -> d' !! k = d !! k.
Proof.
  intros Hv. unfold normalize_parsed_command.
  destruct (normalize_priority_step d) as [P0 O0].
  destruct (handle_date today "scheduled_date" (normalize_priority d))
    as [d1|] eqn:E1; simpl; [|done].
  destruct (handle_date_step _ _ _ _ Hv E1) as [P1 O1].
  destruct (handle_date today "due_date" d1) as [d2|] eqn:E2; simpl; [|done].
  destruct (handle_date_step _ _ _ _ Hv E2) as [P2 O2].
  destruct (handle_date today "date_filter" d2) as [d3|] eqn:E3; simpl; [|done].
  destruct (handle_date_step _ _ _ _ Hv E3) as [P3 O3].
  destruct (handle_time_step "scheduled_time" d3) as [P4 O4].
  destruct (handle_time_step "due_time" (handle_time "scheduled_time" d3))
    as [P5 O5].
  intros [= <-]. split.
  - unfold normal_form. repeat split.
    + rewrite O5, O4, O3, O2, O1 by done. exact P0.
    + rewrite O5, O4, O3, O2 by done. exact P1.
    + rewrite O5, O4, O3 by done. exact P2.
    + rewrite O5, O4 by done. exact P3.
    + rewrite O5 by done. exact P4.
    + exact P5.
  - intros k Hk. unfold normalized_keys in Hk. simpl in Hk.
    rewrite O5, O4, O3, O2, O1, O0 by (intros ->; apply Hk; auto 10). done.
Qed.

Lemma normalize_date_field_total today v :
  service_day today -> exists o, normalize_date_field today v = Ok o.
Proof.
  intros Hs. unfold normalize_date_field.
  destruct (date_plus_ok today 1 Hs ltac:(lia)) as (t1 & -> & _).
  destruct (date_plus_ok today 7 Hs ltac:(lia)) as (t7 & -> & _).
  destruct (date_plus_ok today 30 Hs ltac:(lia)) as (t30 & -> & _).
  destruct (date_minus_ok today Hs) as (ty & -> & _). simpl.
  repeat match goal with
         | |- context [if ?b then _ else _] => destruct b
         end; eauto.
Qed.

(** On a service day the normalizer returns, whatever the descriptor. *)
Lemma normalize_total today d :
  service_day today -> exists d', normalize_parsed_command today d = Ok d'.
Proof.
  intros Hs. unfold normalize_parsed_command.
  assert (Hd : forall key d0, exists d1, handle_date today key d0 = Ok d1).
  { intros key d0. unfold handle_date. destruct (d0 !! key) as [v|]; [|eauto].
    destruct (normalize_date_field_total today v Hs) as [o ->]. simpl. eauto. }
  destruct (Hd "scheduled_date" (normalize_priority d)) as [d1 ->]. simpl.
  destruct (Hd "due_date" d1) as [d2 ->]. simpl.
  destruct (Hd "date_filter" d2) as [d3 ->]. simpl. eauto.
Qed.

End Normalizer.

(** C7.  With the current date held fixed, normalizing the result of the
    normalizer gives that result again; on a service day the normalizer
    does return a result. *)
Theorem normalize_idempotent :
  forall (today : date) (d : descriptor),
    valid_date today = true ->
    (normalize_parsed_command today d ≫= normalize_parsed_command today)
      = normalize_parsed_command today d /\
    (2 <= year today <= 9000 ->
     exists d', normalize_parsed_command today d = Ok d' /\
                normalize_parsed_command today d' = Ok d').
Proof.
  intros today d Hv.
  assert (Hidem : forall d', normalize_parsed_command today d = Ok d' ->
                             normalize_parsed_command today d' = Ok d').
  { intros d' Hn. apply normal_form_fixed.
    by destruct (normalize_steps today d d' Hv Hn). }
  split.
  - destruct (normalize_parsed_command today d) as [d'|e] eqn:Hn; [|done].
    simpl. by apply Hidem.
  - intros Hy. destruct (normalize_total today d (conj Hv Hy)) as [d' Hn].
    exists d'. split; [done|]. by apply Hidem.
Qed.

(** Witness for C7: a relative date, a named time and a lower-case
    priority, normalized twice on 2026-11-04. *)
Lemma normalize_idempotent_witness :
  (normalize_parsed_command (Date 2026 11 4) relative_descriptor
     ≫= normalize_parsed_command (Date 2026 11 4))
  = normalize_parsed_command (Date 2026 11 4) relative_descriptor.
Proof.
  exact (proj1 (normalize_idempotent (Date 2026 11 4) relative_descriptor eq_refl)).
Defined.

(** C6 at its failing input.  For every current date the normalizer
    returns the descriptor with [due_date] still holding "2026-1-5", a text
    that is not of the shape YYYY-MM-DD: [strptime] reads month and day
    without their leading zero, and the text it accepted is what is kept. *)
Theorem normalize_keeps_unpadded_date :
  forall today : date,
    normalize_parsed_command today unpadded_descriptor = Ok unpadded_descriptor /\
    unpadded_descriptor !! "due_date" = Some (VStr "2026-1-5") /\
    re_match iso_date_shape "2026-1-5" = None /\
    str_date (Date 2026 1 5) = "2026-01-05".
Proof.
  intros today. split; [|by vm_compute].
  apply normal_form_fixed. unfold normal_form, unpadded_descriptor.
  rewrite !lookup_insert_ne by done. rewrite lookup_insert_eq, !lookup_empty.
  repeat split; try exact I.
  exists "2026-1-5". split; [done|]. split; [done|].
  by apply (normalize_date_text today "2026-1-5" (Date 2026 1 5)).
Qed.

(* ===================================================================== *)
(** * The pattern interpreter on the commands of the specification        *)
(* ===================================================================== *)

Lemma remind_me_lookups today :
  match parse_with_patterns today "Remind me to call John today" with
  | Ok d =>
      d !! "action" = Some (VStr "create") /\
      d !! "task_title" = Some (VStr (lower "call John")) /\
      d !! "due_date" = Some (VStr (str_date today)) /\
      d !! "reminder_time" = Some (VInt 15)
  | Raise _ => False
  end.
Proof. vm_compute. repeat split. Qed.

(** C8.  On every current date the pattern interpreter reads "Remind me to
    call John today" as a create descriptor whose title is "call John" in
    lower case, whose [due_date] is the ISO text of the current date and
    whose [reminder_time] is 15. *)
Theorem remind_me_to_call_john :
  forall today : date,
    exists d : descriptor,
      parse_with_patterns today "Remind me to call John today" = Ok d /\
      d !! "action" = Some (VStr "create") /\
      d !! "task_title" = Some (VStr (lower "call John")) /\
      d !! "due_date" = Some (VStr (str_date today)) /\
      d !! "reminder_time" = Some (VInt 15).
Proof.
  intros today. pose proof (remind_me_lookups today) as Hl.
  destruct (parse_with_patterns today "Remind me to call John today") as [d|e];
    [|contradiction].
  by exists d.
Qed.

Lemma complete_presentation_lookups today :
  match parse_with_patterns today "complete presentation" with
  | Ok d =>
      d !! "action" = Some (VStr "create") /\
      d !! "task_title" = Some (VStr "complete presentation") /\
      contains "at" "complete presentation" = true
  | Raise _ => False
  end.
Proof. vm_compute. repeat split. Qed.

(** C5 at its failing input.  With the two "Presentation ..." tasks of a
    user in the store and no LLM client, the command "complete
    presentation" is answered with success: the scheduling gate finds "at"
    inside "presentation", the command is read as a create descriptor, and
    a third task titled "complete presentation" is stored. *)
Theorem complete_presentation_creates_a_task :
  forall (R : Runtime) (today : date),
    let out := process_command pattern_service today "complete presentation" 7
                 presentation_db in
    success out.2 = true /\
    action out.2 = Some "create" /\
    objects out.1 =
      [sample_task 1 "Presentation draft" NOT_STARTED 7;
       sample_task 2 "Presentation review" NOT_STARTED 7;
       sample_task 3 "complete presentation" NOT_STARTED 7] /\
    stored out.1 = objects out.1.
Proof. intros R today. vm_compute. repeat split. Qed.

(* ===================================================================== *)
(** * The matcher                                                         *)
(* ===================================================================== *)

Section Matcher.

Implicit Types (r : regex) (st : mstate) (k : mstate -> option mstate).

Lemma star_loop_sound r g k :
  (forall st k' res, rmatch r st k' = Some res ->
                     exists st', mrel r st st' /\ k' st' = Some res) ->
  forall fuel st res,
    star_loop (rmatch r) g k fuel st = Some res ->
    exists st', mrel (Star g r) st st' /\ k st' = Some res.
Proof.
  intros IH. induction fuel as [|fuel IHf]; intros st res Hs; simpl in Hs.
  { exists st. split; [constructor|done]. }
  assert (Hround : forall res',
    rmatch r st (fun st1 =>
      if (length (rest st1) <? length (rest st))%nat
      then star_loop (rmatch r) g k fuel st1 else None) = Some res' ->
    exists st', mrel (Star g r) st st' /\ k st' = Some res').
  { intros res' Hr. apply IH in Hr as (st1 & Hm & Hk).
    destruct (length (rest st1) <? length (rest st))%nat; [|done].
    apply IHf in Hk as (st2 & Hm2 & Hk2).
    exists st2. split; [|done]. eapply MStarRound; eauto. }
  destruct g.
  - destruct (rmatch r st _) as [res'|] eqn:Hr.
    + injection Hs as <-. by apply Hround.
    + exists st. split; [constructor|done].
  - destruct (k st) as [res'|] eqn:Hk.
    + injection Hs as <-. exists st. split; [constructor|done].
    + by apply Hround.
Qed.

(** Soundness of the matcher: a result comes from a run through [mrel]. *)
Lemma rmatch_sound r :
  forall st k res,
    rmatch r st k = Some res -> exists st', mrel r st st' /\ k st' = Some res.
Proof.
  induction r as [|c|p|r1 IH1 r2 IH2|r1 IH1 r2 IH2|g r1 IH1|n r1 IH1| | |];
    intros st k res Hm; simpl in Hm.
  - exists st. split; [constructor|done].
  - destruct (rest st) as [|x xs] eqn:Hr; [done|].
    destruct (Ascii.eqb x c) eqn:Hx; [|done]. apply Ascii.eqb_eq in Hx as ->.
    eexists. split; [by constructor|done].
  - destruct (rest st) as [|x xs] eqn:Hr; [done|].
    destruct (p x) eqn:Hx; [|done].
    eexists. split; [by constructor|done].
  - apply IH1 in Hm as (st1 & H1 & Hm). apply IH2 in Hm as (st2 & H2 & Hm).
    exists st2. split; [econstructor; eauto|done].
  - destruct (rmatch r1 st k) as [res'|] eqn:H1.
    + injection Hm as <-. apply IH1 in H1 as (st1 & H1 & Hk).
      exists st1. split; [by apply MAltL|done].
    + apply IH2 in Hm as (st1 & H2 & Hk).
      exists st1. split; [by apply MAltR|done].
  - eapply star_loop_sound; eauto.
  - apply IH1 in Hm as (st1 & H1 & Hk).
    eexists. split; [by constructor|done].
  - destruct (seen st) eqn:Hs; [|done]. exists st. split; [by constructor|done].
  - exists st. split; [constructor|].
    destruct (rest st) as [|c [|c' l]]; try done.
    by destruct (Ascii.eqb c newline).
  - destruct (at_word_boundary st) eqn:Hw; [|done].
    exists st. split; [by constructor|done].
Qed.

Lemma match_here_sound r before after m :
  match_here r before after = Some m ->
  m_from m = MState before after [] /\ mrel r (m_from m) (m_to m).
Proof.
  unfold match_here. destruct (rmatch r _ Some) as [st'|] eqn:Hm; [|done].
  simpl. intros [= <-]. simpl. split; [done|].
  apply rmatch_sound in Hm as (st1 & Hrel & [= ->]). done.
Qed.

(** A match found by [re.search] starts with no group captured and is a
    run of the pattern. *)
Lemma search_from_sound r after :
  forall before m,
    search_from r before after = Some m ->
    caps (m_from m) = [] /\ mrel r (m_from m) (m_to m).
Proof.
  induction after as [|c after IH]; intros before m Hs; simpl in Hs.
  - destruct (match_here r before []) as [m'|] eqn:Hm; [|done].
    injection Hs as <-. apply match_here_sound in Hm as [Hf Hr].
    split; [by rewrite Hf|done].
  - destruct (match_here r before (c :: after)) as [m'|] eqn:Hm.
    + injection Hs as <-. apply match_here_sound in Hm as [Hf Hr].
      split; [by rewrite Hf|done].
    + by apply IH in Hs.
Qed.

(** ** Inversion of runs *)

Lemma mrel_seq r1 r2 st st' :
  mrel (Seq r1 r2) st st' -> exists st1, mrel r1 st st1 /\ mrel r2 st1 st'.
Proof. inversion 1; subst; eauto. Qed.

Lemma mrel_cls p st st' :
  mrel (Cls p) st st' ->
  exists x xs, rest st = x :: xs /\ p x = true /\ st' = advance st x xs.
Proof. inversion 1; subst; eauto. Qed.

Lemma mrel_chr c st st' :
  mrel (Chr c) st st' -> exists xs, rest st = c :: xs /\ st' = advance st c xs.
Proof. inversion 1; subst; eauto. Qed.

Lemma mrel_alt r1 r2 st st' :
  mrel (Alt r1 r2) st st' -> mrel r1 st st' \/ mrel r2 st st'.
Proof. inversion 1; subst; eauto. Qed.

Lemma mrel_eps st st' : mrel Eps st st' -> st' = st.
Proof. by inversion 1. Qed.

Lemma mrel_group n r st st' :
  mrel (Group n r) st st' -> exists st1, mrel r st st1 /\ st' = set_cap n st st1.
Proof. inversion 1; subst; eauto. Qed.

(** A repetition of a character class captures nothing. *)
Lemma mrel_star_cls_caps g p st st' :
  mrel (Star g (Cls p)) st st' -> caps st' = caps st.
Proof.
  intros Hm. remember (Star g (Cls p)) as r eqn:Hr.
  induction Hm; try discriminate; [done|].
  injection Hr as -> ->. rewrite IHHm2 by done.
  apply mrel_cls in Hm1 as (x & xs & _ & _ & ->). done.
Qed.

Lemma take_seen (l1 l : list ascii) :
  take (length (l1 ++ l) - length l) (l1 ++ l)%list = l1.
Proof.
  rewrite length_app. replace (length l1 + length l - length l)%nat
    with (length l1) by lia.
  by rewrite take_app_length.
Qed.

(** What [\d{1,2}] captures. *)
Lemma mrel_digit12 st st' :
  mrel digit12 st st' ->
  caps st' = caps st /\ one_or_two_digits (consumed st st').
Proof.
  unfold digit12, digit, opt. intros Hm.
  apply mrel_seq in Hm as (st1 & H1 & H2).
  apply mrel_cls in H1 as (a & xs & Hr & Ha & ->).
  apply mrel_alt in H2 as [H2|H2].
  - apply mrel_cls in H2 as (b & ys & Hr' & Hb & ->).
    split; [done|]. right. exists a, b. split; [|done].
    unfold consumed, advance; simpl seen.
    change (b :: a :: seen st) with ([b; a] ++ seen st)%list.
    by rewrite take_seen.
  - apply mrel_eps in H2 as ->.
    split; [done|]. left. exists a. split; [|done].
    unfold consumed, advance; simpl seen.
    change (a :: seen st) with ([a] ++ seen st)%list.
    by rewrite take_seen.
Qed.

(** What [\d{2}] captures. *)
Lemma mrel_digit2 st st' :
  mrel digit2 st st' ->
  caps st' = caps st /\ one_or_two_digits (consumed st st').
Proof.
  unfold digit2, digit. intros Hm.
  apply mrel_seq in Hm as (st1 & H1 & H2).
  apply mrel_cls in H1 as (a & xs & Hr & Ha & ->).
  apply mrel_cls in H2 as (b & ys & Hr' & Hb & ->).
  split; [done|]. right. exists a, b. split; [|done].
  unfold consumed, advance; simpl seen.
  change (b :: a :: seen st) with ([b; a] ++ seen st)%list.
  by rewrite take_seen.
Qed.

Lemma mrel_no_groups r st st' :
  mrel r st st' -> no_groups r = true -> caps st' = caps st.
Proof.
  induction 1 as [ | | |r1 r2 st st1 st2 _ IH1 _ IH2|r1 r2 st st1 _ IH
                 |r1 r2 st st1 _ IH| |g r st st1 st2 _ IH1 _ IH2| | | | ];
    simpl; intros Hg; try done.
  - apply andb_prop in Hg as [H1 H2]. by rewrite IH2, IH1.
  - apply andb_prop in Hg as [H1 H2]. by apply IH.
  - apply andb_prop in Hg as [H1 H2]. by apply IH.
  - rewrite IH2 by done. by apply IH1.
Qed.

(** ** The two clock patterns *)

Lemma specific_time_groups text m :
  re_search specific_time_re text = Some m ->
  one_or_two_digits (group_text 1 m) /\ one_or_two_digits (group_text 2 m).
Proof.
  unfold re_search. intros Hs. apply search_from_sound in Hs as [Hc Hm].
  destruct m as [s0 s']. unfold group_text, group. simpl in *.
  unfold specific_time_re in Hm. simpl seqs in Hm.
  apply mrel_seq in Hm as (st1 & Hg1 & Hm).
  apply mrel_group in Hg1 as (sa & Ha & ->).
  apply mrel_digit12 in Ha as [Hca Hda].
  apply mrel_seq in Hm as (st2 & Hcolon & Hm).
  apply mrel_chr in Hcolon as (xs & _ & ->).
  apply mrel_seq in Hm as (st3 & Hg2 & Hm).
  apply mrel_group in Hg2 as (sb & Hb & ->).
  apply mrel_digit2 in Hb as [Hcb Hdb].
  apply mrel_seq in Hm as (st4 & Hsp & Hm).
  apply mrel_no_groups in Hsp; [|done].
  apply mrel_alt in Hm as [Hm|Hm].
  - apply mrel_group in Hm as (sc & Hc3 & ->).
    apply mrel_no_groups in Hc3; [|done].
    simpl. rewrite Hc3, Hsp. simpl. rewrite Hcb. simpl. done.
  - apply mrel_eps in Hm as ->. rewrite Hsp. simpl. rewrite Hcb. simpl. done.
Qed.

Lemma hour_ampm_groups text m :
  re_search hour_ampm_re text = Some m -> one_or_two_digits (group_text 1 m).
Proof.
  unfold re_search. intros Hs. apply search_from_sound in Hs as [Hc Hm].
  destruct m as [s0 s']. unfold group_text, group. simpl in *.
  unfold hour_ampm_re in Hm. simpl seqs in Hm.
  apply mrel_seq in Hm as (st1 & Hg1 & Hm).
  apply mrel_group in Hg1 as (sa & Ha & ->).
  apply mrel_digit12 in Ha as [Hca Hda].
  apply mrel_seq in Hm as (st2 & Hsp & Hm).
  apply mrel_no_groups in Hsp; [|done].
  apply mrel_group in Hm as (sc & Hc2 & ->).
  apply mrel_no_groups in Hc2; [|done].
  simpl. rewrite Hc2, Hsp. simpl. done.
Qed.

Lemma digit_val_le c : is_digit c = true -> (digit_val c <= 9)%N.
Proof.
  destruct c as [[] [] [] [] [] [] [] []]; try discriminate; intros _;
    vm_compute; discriminate.
Qed.

Lemma int_of_digits_bound s :
  one_or_two_digits s -> (int_of_digits s < 100)%N.
Proof.
  intros [(a & -> & Ha)|(a & b & -> & Ha & Hb)]; unfold int_of_digits; simpl.
  - pose proof (digit_val_le a Ha). lia.
  - pose proof (digit_val_le a Ha). pose proof (digit_val_le b Hb). lia.
Qed.

Lemma adjust_hour_bound h o : (h < 100)%N -> (adjust_hour h o < 100)%N.
Proof.
  unfold adjust_hour. intros Hh.
  destruct (bool_decide (o = Some "pm") && (h <? 12)%N) eqn:H1.
  { apply andb_prop in H1 as [_ H1]. apply N.ltb_lt in H1. lia. }
  destruct (bool_decide (o = Some "am") && (h =? 12)%N); lia.
Qed.

End Matcher.

(* ===================================================================== *)
(** * What the pattern interpreter returns is already normalized          *)
(* ===================================================================== *)

Section InterpreterRange.

Implicit Types (d : descriptor) (today : date) (k : string).

Lemma clock_fixed_table :
  forallb (fun h => forallb (clock_fixed h) (seqZ 0 100)) (seqZ 0 100) = true.
Proof. vm_compute. reflexivity. Qed.

Lemma clock_time_ok (h mi : N) :
  (h < 100)%N -> (mi < 100)%N ->
  time_ok (Some (VStr (zfill 2 h ++ ":" ++ zfill 2 mi))).
Proof.
  intros Hh Hm. pose proof clock_fixed_table as Ht.
  rewrite forallb_forall in Ht.
  assert (Hin : forall n : N, (n < 100)%N -> In (Z.of_N n) (seqZ 0 100)).
  { intros n Hn. apply list_elem_of_In, elem_of_seqZ. lia. }
  specialize (Ht _ (Hin h Hh)). rewrite forallb_forall in Ht.
  specialize (Ht _ (Hin mi Hm)). unfold clock_fixed in Ht.
  rewrite !N2Z.id in Ht. apply andb_prop in Ht as [Hne Hn].
  simpl. eexists. split; [reflexivity|]. split; [done|].
  destruct (normalize_time_field _) as [r|]; [|done].
  apply String.eqb_eq in Hn. by subst.
Qed.

Lemma extract_time_ok text t :
  extract_time time_patterns text = Some t -> time_ok (Some (VStr t)).
Proof.
  unfold time_patterns. simpl extract_time.
  destruct (re_search specific_time_re text) as [m|] eqn:H1.
  { intros [= <-]. apply specific_time_groups in H1 as [Hh Hm].
    unfold time_of_match. simpl String.eqb. cbv iota.
    apply clock_time_ok.
    - by apply adjust_hour_bound, int_of_digits_bound.
    - by apply int_of_digits_bound. }
  destruct (re_search hour_ampm_re text) as [m|] eqn:H2.
  { intros [= <-]. apply hour_ampm_groups in H2.
    unfold time_of_match. simpl String.eqb. cbv iota.
    change (zfill 2 (adjust_hour (int_of_digits (group_text 1 m)) (group 2 m)) ++ ":00")
      with (zfill 2 (adjust_hour (int_of_digits (group_text 1 m)) (group 2 m)) ++
            ":" ++ zfill 2 0).
    apply clock_time_ok; [|done].
    by apply adjust_hour_bound, int_of_digits_bound. }
  repeat match goal with
         | |- context [re_search ?r text] => destruct (re_search r text)
         end;
    intros [= <-]; eexists; (split; [reflexivity|]); by vm_compute.
Qed.

Lemma key_ok_other today k o : ~ In k normalized_keys -> key_ok today k o.
Proof.
  unfold normalized_keys, key_ok. simpl. intros Hk.
  split; [|split]; intros Hin; exfalso; apply Hk; intuition.
Qed.

Lemma all_ok_empty today : all_ok today ∅.
Proof. intros k. rewrite lookup_empty. by repeat split. Qed.

Lemma all_ok_insert today k v d :
  key_ok today k (Some v) -> all_ok today d -> all_ok today (<[k := v]> d).
Proof.
  intros Hk Hd k'. destruct (decide (k = k')) as [<-|Hne].
  - by rewrite lookup_insert_eq.
  - rewrite lookup_insert_ne by done. apply Hd.
Qed.

Lemma all_ok_set_opt today k o d :
  (forall v, o = Some v -> key_ok today k (Some v)) ->
  all_ok today d -> all_ok today (set_opt k o d).
Proof.
  intros Hk Hd. destruct o as [v|]; simpl; [|done].
  apply all_ok_insert; auto.
Qed.

Lemma all_ok_normal_form today d : all_ok today d -> normal_form today d.
Proof.
  intros Hd. unfold normal_form.
  repeat split; apply (Hd _); simpl; auto 10.
Qed.

Ltac free_key := apply key_ok_other; unfold normalized_keys; simpl;
                 intuition discriminate.

Lemma date_text_ok today dt :
  valid_date dt = true -> date_ok today (Some (VStr (str_date dt))).
Proof.
  intros Hv. exists (str_date dt). split; [done|]. split.
  - by destruct (strptime_text _ _ (strptime_str_date dt Hv)) as (_ & _ & _ & ?).
  - by apply normalize_str_date.
Qed.

Lemma schedule_priority_ok text : prio_ok (Some (VStr (schedule_priority text))).
Proof.
  unfold schedule_priority.
  repeat match goal with
         | |- context [if ?b then _ else _] => destruct b
         end; by vm_compute.
Qed.

Lemma chat_descriptor_ok today msg conf : all_ok today (chat_descriptor msg conf).
Proof.
  unfold chat_descriptor.
  repeat (apply all_ok_insert; [free_key|]). apply all_ok_empty.
Qed.

Lemma titled_ok today act ttl conf : all_ok today (titled act ttl conf).
Proof.
  unfold titled.
  repeat (apply all_ok_insert; [free_key|]). apply all_ok_empty.
Qed.

Lemma parse_schedule_ok today text d :
  valid_date today = true ->
  parse_schedule today text = Ok d -> all_ok today d.
Proof.
  intros Hv. unfold parse_schedule.
  set (base := <["task_title" := _]> _).
  assert (Hbase : all_ok today base).
  { subst base. repeat (apply all_ok_insert; [free_key|]). apply all_ok_empty. }
  set (timed := set_opt "due_time" _ base).
  assert (Htimed : all_ok today timed).
  { subst timed. apply all_ok_set_opt; [|done]. intros v Hv'.
    destruct (extract_time time_patterns text) as [t|] eqn:Ht; [|done].
    injection Hv' as <-. apply extract_time_ok in Ht.
    split; [done|]. split; [|done]. simpl. intuition discriminate. }
  assert (Hfin : forall due, (forall s, due = Some s -> exists dt,
                               s = str_date dt /\ valid_date dt = true) ->
            all_ok today
              (if contains "remind" text
               then <["reminder_time" := VInt 15]>
                      (<["priority" := VStr (schedule_priority text)]>
                         (set_opt "due_date" (VStr <$> due) timed))
               else <["priority" := VStr (schedule_priority text)]>
                      (set_opt "due_date" (VStr <$> due) timed))).
  { intros due Hdue.
    assert (Hp : all_ok today
              (<["priority" := VStr (schedule_priority text)]>
                 (set_opt "due_date" (VStr <$> due) timed))).
    { apply all_ok_insert.
      - split; [intros _; apply schedule_priority_ok|].
        split; simpl; intuition discriminate.
      - apply all_ok_set_opt; [|done]. intros v Hv'.
        destruct due as [s|]; [|done]. injection Hv' as <-.
        destruct (Hdue s eq_refl) as (dt & -> & Hdt).
        split; [done|]. split; [intros _; by apply date_text_ok|].
        simpl; intuition discriminate. }
    destruct (contains "remind" text); [|done].
    apply all_ok_insert; [free_key|done]. }
  destruct (contains "today" text).
  { simpl. intros [= <-]. apply (Hfin (Some (str_date today))).
    intros s [= <-]. eauto. }
  destruct (contains "tomorrow" text).
  { destruct (date_plus today 1) as [t|] eqn:Ht; simpl; [|done].
    intros [= <-]. apply (Hfin (Some (str_date t))). intros s [= <-].
    exists t. split; [done|]. eapply date_plus_valid, Ht. }
  simpl. intros [= <-]. apply (Hfin None). done.
Qed.

Lemma parse_list_ok today text d :
  valid_date today = true ->
  parse_list today text = Ok d -> all_ok today d.
Proof.
  intros Hv. unfold parse_list.
  set (base := <["confidence" := _]> _).
  assert (Hbase : all_ok today base).
  { subst base. repeat (apply all_ok_insert; [free_key|]). apply all_ok_empty. }
  assert (Hfin : forall filt, (forall s, filt = Some s -> exists dt,
                               s = str_date dt /\ valid_date dt = true) ->
            forall d',
              Ok (if contains "completed" text
                  then <["state_filter" := VStr "Completed"]>
                         (set_opt "date_filter" (VStr <$> filt) base)
                  else if contains "progress" text
                  then <["state_filter" := VStr "In Progress"]>
                         (set_opt "date_filter" (VStr <$> filt) base)
                  else if contains "pending" text || contains "not started" text
                  then <["state_filter" := VStr "Not Started"]>
                         (set_opt "date_filter" (VStr <$> filt) base)
                  else set_opt "date_filter" (VStr <$> filt) base) = Ok d' ->
              all_ok today d').
  { intros filt Hf d' [= <-].
    assert (Hd : all_ok today (set_opt "date_filter" (VStr <$> filt) base)).
    { apply all_ok_set_opt; [|done]. intros v Hv'.
      destruct filt as [s|]; [|done]. injection Hv' as <-.
      destruct (Hf s eq_refl) as (dt & -> & Hdt).
      split; [done|]. split; [intros _; by apply date_text_ok|].
      simpl; intuition discriminate. }
    repeat match goal with
           | |- context [if ?b then _ else _] => destruct b
           end; try done; by (apply all_ok_insert; [free_key|done]). }
  destruct (any_in ["today"; "today's"] text).
  { simpl. apply (Hfin (Some (str_date today))). intros s [= <-]. eauto. }
  destruct (any_in ["tomorrow"; "tomorrow's"] text).
  { destruct (date_plus today 1) as [t|] eqn:Ht; simpl; [|done].
    apply (Hfin (Some (str_date t))). intros s [= <-].
    exists t. split; [done|]. eapply date_plus_valid, Ht. }
  simpl. apply (Hfin None). done.
Qed.

Lemma parse_task_command_ok today text : all_ok today (parse_task_command text).
Proof.
  unfold parse_task_command.
  destruct (if any_in ["add"; "create"; "new"; "make"] text
            then first_search create_patterns text else None) as [m|];
    [apply titled_ok|].
  destruct (if any_in ["start"; "begin"; "working"] text
            then re_search start_re text else None) as [m|];
    [apply all_ok_insert; [free_key|apply titled_ok]|].
  destruct (if any_in ["complete"; "finish"; "done"] text
            then re_search complete_re text else None) as [m|];
    [apply all_ok_insert; [free_key|apply titled_ok]|].
  destruct (first_search delete_patterns text) as [m|];
    [apply titled_ok|apply chat_descriptor_ok].
Qed.

(** Every descriptor of the pattern interpreter is one the normalizer
    leaves as it is. *)
Lemma parse_with_patterns_normal today command d :
  valid_date today = true ->
  parse_with_patterns today command = Ok d ->
  normalize_parsed_command today d = Ok d.
Proof.
  intros Hv Hp. apply normal_form_fixed, all_ok_normal_form.
  revert Hp. unfold parse_with_patterns.
  repeat match goal with
         | |- context [if ?b then _ else _] => destruct b
         end.
  - intros [= <-]. apply chat_descriptor_ok.
  - intros [= <-]. apply chat_descriptor_ok.
  - by apply parse_schedule_ok.
  - by apply parse_list_ok.
  - intros [= <-]. apply chat_descriptor_ok.
  - intros [= <-]. apply parse_task_command_ok.
Qed.

End InterpreterRange.

(* ===================================================================== *)
(** * From the command text to the dispatcher                             *)
(* ===================================================================== *)

Section Pipeline.

Context `{Runtime}.

Lemma patterns_then_normalize today command :
  valid_date today = true ->
  (parse_with_patterns today command ≫= normalize_parsed_command today)
  = parse_with_patterns today command.
Proof.
  intros Hv. destruct (parse_with_patterns today command) as [d|e] eqn:Hp; [|done].
  simpl. by apply parse_with_patterns_normal with command.
Qed.

Lemma parse_command_absent today command :
  parse_command (MkService None) today command
  = (d ← parse_with_patterns today command; Ok (JObject d)).
Proof. done. Qed.

(** The fallback of [_parse_with_gemini] hands over what a service without
    a client hands over. *)
Lemma fallback_is_the_pattern_path today command :
  valid_date today = true ->
  (fallback_result ← parse_with_patterns today command;
   normalized ← normalize_parsed_command today fallback_result;
   Ok (JObject normalized))
  = (d ← parse_with_patterns today command; Ok (JObject d)).
Proof.
  intros Hv. destruct (parse_with_patterns today command) as [d|e] eqn:Hp; [|done].
  simpl. by rewrite (parse_with_patterns_normal today command d Hv Hp).
Qed.

Lemma parse_command_failing client today tomorrow command e :
  valid_date today = true ->
  date_plus today 1 = Ok tomorrow ->
  llm_stage client today tomorrow command = Raise e ->
  parse_command (MkService (Some client)) today command
  = parse_command (MkService None) today command.
Proof.
  intros Hv Ht Hf. unfold parse_command, parse_with_gemini. simpl gemini_client.
  rewrite Ht. simpl. rewrite Hf. simpl.
  by apply fallback_is_the_pattern_path.
Qed.

(** A dict that [_parse_command] returns is dispatched, and the answer of
    the dispatcher is the answer of [process_command]. *)
Lemma process_command_object svc today command d user db :
  parse_command svc today command = Ok (JObject d) ->
  process_command svc today command user db = execute_action d user db.
Proof.
  intros Hp. unfold process_command. rewrite Hp. simpl.
  by destruct (execute_action d user db).
Qed.

(** A list or a string that [_parse_command] returns stops the dispatcher
    before its [try]. *)
Lemma process_command_no_object svc today command v user db :
  parse_command svc today command = Ok v ->
  (forall d, v <> JObject d) ->
  process_command svc today command user db
  = (db, failure ("Sorry, I couldn't process that command: " ++
                  exc_text (AttributeError (json_type_name v) "get"))).
Proof.
  intros Hp Hv. unfold process_command. rewrite Hp.
  destruct v as [d| | |]; [by destruct (Hv d)|done..].
Qed.

(** What the normalizer returns, it returns again. *)
Lemma normalize_reply_fixed today v v' :
  valid_date today = true ->
  normalize_reply today v = Ok v' -> normalize_reply today v' = Ok v'.
Proof.
  intros Hv. destruct v as [d|items|s|x]; cbn [normalize_reply].
  - destruct (normalize_parsed_command today d) as [d'|e] eqn:Hd; simpl; [|done].
    intros [= <-]. simpl.
    by rewrite (normal_form_fixed today d' (proj1 (normalize_steps today d d' Hv Hd))).
  - destruct (existsb (fun key => existsb (fun x => eq_str x key) items)
                handled_keys) eqn:He; [discriminate|].
    intros [= <-]. cbn [normalize_reply]. by rewrite He.
  - destruct (any_in handled_keys s) eqn:He; [discriminate|].
    intros [= <-]. cbn [normalize_reply]. by rewrite He.
  - done.
Qed.

End Pipeline.




(* ===================================================================== *)
(** * Further properties of the store and of the dispatcher               *)
(* ===================================================================== *)

Section Invariant.

Implicit Types (db : Session) (l : list Task).

Lemma remove_first_In (p : Task -> bool) l x :
  In x (remove_first p l) -> In x l.
Proof.
  induction l as [|y l IH]; simpl; [done|].
  destruct (p y); simpl; [by right|]. intros [->|Hx]; [by left|right; auto].
Qed.

Lemma remove_first_NoDup (p : Task -> bool) l :
  NoDup (id <$> l) -> NoDup (id <$> remove_first p l).
Proof.
  induction l as [|y l IH]; simpl; [done|].
  rewrite NoDup_cons. intros [Hy Hnd].
  destruct (p y); [done|]. simpl. apply NoDup_cons. split; [|by apply IH].
  intros Hin. apply Hy. apply list_elem_of_fmap in Hin as (t & Ht & Hin).
  apply list_elem_of_fmap. exists t. split; [done|].
  apply list_elem_of_In. eapply remove_first_In. by apply list_elem_of_In.
Qed.

(** The primary-key invariant is kept by every operation of the store. *)
Lemma create_task_wf task user db :
  session_wf db -> session_wf (create_task task user db).1.
Proof.
  intros [Hnd Hlt]. unfold create_task, commit, py_append, session_wf. simpl.
  split.
  - rewrite fmap_app. simpl. apply NoDup_app. split; [done|]. split.
    + intros x Hx Hx'. apply list_elem_of_singleton in Hx'. subst x.
      apply list_elem_of_fmap in Hx as (t & Ht & Hin).
      rewrite Forall_forall in Hlt. specialize (Hlt _ Hin). simpl in Hlt. lia.
    + apply NoDup_singleton.
  - apply Forall_app. split.
    + eapply Forall_impl; [exact Hlt|]. simpl. intros; lia.
    + repeat constructor. simpl. lia.
Qed.

Lemma update_task_wf task_id upd user db :
  session_wf db -> session_wf (update_task task_id upd user db).1.
Proof.
  intros [Hnd Hlt]. unfold update_task.
  assert (Hkeep : forall f : Task -> Task, (forall x, id (f x) = id x) ->
            session_wf (MkSession (stored db)
                          (update_first (id_and_owner task_id user) f (objects db))
                          (next_id db))).
  { intros f Hf. split; simpl.
    - change (fmap id) with (map id). by rewrite map_update_first.
    - apply Forall_forall. intros x Hx.
      assert (Hm : id x ∈ map id (update_first (id_and_owner task_id user) f (objects db)))
        by (apply list_elem_of_In, in_map, list_elem_of_In, Hx).
      rewrite map_update_first in Hm by done.
      apply list_elem_of_In, in_map_iff in Hm as (y & Hy & Hin).
      rewrite Forall_forall in Hlt. apply list_elem_of_In in Hin.
      specialize (Hlt _ Hin). simpl in Hlt. lia. }
  destruct (get_task task_id user db) as [t|]; [|done].
  destruct (tu_state upd) as [ns|]; simpl.
  - destruct (validate_state_transition (state t) ns); simpl.
    + apply (Hkeep (fun t0 => assign_state ns (assign_basic_fields upd t0))). done.
    + apply (Hkeep (assign_basic_fields upd)). done.
  - apply (Hkeep (assign_basic_fields upd)). done.
Qed.

Lemma delete_task_wf task_id user db :
  session_wf db -> session_wf (delete_task task_id user db).1.
Proof.
  intros [Hnd Hlt]. unfold delete_task.
  destruct (get_task task_id user db) as [t|]; [|done].
  split; simpl.
  - by apply remove_first_NoDup.
  - apply Forall_forall. intros x Hx. rewrite Forall_forall in Hlt.
    apply Hlt. apply list_elem_of_In. eapply remove_first_In.
    by apply list_elem_of_In.
Qed.

End Invariant.

Section Disambiguation.

Context `{Runtime}.

(** The general rule behind the disambiguation example: when the title of
    an [update_state] or [delete] descriptor matches more than one task of
    the user, the dispatch fails with a message that lists the titles of
    all the matches, and the session is returned as it was. *)
Lemma ambiguous_reference_is_refused (d : descriptor) user db act ttl t1 t2 more :
  d !! "action" = Some (VStr act) ->
  act = "update_state" \/ act = "delete" ->
  get_stripped "task_title" d = Ok ttl ->
  nonempty ttl = true ->
  search_tasks_by_title ttl user db = t1 :: t2 :: more ->
  execute_action d user db
  = (db, failure ("Multiple tasks found: " ++ join ", " (map title (t1 :: t2 :: more)) ++
                  ". Please be more specific.")).
Proof.
  intros Ha Hact Ht Hne Hs. unfold execute_action, execute_body.
  rewrite Ha. destruct Hact as [-> | ->]; simpl; rewrite Ht, Hne; simpl;
    by rewrite Hs.
Qed.

(** The transition guard as the dispatcher shows it: an [update_state]
    descriptor whose title matches one task and whose target state is not
    the next step of that task is answered with the store's error, and the
    session is returned as it was. *)
Lemma rejected_transition_through_dispatch (d : descriptor) user db ttl t ns :
  d !! "action" = Some (VStr "update_state") ->
  get_stripped "task_title" d = Ok ttl ->
  nonempty ttl = true ->
  search_tasks_by_title ttl user db = [t] ->
  get_task (id t) user db = Some t ->
  TaskState_of (default VNone (d !! "new_state")) = Some ns ->
  ~ chain_step (state t) ns ->
  execute_action d user db
  = (db, failure ("Error: " ++
                  exc_text (HTTPException 400
                              (invalid_transition_detail (state t) ns)))).
Proof.
  intros Ha Ht Hne Hs Hg Hns Hbad. unfold execute_action, execute_body.
  rewrite Ha. simpl. rewrite Ht, Hne. simpl. rewrite Hs, Hns.
  pose proof (update_task_rejects db (id t) user t ns Hg Hbad) as [H1 H2].
  destruct (update_task (id t) (state_update ns) user db) as [db' r].
  simpl in H1, H2. by subst.
Qed.

End Disambiguation.

(* ===================================================================== *)
(** * The life of a row across store calls                                *)
(* ===================================================================== *)

Section Lifecycle.

Implicit Types (db : Session) (t : Task) (l : list Task) (p : Task -> bool).

Lemma update_first_In p (f : Task -> Task) l y :
  In y (update_first p f l) ->
  In y l \/ exists x, List.find p l = Some x /\ y = f x.
Proof.
  induction l as [|x l IH]; simpl; [done|].
  destruct (p x) eqn:Hp; simpl.
  - intros [<-|Hy]; [right; eauto|left; by right].
  - intros [<-|Hy]; [left; by left|].
    destruct (IH Hy) as [?|?]; [left; by right|by right].
Qed.

Lemma find_app p l1 l2 :
  List.find p (l1 ++ l2)%list =
  match List.find p l1 with
  | Some x => Some x
  | None => List.find p l2
  end.
Proof.
  induction l1 as [|x l1 IH]; simpl; [done|]. by destruct (p x).
Qed.

Lemma find_none_ids task_id user l :
  Forall (fun t => id t <> task_id) l ->
  List.find (id_and_owner task_id user) l = None.
Proof.
  induction 1 as [|x l Hx _ IH]; simpl; [done|].
  unfold id_and_owner at 1. destruct (id x =? task_id) eqn:He; [lia|]. done.
Qed.

Lemma valid_transition_rank s s' :
  validate_state_transition s s' = true -> state_rank s' = S (state_rank s).
Proof. by destruct s, s'. Qed.

(** One call: every row it leaves either descends from a row with the same
    id and owner and a state at most as advanced, or is the new row. *)
Lemma run_call_rows c db t1 :
  In t1 (objects (run_call c db)) ->
  (exists t, In t (objects db) /\ id t = id t1 /\ user_id t = user_id t1 /\
             (state_rank (state t) <= state_rank (state t1))%nat) \/
  id t1 = next_id db.
Proof.
  assert (Hself : In t1 (objects db) ->
            exists t, In t (objects db) /\ id t = id t1 /\ user_id t = user_id t1 /\
                      (state_rank (state t) <= state_rank (state t1))%nat)
    by (intros; exists t1; repeat split; auto).
  destruct c as [task user|task_id upd user|task_id user]; simpl.
  - unfold py_append. rewrite in_app_iff. simpl.
    intros [Hin|[<-|[]]]; [left; auto|by right].
  - unfold update_task.
    destruct (get_task task_id user db) as [t|] eqn:Hg; [|left; auto].
    pose proof (get_task_Some _ _ _ _ Hg) as (Hin & _ & _).
    unfold get_task in Hg.
    destruct (tu_state upd) as [ns|]; simpl.
    + destruct (validate_state_transition (state t) ns) eqn:Hv; simpl;
        intros Hy; apply update_first_In in Hy as [Hy|(x & Hx & ->)];
        try (left; by auto); left.
      * rewrite Hg in Hx. injection Hx as <-. exists t. repeat split; [done|].
        simpl. rewrite (valid_transition_rank _ _ Hv). lia.
      * rewrite Hg in Hx. injection Hx as <-. exists t. by repeat split.
    + intros Hy. apply update_first_In in Hy as [Hy|(x & Hx & ->)]; left; [auto|].
      rewrite Hg in Hx. injection Hx as <-. exists t. by repeat split.
  - unfold delete_task.
    destruct (get_task task_id user db) as [t|]; simpl; [|left; auto].
    intros Hy. left. apply Hself. by eapply remove_first_In.
Qed.

Lemma run_call_next_id c db : next_id db <= next_id (run_call c db).
Proof.
  destruct c as [task user|task_id upd user|task_id user]; simpl.
  - lia.
  - unfold update_task. destruct (get_task task_id user db); [|simpl; lia].
    destruct (tu_state upd) as [ns|]; simpl; [|lia].
    destruct (validate_state_transition _ ns); simpl; lia.
  - unfold delete_task. destruct (get_task task_id user db); simpl; lia.
Qed.

Lemma run_call_wf c db : session_wf db -> session_wf (run_call c db).
Proof.
  destruct c; simpl;
    [apply create_task_wf|apply update_task_wf|apply delete_task_wf].
Qed.

Lemma run_calls_wf cs db : session_wf db -> session_wf (run_calls cs db).
Proof.
  revert db. induction cs as [|c cs IH]; intros db Hwf; simpl; [done|].
  apply IH, run_call_wf, Hwf.
Qed.

End Lifecycle.

Section KeyPolicy.

Implicit Types (db : Session) (t : Task) (c : store_call).

(** A call that is no [delete_task] keeps a row under every id. *)
Lemma run_call_keeps_ids c db t :
  is_delete c = false -> In t (objects db) ->
  exists t2, In t2 (objects (run_call c db)) /\ id t2 = id t.
Proof.
  intros Hc Hin. destruct c as [task user|task_id upd user|task_id user];
    [| |discriminate]; simpl.
  - exists t. split; [|done]. unfold py_append. apply in_or_app. by left.
  - assert (Hids : map id (objects (update_task task_id upd user db).1)
                   = map id (objects db)).
    { unfold update_task. destruct (get_task task_id user db) as [t0|]; [|done].
      destruct (tu_state upd) as [ns|]; simpl;
        [destruct (validate_state_transition (state t0) ns); simpl|];
        apply map_update_first; intros x; by destruct x. }
    assert (Hid : In (id t) (map id (objects (update_task task_id upd user db).1)))
      by (rewrite Hids; by apply in_map).
    apply in_map_iff in Hid as (t2 & Hid & Hin2). eauto.
Qed.

(** The counter of the model is one of the choices the database has. *)
Lemma run_calls_runs_to cs db :
  session_wf db -> runs_to cs db (run_calls cs db).
Proof.
  revert db. induction cs as [|c cs IH]; intros db Hwf; simpl; [constructor|].
  apply (runs_cons c cs (next_id db)); [apply Hwf|].
  replace (MkSession (stored db) (objects db) (next_id db)) with db
    by (by destruct db).
  apply IH, run_call_wf, Hwf.
Qed.

End KeyPolicy.

(** X1.  Whatever calls of [create_task], [update_task] and [delete_task]
    are made on a session with unique primary keys, by whatever users and
    whatever unused key the database gives to each new row, the keys stay
    unique.  As long as no call is a [delete_task], a row that is there at
    the end under the id of an earlier row has the owner of that row and a
    state that is the same or further along the workflow: no call moves a
    task backwards, takes it out of Completed or gives it to another user.
    (After a [delete_task] a database may give the key of the deleted row
    to a new one, and the id then names another task.) *)
Theorem rows_only_move_forward :
  forall (cs : list store_call) (db db' : Session),
    NoDup (id <$> objects db) ->
    runs_to cs db db' ->
    NoDup (id <$> objects db') /\
    (forallb (fun c => negb (is_delete c)) cs = true ->
     forall t t', In t (objects db) -> In t' (objects db') ->
                  id t' = id t ->
                  user_id t' = user_id t /\
                  (state_rank (state t) <= state_rank (state t'))%nat /\
                  (state t = COMPLETED -> state t' = COMPLETED)).
Proof.
  intros cs db db' Hnd Hr. induction Hr as [db|c cs k db db' Hk Hr IH].
  - split; [done|]. intros _ t t' Hin Hin' Hid.
    assert (t' = t) as -> by (eapply NoDup_ids_inj; eauto). done.
  - set (db1 := MkSession (stored db) (objects db) k) in *.
    assert (Hwf1 : session_wf db1) by (split; [exact Hnd|exact Hk]).
    pose proof (run_call_wf c db1 Hwf1) as [Hnd2 _].
    destruct (IH Hnd2) as [Hnd' Hrows]. split; [done|].
    simpl. intros Hall. apply andb_prop in Hall as [Hc Hcs].
    apply negb_true_iff in Hc.
    intros t t' Hin Hin' Hid.
    destruct (run_call_keeps_ids c db1 t Hc Hin) as (t2 & Hin2 & Hid2).
    destruct (run_call_rows c db1 t2 Hin2) as [(t0 & H0 & Hid0 & Hu0 & Hr0)|Hn].
    + assert (t0 = t) as ->
        by (apply (NoDup_ids_inj (objects db)); [exact Hnd|exact H0|exact Hin|];
            congruence).
      destruct (Hrows Hcs t2 t' Hin2 Hin' ltac:(congruence)) as (Hu & Hrk & Hcp).
      split; [congruence|]. split; [lia|].
      intros Hst. apply Hcp. rewrite Hst in Hr0. simpl in Hr0.
      destruct (state t2); simpl in Hr0; try lia. done.
    + unfold fresh_key in Hk. rewrite Forall_forall in Hk.
      apply list_elem_of_In in Hin. specialize (Hk _ Hin). simpl in Hk, Hn. lia.
Qed.

Lemma two_user_db_wf : session_wf two_user_db.
Proof.
  split.
  - apply NoDup_cons. split; [|apply NoDup_singleton].
    intros Hx. apply list_elem_of_In in Hx. simpl in Hx.
    destruct Hx as [Hx|[]]. discriminate Hx.
  - repeat constructor.
Qed.

(** Witness for X1: accepted, rejected and unrelated calls on the session
    of two users, none of them a delete. *)
Lemma rows_only_move_forward_witness :
  NoDup (id <$> objects (run_calls [CallUpdate 1 (state_update IN_PROGRESS) 7;
                                    CallUpdate 1 (state_update NOT_STARTED) 7;
                                    CallCreate (plain_create "Slides") 8]
                           two_user_db)) /\
  (forall t t',
      In t (objects two_user_db) ->
      In t' (objects (run_calls [CallUpdate 1 (state_update IN_PROGRESS) 7;
                                 CallUpdate 1 (state_update NOT_STARTED) 7;
                                 CallCreate (plain_create "Slides") 8]
                        two_user_db)) ->
      id t' = id t ->
      user_id t' = user_id t /\
      (state_rank (state t) <= state_rank (state t'))%nat /\
      (state t = COMPLETED -> state t' = COMPLETED)).
Proof.
  pose proof (rows_only_move_forward
                [CallUpdate 1 (state_update IN_PROGRESS) 7;
                 CallUpdate 1 (state_update NOT_STARTED) 7;
                 CallCreate (plain_create "Slides") 8]
                two_user_db _ (proj1 two_user_db_wf)
                (run_calls_runs_to _ two_user_db two_user_db_wf)) as [Hn Hr].
  split; [exact Hn|exact (Hr eq_refl)].
Defined.

Section StoreRoundTrips.

Implicit Types (db : Session) (t : Task) (l : list Task).

Lemma filter_snoc (p : Task -> bool) l t :
  List.filter p (l ++ [t])%list =
  (List.filter p l ++ (if p t then [t] else []))%list.
Proof.
  induction l as [|x l IH]; simpl; [done|].
  rewrite IH. by destruct (p x).
Qed.

Lemma remove_first_unique task_id user l t :
  NoDup (id <$> l) ->
  List.find (id_and_owner task_id user) l = Some t ->
  remove_first (id_and_owner task_id user) l
  = List.filter (fun x => negb (id x =? task_id)) l.
Proof.
  induction l as [|x l IH]; simpl; [done|].
  rewrite NoDup_cons. intros [Hx Hnd].
  destruct (id_and_owner task_id user x) eqn:Hp.
  - intros _. unfold id_and_owner in Hp. apply andb_prop in Hp as [Hid _].
    rewrite Hid. simpl. symmetry. apply filter_all.
    apply Forall_forall. intros y Hy. apply negb_true_iff, Z.eqb_neq.
    intros Heq. apply Hx. apply Z.eqb_eq in Hid. rewrite Hid, <- Heq.
    by apply list_elem_of_fmap_2.
  - intros Hf. pose proof (find_some _ _ Hf) as [Hin Hpt].
    unfold id_and_owner in Hpt. apply andb_prop in Hpt as [Hidt _].
    apply Z.eqb_eq in Hidt.
    destruct (id x =? task_id) eqn:Hid; simpl.
    + exfalso. apply Hx. apply Z.eqb_eq in Hid. rewrite Hid, <- Hidt.
      apply list_elem_of_fmap_2. by apply list_elem_of_In.
    + f_equal. by apply IH.
Qed.

End StoreRoundTrips.

(** After a delete, a database that gives out one more than the largest
    key in the table gives the key of the deleted row to the next task,
    here to a task of another user. *)
Lemma deleted_key_can_return :
  exists db' : Session,
    runs_to [CallDelete 2 8; CallCreate (plain_create "Slides") 7] two_user_db db' /\
    In (sample_task 2 "Slides" NOT_STARTED 7) (objects db').
Proof.
  eexists. split.
  - apply (runs_cons _ _ 3); [repeat constructor|].
    apply (runs_cons _ _ 2); [repeat constructor|]. apply runs_nil.
  - simpl. right. left. reflexivity.
Qed.

(** X2.  In a session with unique primary keys, the task that
    [create_task] returns is found again by [get_task] under its id and
    its owner, is appended to the owner's listing, is committed, and
    changes no listing of any other user. *)
Theorem created_task_is_found :
  forall (db : Session) (task : TaskCreate) (user : Z),
    session_wf db ->
    let out := create_task task user db in
    get_task (id out.2) user out.1 = Some out.2 /\
    get_tasks user None out.1 = (get_tasks user None db ++ [out.2])%list /\
    stored out.1 = objects out.1 /\
    (forall other state_filter, other <> user ->
       get_tasks other state_filter out.1 = get_tasks other state_filter db).
Proof.
  intros db task user [Hnd Hlt] out. subst out.
  unfold create_task, commit, py_append, get_task, get_tasks. simpl.
  split; [|split; [|split; [done|]]].
  - rewrite find_app, find_none_ids.
    + simpl. unfold id_and_owner. simpl. by rewrite !Z.eqb_refl.
    + eapply Forall_impl; [exact Hlt|]. simpl. intros x Hx. lia.
  - rewrite filter_snoc. unfold owned_by at 2. simpl. by rewrite Z.eqb_refl.
  - intros other sf Hne.
    assert (Hb : (user =? other) = false) by (apply Z.eqb_neq; congruence).
    rewrite filter_snoc. unfold owned_by at 2 4 6. simpl.
    rewrite Hb, app_nil_r. done.
Qed.

(** Witness for X2: a third task in the session of two users. *)
Lemma created_task_is_found_witness :
  get_task 3 8 (create_task (plain_create "Slides") 8 two_user_db).1
  = Some (sample_task 3 "Slides" NOT_STARTED 8).
Proof.
  exact (proj1 (created_task_is_found two_user_db (plain_create "Slides") 8
                  two_user_db_wf)).
Defined.

(** X3.  In a session with unique primary keys, a [delete_task] that
    returns removes exactly the rows with that id (there is one), keeps
    every other row in place, commits, and leaves nothing for [get_task]
    to find: a second [delete_task] with the same arguments raises the 404
    error. *)
Theorem deleted_task_is_gone :
  forall (db : Session) (task_id user : Z),
    session_wf db ->
    (delete_task task_id user db).2 = Ok true ->
    let db' := (delete_task task_id user db).1 in
    objects db' = List.filter (fun t => negb (id t =? task_id)) (objects db) /\
    stored db' = objects db' /\
    get_task task_id user db' = None /\
    delete_task task_id user db' = (db', Raise not_found).
Proof.
  intros db task_id user [Hnd Hlt] Hok db'. subst db'.
  unfold delete_task in *.
  destruct (get_task task_id user db) as [t|] eqn:Hg; [|discriminate].
  simpl. unfold get_task in Hg.
  rewrite (remove_first_unique _ _ _ _ Hnd Hg).
  assert (Hnone : get_task task_id user
            (commit (MkSession (stored db)
               (List.filter (fun t0 => negb (id t0 =? task_id)) (objects db))
               (next_id db))) = None).
  { unfold get_task, commit. simpl. apply find_none_ids.
    apply Forall_forall. intros x Hx. apply list_elem_of_In, filter_In in Hx as [_ Hx].
    apply negb_true_iff, Z.eqb_neq in Hx. done. }
  split; [done|]. split; [done|]. split; [done|]. by rewrite Hnone.
Qed.

(** Witness for X3: user 7 deletes task 1. *)
Lemma deleted_task_is_gone_witness :
  objects (delete_task 1 7 two_user_db).1 = [sample_task 2 "Report" NOT_STARTED 8].
Proof.
  exact (proj1 (deleted_task_is_gone two_user_db 1 7 two_user_db_wf eq_refl)).
Defined.

(** X4.  [update_task], whether it returns or raises, keeps the ids, the
    owners, the number and the order of the rows, and leaves every row
    whose id is not the requested one exactly as it was. *)
Theorem update_task_touches_one_row :
  forall (db : Session) (task_id : Z) (upd : TaskUpdate) (user : Z),
    let db' := (update_task task_id upd user db).1 in
    map id (objects db') = map id (objects db) /\
    map user_id (objects db') = map user_id (objects db) /\
    next_id db' = next_id db /\
    List.filter (fun t => negb (id t =? task_id)) (objects db')
      = List.filter (fun t => negb (id t =? task_id)) (objects db).
Proof.
  intros db task_id upd user db'. subst db'.
  assert (Hframe : forall f : Task -> Task,
            (forall x, id (f x) = id x /\ user_id (f x) = user_id x) ->
            forall l,
              map id (update_first (id_and_owner task_id user) f l) = map id l /\
              map user_id (update_first (id_and_owner task_id user) f l)
                = map user_id l /\
              List.filter (fun t => negb (id t =? task_id))
                (update_first (id_and_owner task_id user) f l)
              = List.filter (fun t => negb (id t =? task_id)) l).
  { intros f Hf l. split; [|split].
    - apply map_update_first. intros x. apply Hf.
    - apply map_update_first. intros x. apply Hf.
    - induction l as [|x l IH]; simpl; [done|].
      destruct (id_and_owner task_id user x) eqn:Hp; simpl.
      + unfold id_and_owner in Hp. apply andb_prop in Hp as [Hid _].
        destruct (Hf x) as [-> _]. by rewrite Hid.
      + by rewrite IH. }
  unfold update_task.
  destruct (get_task task_id user db) as [t|]; [|done].
  destruct (tu_state upd) as [ns|]; simpl.
  - destruct (validate_state_transition (state t) ns); simpl.
    + destruct (Hframe (fun t0 => assign_state ns (assign_basic_fields upd t0))
                  ltac:(done) (objects db)) as (? & ? & ?). done.
    + destruct (Hframe (assign_basic_fields upd) ltac:(done) (objects db))
        as (? & ? & ?). done.
  - destruct (Hframe (assign_basic_fields upd) ltac:(done) (objects db))
      as (? & ? & ?). done.
Qed.

(** X5.  An [update_task] that returns never clears an optional field:
    [None] in the request means "keep", so a description, category, date,
    time or reminder that was set stays set; and a request with no field at
    all returns the row as it was. *)
Theorem update_task_never_clears :
  forall (db : Session) (task_id : Z) (upd : TaskUpdate) (user : Z) (t t' : Task),
    get_task task_id user db = Some t ->
    (update_task task_id upd user db).2 = Ok t' ->
    (is_Some (description t) -> is_Some (description t')) /\
    (is_Some (category t) -> is_Some (category t')) /\
    (is_Some (scheduled_date t) -> is_Some (scheduled_date t')) /\
    (is_Some (scheduled_time t) -> is_Some (scheduled_time t')) /\
    (is_Some (due_date t) -> is_Some (due_date t')) /\
    (is_Some (due_time t) -> is_Some (due_time t')) /\
    (is_Some (reminder_time t) -> is_Some (reminder_time t')) /\
    (upd = empty_update -> t' = t).
Proof.
  intros db task_id upd user t t' Hg. unfold update_task. rewrite Hg.
  assert (Hkeep : forall (A : Type) (n o : option A),
            is_Some o -> is_Some (or_keep_opt n o))
    by (intros A [x|] o Ho; simpl; eauto).
  destruct (tu_state upd) as [ns|] eqn:Hs; simpl.
  - destruct (validate_state_transition (state t) ns); simpl; [|discriminate].
    intros [= <-]. simpl. repeat split; try apply Hkeep.
    intros ->. discriminate.
  - intros [= <-]. simpl. repeat split; try apply Hkeep.
    intros ->. by destruct t.
Qed.

(** Witness for X5: an empty request on task 1 of user 7. *)
Lemma update_task_never_clears_witness :
  get_task 1 7 two_user_db = Some (sample_task 1 "Report" NOT_STARTED 7) /\
  (update_task 1 empty_update 7 two_user_db).2
    = Ok (sample_task 1 "Report" NOT_STARTED 7) /\
  (empty_update = empty_update ->
   sample_task 1 "Report" NOT_STARTED 7 = sample_task 1 "Report" NOT_STARTED 7).
Proof.
  split; [reflexivity|]. split; [reflexivity|].
  exact (proj2 (proj2 (proj2 (proj2 (proj2 (proj2 (proj2
           (update_task_never_clears two_user_db 1 empty_update 7
              (sample_task 1 "Report" NOT_STARTED 7)
              (sample_task 1 "Report" NOT_STARTED 7) eq_refl eq_refl)))))))).
Defined.

(** X6.  A rejected transition is not all-or-nothing inside the session:
    [update_task] assigns the other fields of the request to the loaded row
    before it checks the transition, so after the 400 error the session
    shows the row with the new title although nothing was committed, and
    the next [commit()] on the same session (here the one of
    [create_task]) stores it. *)
Theorem rejected_update_leaves_pending_fields :
  forall (db : Session) (task_id user : Z) (t : Task) (upd : TaskUpdate)
         (new_state : TaskState) (new_title : string),
    get_task task_id user db = Some t ->
    tu_state upd = Some new_state ->
    tu_title upd = Some new_title ->
    ~ chain_step (state t) new_state ->
    let db' := (update_task task_id upd user db).1 in
    stored db' = stored db /\
    get_task task_id user db' = Some (assign_basic_fields upd t) /\
    title (assign_basic_fields upd t) = new_title /\
    (forall task other,
        In (assign_basic_fields upd t) (stored (create_task task other db').1)).
Proof.
  intros db task_id user t upd ns new_title Hg Hs Ht Hbad db'. subst db'.
  unfold update_task. rewrite Hg, Hs.
  destruct (validate_state_transition (state t) ns) eqn:Hv.
  { apply is_valid_transition_chain in Hv. contradiction. }
  simpl.
  assert (Hfind : List.find (id_and_owner task_id user)
             (update_first (id_and_owner task_id user) (assign_basic_fields upd)
                (objects db)) = Some (assign_basic_fields upd t)).
  { rewrite find_update_first; [unfold get_task in Hg; by rewrite Hg|].
    intros x Hx. exact Hx. }
  split; [done|]. split; [exact Hfind|]. split; [simpl; by rewrite Ht|].
  intros task other. unfold create_task, commit, py_append. simpl.
  apply in_or_app. left. by apply find_some in Hfind as [? _].
Qed.

(** Witness for X6: a completed task asked to go back, with a new title. *)
Lemma rejected_update_leaves_pending_fields_witness :
  title <$> get_task 1 7
              (update_task 1 (retitle_and_move "Draft" IN_PROGRESS) 7 completed_db).1
  = Some "Draft" /\
  stored (update_task 1 (retitle_and_move "Draft" IN_PROGRESS) 7 completed_db).1
  = stored completed_db.
Proof.
  destruct (rejected_update_leaves_pending_fields completed_db 1 7
              (sample_task 1 "Report" COMPLETED 7)
              (retitle_and_move "Draft" IN_PROGRESS) IN_PROGRESS "Draft"
              eq_refl eq_refl eq_refl)
    as (Hst & Hget & _).
  { intros [[? ?]|[? ?]]; discriminate. }
  split; [by rewrite Hget|exact Hst].
Defined.

Section Listings.

Context `{Runtime}.

Lemma filter_three_states (l : list Task) :
  length l =
  (length (List.filter (fun t => bool_decide (state t = NOT_STARTED)) l) +
   length (List.filter (fun t => bool_decide (state t = IN_PROGRESS)) l) +
   length (List.filter (fun t => bool_decide (state t = COMPLETED)) l))%nat.
Proof.
  induction l as [|x l IH]; simpl; [done|].
  destruct (state x); simpl; lia.
Qed.

Lemma filter_filter_sublist (p q : Task -> bool) (l : list Task) :
  List.filter (fun t => p t && q t) l `sublist_of` List.filter p l.
Proof.
  induction l as [|x l IH]; simpl; [done|].
  destruct (p x); simpl; [|done].
  destruct (q x); [by apply sublist_skip|by apply sublist_cons].
Qed.

End Listings.

(** X7.  [get_tasks] with a state returns exactly the caller's rows in
    that state, and the three filtered listings split the unfiltered one:
    their lengths add up to its length. *)
Theorem get_tasks_partitions_by_state :
  forall (db : Session) (user : Z),
    (forall st t, In t (get_tasks user (Some st) db) <->
                  In t (objects db) /\ user_id t = user /\ state t = st) /\
    (forall t, In t (get_tasks user None db) <->
               In t (objects db) /\ user_id t = user) /\
    length (get_tasks user None db) =
      (length (get_tasks user (Some NOT_STARTED) db) +
       length (get_tasks user (Some IN_PROGRESS) db) +
       length (get_tasks user (Some COMPLETED) db))%nat.
Proof.
  intros db user.
  assert (Hown : forall t, owned_by user t = true <-> user_id t = user)
    by (intros t; unfold owned_by; apply Z.eqb_eq).
  split; [|split].
  - intros st t. unfold get_tasks.
    assert (Hne : nonempty (state_value st) = true) by (by destruct st).
    rewrite Hne, !filter_In, Hown, bool_decide_eq_true. tauto.
  - intros t. unfold get_tasks. rewrite filter_In, Hown. tauto.
  - unfold get_tasks. simpl. apply filter_three_states.
Qed.

(** X8.  Every hit of [search_tasks_by_title] is a row that [get_tasks]
    lists for the same user, and the hits come in the order of that
    listing. *)
Theorem search_hits_are_listed :
  forall (R : Runtime) (db : Session) (user : Z) (pattern : string),
    search_tasks_by_title pattern user db `sublist_of` get_tasks user None db.
Proof.
  intros R db user pattern. unfold search_tasks_by_title, get_tasks.
  apply filter_filter_sublist.
Qed.

(* ===================================================================== *)
(** * What a dispatched command can and cannot do                         *)
(* ===================================================================== *)

Section DispatchEffects.

Context `{Runtime}.

Implicit Types (d : descriptor) (db : Session).

Lemma update_task_state_only_raise db task_id ns user db' e :
  update_task task_id (state_update ns) user db = (db', Raise e) -> db' = db.
Proof.
  unfold update_task.
  destruct (get_task task_id user db) as [t|]; [|by intros [= <-]].
  simpl. destruct (validate_state_transition (state t) ns); simpl; [done|].
  intros [= <- _].
  rewrite update_first_same by apply assign_basic_fields_state_only.
  by destruct db.
Qed.

Lemma delete_task_raise db task_id user db' e :
  delete_task task_id user db = (db', Raise e) -> db' = db.
Proof.
  unfold delete_task. destruct (get_task task_id user db); [done|].
  by intros [= <-].
Qed.

End DispatchEffects.

(** X9.  As long as the store can hold the integers in play, a command
    that is answered with [success = false] has changed nothing: for every
    descriptor and session, when the caller's id, the reminders of the rows
    in the session and the reminder that a create descriptor carries fit a
    64-bit integer column, a failed response comes with the session exactly
    as it was.  (Beyond 64 bits the database driver raises when the row is
    written, a failure that is left out here.) *)
Theorem failed_command_changes_nothing :
  forall (R : Runtime) (d : descriptor) (user : Z) (db : Session),
    int64 user ->
    reminders_fit db ->
    (forall v n, present "reminder_time" d = Some v -> py_int v = Ok n -> int64 n) ->
    success (execute_action d user db).2 = false ->
    (execute_action d user db).1 = db.
Proof.
  intros R d user db _ _ _. unfold execute_action, execute_body.
  repeat case_match; simplify_eq/=; try done;
    eauto using update_task_state_only_raise, delete_task_raise.
Qed.

(** Witness for X9: a completed task asked to go back through a command. *)
Lemma failed_command_changes_nothing_witness :
  (execute_action (H := sample_runtime) (move_descriptor "Report" "In Progress")
     7 completed_db).1 = completed_db.
Proof.
  refine (failed_command_changes_nothing sample_runtime
            (move_descriptor "Report" "In Progress") 7 completed_db _ _ _ eq_refl).
  - unfold int64. lia.
  - constructor; [intros m Hm; discriminate Hm|constructor].
  - intros v n Hv. vm_compute in Hv. discriminate Hv.
Defined.

Section Isolation.

Implicit Types (db : Session) (l : list Task).

Lemma foreign_update_first user task_id (f : Task -> Task) l :
  (forall x, user_id (f x) = user_id x) ->
  foreign_rows user (update_first (id_and_owner task_id user) f l)
  = foreign_rows user l.
Proof.
  intros Hf. unfold foreign_rows.
  induction l as [|x l IH]; simpl; [done|].
  destruct (id_and_owner task_id user x) eqn:Hp; simpl.
  - unfold id_and_owner in Hp. apply andb_prop in Hp as [_ Ho].
    unfold owned_by. rewrite Hf, Ho. done.
  - by rewrite IH.
Qed.

Lemma foreign_remove_first user task_id l :
  foreign_rows user (remove_first (id_and_owner task_id user) l)
  = foreign_rows user l.
Proof.
  unfold foreign_rows. induction l as [|x l IH]; simpl; [done|].
  destruct (id_and_owner task_id user x) eqn:Hp; simpl.
  - unfold id_and_owner in Hp. apply andb_prop in Hp as [_ Ho].
    unfold owned_by. by rewrite Ho.
  - by rewrite IH.
Qed.

Lemma create_task_foreign task user db :
  foreign_rows user (objects (create_task task user db).1)
  = foreign_rows user (objects db).
Proof.
  unfold create_task, commit, py_append, foreign_rows. simpl.
  rewrite filter_snoc. unfold owned_by at 2. simpl.
  by rewrite Z.eqb_refl, app_nil_r.
Qed.

Lemma update_task_foreign task_id upd user db :
  foreign_rows user (objects (update_task task_id upd user db).1)
  = foreign_rows user (objects db).
Proof.
  unfold update_task. destruct (get_task task_id user db) as [t|]; [|done].
  destruct (tu_state upd) as [ns|]; simpl.
  - destruct (validate_state_transition (state t) ns); simpl;
      by apply foreign_update_first.
  - by apply foreign_update_first.
Qed.

Lemma delete_task_foreign task_id user db :
  foreign_rows user (objects (delete_task task_id user db).1)
  = foreign_rows user (objects db).
Proof.
  unfold delete_task. destruct (get_task task_id user db) as [t|]; [|done].
  simpl. apply foreign_remove_first.
Qed.

End Isolation.

(** X10.  No command reaches another user's data: for every descriptor,
    the rows that do not belong to the caller are the same, in the same
    order, before and after the dispatch, and every task that a response
    carries belongs to the caller. *)
Theorem commands_are_confined_to_the_caller :
  forall (R : Runtime) (d : descriptor) (user : Z) (db : Session),
    foreign_rows user (objects (execute_action d user db).1)
      = foreign_rows user (objects db) /\
    (forall ts, tasks (execute_action d user db).2 = Some ts ->
                Forall (fun t => user_id t = user) ts).
Proof.
  intros R d user db. split.
  - unfold execute_action, execute_body.
    repeat case_match; simplify_eq/=; try done;
      match goal with
      | Hc : ?call = (?s, _) |- context [objects ?s] =>
          replace s with call.1 by (by rewrite Hc)
      end;
      first [apply create_task_foreign | apply update_task_foreign
            | apply delete_task_foreign].
  - intros ts. unfold execute_action, execute_body.
    repeat case_match; simplify_eq/=; try done; intros [= <-];
      try (by constructor);
      apply Forall_forall; intros x Hx; apply list_elem_of_In in Hx;
      match goal with
      | Hg : _ = ?a :: ?b |- _ => rewrite <- Hg in Hx
      end;
      match goal with
      | Hs : TaskState_of _ = Some ?st |- _ =>
          exact (proj2 (get_tasks_owned user (Some st) _ x Hx))
      | _ => exact (proj2 (get_tasks_owned user None _ x Hx))
      end.
Qed.

Lemma commands_are_confined_to_the_caller_witness :
  Forall (fun t => user_id t = 7) [sample_task 1 "Report" NOT_STARTED 7].
Proof.
  exact (proj2 (commands_are_confined_to_the_caller sample_runtime
                  (<["action" := VStr "list"]> ∅) 7 two_user_db)
           [sample_task 1 "Report" NOT_STARTED 7] eq_refl).
Defined.

Section StoreSteps.

Implicit Types (db : Session) (t : Task).

(** An accepted state-only request: the returned row, the row found
    afterwards, and the commit. *)
Lemma accepted_state_update db task_id user t ns :
  get_task task_id user db = Some t ->
  chain_step (state t) ns ->
  (update_task task_id (state_update ns) user db).2 = Ok (assign_state ns t) /\
  get_task task_id user (update_task task_id (state_update ns) user db).1
    = Some (assign_state ns t) /\
  stored (update_task task_id (state_update ns) user db).1
    = objects (update_task task_id (state_update ns) user db).1.
Proof.
  intros Hg Hstep. apply is_valid_transition_chain in Hstep.
  unfold update_task. rewrite Hg. simpl.
  unfold validate_state_transition. rewrite Hstep. simpl.
  rewrite assign_basic_fields_state_only. split; [done|]. split; [|done].
  unfold get_task, commit. simpl. rewrite find_update_first.
  - unfold get_task in Hg. rewrite Hg. simpl.
    by rewrite assign_basic_fields_state_only.
  - intros x Hx. exact Hx.
Qed.

Lemma enum_lookup_state ns :
  TaskState_of (VStr (state_value ns)) = Some ns /\ py_str (VStr (state_value ns)) = state_value ns.
Proof. by destruct ns. Qed.

Lemma deleted_task_rows db task_id user t :
  session_wf db ->
  get_task task_id user db = Some t ->
  (delete_task task_id user db).2 = Ok true /\
  objects (delete_task task_id user db).1
    = List.filter (fun x => negb (id x =? task_id)) (objects db) /\
  stored (delete_task task_id user db).1 = objects (delete_task task_id user db).1.
Proof.
  intros [Hnd _] Hg. unfold delete_task. rewrite Hg. simpl.
  unfold get_task in Hg. by rewrite (remove_first_unique _ _ _ _ Hnd Hg).
Qed.

Lemma office_db_wf : session_wf office_db.
Proof.
  split.
  - apply NoDup_cons. split; [|apply NoDup_singleton].
    intros Hx. apply list_elem_of_In in Hx. simpl in Hx.
    destruct Hx as [Hx|[]]. discriminate Hx.
  - repeat constructor.
Qed.

End StoreSteps.
(** X11.  [chat] and [list] read and never write.  A chat descriptor is
    always answered with success and one of the three canned texts,
    whatever its [message]; a list descriptor returns the session as it was
    and, unless its state filter is not a state, succeeds with exactly the
    rows that [get_tasks] gives for the caller and that state. *)
Theorem chat_and_list_are_read_only :
  forall (R : Runtime) (d : descriptor) (user : Z) (db : Session),
    (d !! "action" = Some (VStr "chat") ->
     exists text, In text [greeting_message; help_message; general_message] /\
       execute_action d user db = (db, MkResponse true text None None None)) /\
    (d !! "action" = Some (VStr "list") ->
     (execute_action d user db).1 = db /\
     match d !! "state_filter" with
     | Some v =>
         if truthy v then
           match TaskState_of v with
           | Some st =>
               success (execute_action d user db).2 = true /\
               tasks (execute_action d user db).2
                 = Some (get_tasks user (Some st) db)
           | None =>
               (execute_action d user db).2
                 = failure ("Invalid state filter: " ++ py_str v)
           end
         else
           success (execute_action d user db).2 = true /\
           tasks (execute_action d user db).2 = Some (get_tasks user None db)
     | None =>
         success (execute_action d user db).2 = true /\
         tasks (execute_action d user db).2 = Some (get_tasks user None db)
     end).
Proof.
  intros R d user db. split; intros Ha; unfold execute_action, execute_body;
    rewrite Ha; cbn -[get_tasks].
  - destruct (eq_str (default (VStr "general") (d !! "message")) "greeting").
    { eexists. split; [|reflexivity]. simpl. auto. }
    destruct (eq_str (default (VStr "general") (d !! "message")) "help");
      eexists; (split; [|reflexivity]); simpl; auto.
  - destruct (d !! "state_filter") as [v|]; [destruct (truthy v) eqn:Hv|].
    + destruct (TaskState_of v) as [st|]; [|done].
      destruct (get_tasks user (Some st) db) eqn:Hg; cbn; done.
    + destruct (get_tasks user None db) eqn:Hg; cbn; done.
    + destruct (get_tasks user None db) eqn:Hg; cbn; done.
Qed.

(** Witness for X11: user 7 lists the tasks that are in progress. *)
Lemma chat_and_list_are_read_only_witness :
  (execute_action (H := sample_runtime)
     (<["state_filter" := VStr "In Progress"]> (<["action" := VStr "list"]> ∅))
     7 office_db).1 = office_db.
Proof.
  exact (proj1 (proj2 (chat_and_list_are_read_only sample_runtime
                         (<["state_filter" := VStr "In Progress"]>
                            (<["action" := VStr "list"]> ∅)) 7 office_db)
                  eq_refl)).
Defined.

(** X12.  The three actions that need a title refuse to run without one:
    when [task_title] is missing or blank, create, update_state and delete
    answer with the failure that asks for the title; when it is not a
    string, they answer with the error of the missing [strip] method.  The
    store is not consulted and the session is returned as it was. *)
Theorem title_is_required :
  forall (R : Runtime) (d : descriptor) (user : Z) (db : Session) (act : string),
    d !! "action" = Some (VStr act) ->
    In act ["create"; "update_state"; "delete"] ->
    match d !! "task_title" with
    | None => execute_action d user db = (db, failure (title_request act))
    | Some (VStr s) =>
        strip s = EmptyString ->
        execute_action d user db = (db, failure (title_request act))
    | Some v =>
        execute_action d user db
        = (db, failure ("Error: " ++ exc_text (AttributeError (type_name v) "strip")))
    end.
Proof.
  intros R d user db act Ha Hact.
  unfold execute_action, execute_body, get_stripped. rewrite Ha.
  simpl in Hact.
  destruct Hact as [<-|[<-|[<-|[]]]]; simpl;
    (destruct (d !! "task_title") as [[| | |s|]|]; simpl; try done;
     intros ->; done).
Qed.

(** Witness for X12: a delete command whose title is only blanks. *)
Lemma title_is_required_witness :
  execute_action (H := sample_runtime) (delete_descriptor "   ") 7 office_db
  = (office_db, failure "Please specify which task to delete.").
Proof.
  exact (title_is_required sample_runtime (delete_descriptor "   ") 7 office_db
           "delete" eq_refl (or_intror (or_intror (or_introl eq_refl))) eq_refl).
Defined.

(** X13.  A state is looked up by its exact label and a priority by its
    exact name: [TaskState_of] and [TaskPriority_of] invert [.value], and
    they accept nothing else, so a label in another case or a value that is
    not a string is refused. *)
Theorem enum_lookup_is_exact :
  (forall s, TaskState_of (VStr (state_value s)) = Some s) /\
  (forall v s, TaskState_of v = Some s -> v = VStr (state_value s)) /\
  (forall p, TaskPriority_of (VStr (priority_value p)) = Some p) /\
  (forall v p, TaskPriority_of v = Some p -> v = VStr (priority_value p)).
Proof.
  split; [by intros []|]. split.
  - intros [| | |x|] s; simpl; try done.
    repeat match goal with
           | |- context [String.eqb x ?l] =>
               destruct (String.eqb x l) eqn:E;
               [apply String.eqb_eq in E as ->; by intros [= <-]|clear E]
           end.
    done.
  - split; [by intros []|].
    intros [| | |x|] p; simpl; try done.
    repeat match goal with
           | |- context [String.eqb x ?l] =>
               destruct (String.eqb x l) eqn:E;
               [apply String.eqb_eq in E as ->; by intros [= <-]|clear E]
           end.
    done.
Qed.

Lemma enum_lookup_is_exact_witness :
  VStr "Completed" = VStr (state_value COMPLETED) /\
  VStr "URGENT" = VStr (priority_value URGENT).
Proof.
  split.
  - exact (proj1 (proj2 enum_lookup_is_exact) (VStr "Completed") COMPLETED eq_refl).
  - exact (proj2 (proj2 (proj2 enum_lookup_is_exact)) (VStr "URGENT") URGENT eq_refl).
Defined.

Section SingleMatch.

Context `{Runtime}.

(** With unique primary keys, a hit of the title search is the row that
    [get_task] finds under the id of the hit. *)
Lemma search_hit_is_found ttl user db t :
  session_wf db ->
  In t (search_tasks_by_title ttl user db) ->
  get_task (id t) user db = Some t.
Proof.
  intros [Hnd _] Hin. apply search_owned in Hin as [Hin Hu].
  destruct (get_task (id t) user db) as [t'|] eqn:Hg.
  - apply get_task_Some in Hg as (Hin' & Hid & _).
    f_equal. eapply NoDup_ids_inj; eauto.
  - unfold get_task in Hg. eapply find_none in Hg; [|exact Hin].
    unfold id_and_owner in Hg. rewrite Z.eqb_refl in Hg. simpl in Hg. lia.
Qed.

End SingleMatch.

(** X14.  A command that names exactly one task acts on that task.  In a
    session with unique primary keys, when the title search of an
    update_state descriptor has a single hit and the requested state is
    the next step of that task, the dispatch succeeds, the row is found
    afterwards in the new state with all its other fields, and the change
    is committed; when the single hit is that of a delete descriptor, the
    row is removed, every other row stays, and the response reports the id
    and the title of the deleted task. *)
Theorem single_match_is_acted_on :
  forall (R : Runtime) (d : descriptor) (user : Z) (db : Session)
         (ttl : string) (t : Task),
    session_wf db ->
    get_stripped "task_title" d = Ok ttl ->
    nonempty ttl = true ->
    search_tasks_by_title ttl user db = [t] ->
    (forall ns,
        d !! "action" = Some (VStr "update_state") ->
        d !! "new_state" = Some (VStr (state_value ns)) ->
        chain_step (state t) ns ->
        (execute_action d user db).2
          = MkResponse true
              ("Updated '" ++ title t ++ "' to '" ++ state_value ns ++ "'")
              (Some "update_state") (Some (id t)) None /\
        get_task (id t) user (execute_action d user db).1
          = Some (assign_state ns t) /\
        stored (execute_action d user db).1 = objects (execute_action d user db).1) /\
    (d !! "action" = Some (VStr "delete") ->
     (execute_action d user db).2
       = MkResponse true ("Deleted task: '" ++ title t ++ "'")
           (Some "delete") (Some (id t)) None /\
     objects (execute_action d user db).1
       = List.filter (fun x => negb (id x =? id t)) (objects db) /\
     stored (execute_action d user db).1 = objects (execute_action d user db).1).
Proof.
  intros R d user db ttl t Hwf Ht Hne Hs.
  assert (Hg : get_task (id t) user db = Some t).
  { apply (search_hit_is_found ttl); [done|]. rewrite Hs. by left. }
  split.
  - intros ns Ha Hn Hstep.
    destruct (accepted_state_update db (id t) user t ns Hg Hstep)
      as (Hout & Hfind & Hst).
    destruct (enum_lookup_state ns) as [Hlook _].
    unfold execute_action, execute_body. rewrite Ha, Ht, Hn, Hs.
    cbn -[TaskState_of update_task]. rewrite Hne. cbn -[TaskState_of update_task].
    rewrite Hlook.
    destruct (update_task (id t) (state_update ns) user db) as [db' r].
    simpl in *. subst r. simpl. done.
  - intros Ha.
    pose proof (deleted_task_rows db (id t) user t Hwf Hg) as (Hr & Ho & Hst).
    unfold execute_action, execute_body. rewrite Ha, Ht, Hs.
    cbn -[delete_task]. rewrite Hne. cbn -[delete_task].
    destruct (delete_task (id t) user db) as [db' r].
    simpl in *. subst r. done.
Qed.

(** Witness for X14: user 7 starts the only task titled "Report". *)
Lemma single_match_is_acted_on_witness :
  get_task 1 7
    (execute_action (H := sample_runtime) (move_descriptor "Report" "In Progress")
       7 office_db).1
  = Some (sample_task 1 "Report" IN_PROGRESS 7).
Proof.
  refine (proj1 (proj2 (proj1 (single_match_is_acted_on sample_runtime
            (move_descriptor "Report" "In Progress") 7 office_db "Report"
            (sample_task 1 "Report" NOT_STARTED 7) office_db_wf eq_refl eq_refl eq_refl)
            IN_PROGRESS eq_refl eq_refl _))).
  left. split; reflexivity.
Defined.

(** X15.  The dispatcher writes to the store only through [TaskService]:
    for every descriptor, the session after the dispatch is the session
    after at most one call of [create_task], [update_task] or
    [delete_task], made for the caller, an update carrying a state and
    nothing else.  So every command keeps the primary keys unique and moves
    no task backwards. *)
Theorem dispatch_goes_through_the_service :
  forall (R : Runtime) (d : descriptor) (user : Z) (db : Session),
    (exists cs : list store_call,
        (length cs <= 1)%nat /\
        Forall (fun c => call_user c = user /\ dispatcher_call c) cs /\
        (execute_action d user db).1 = run_calls cs db) /\
    (session_wf db -> session_wf (execute_action d user db).1).
Proof.
  intros R d user db.
  assert (Hex : exists cs : list store_call,
             (length cs <= 1)%nat /\
             Forall (fun c => call_user c = user /\ dispatcher_call c) cs /\
             (execute_action d user db).1 = run_calls cs db).
  { assert (Hnone : forall db0 : Session, exists cs : list store_call,
               (length cs <= 1)%nat /\
               Forall (fun c => call_user c = user /\ dispatcher_call c) cs /\
               db0 = run_calls cs db0).
    { intros db0. exists []. split; [simpl; lia|]. split; [apply Forall_nil_2|done]. }
    assert (Hone : forall (c : store_call) (s : Session),
               call_user c = user -> dispatcher_call c -> s = run_call c db ->
               exists cs : list store_call,
                 (length cs <= 1)%nat /\
                 Forall (fun c => call_user c = user /\ dispatcher_call c) cs /\
                 s = run_calls cs db).
    { intros c s Hu Hd ->. exists [c]. split; [simpl; lia|].
      split; [by repeat constructor|done]. }
    unfold execute_action, execute_body.
    repeat case_match; simplify_eq/=; try apply Hnone;
      match goal with
      | Hc : create_task ?tc user db = (?s, _) |- _ =>
          apply (Hone (CallCreate tc user));
          [done|done|unfold run_call; by rewrite Hc]
      | Hc : update_task ?i (state_update ?ns) user db = (?s, _) |- _ =>
          apply (Hone (CallUpdate i (state_update ns) user));
          [done|simpl; eauto|unfold run_call; by rewrite Hc]
      | Hc : delete_task ?i user db = (?s, _) |- _ =>
          apply (Hone (CallDelete i user));
          [done|done|unfold run_call; by rewrite Hc]
      end. }
  split; [exact Hex|].
  intros Hwf. destruct Hex as (cs & _ & _ & ->).
  by apply run_calls_wf.
Qed.

(** Witness for X15: the session of two users stays well formed under a
    delete command. *)
Lemma dispatch_goes_through_the_service_witness :
  session_wf
    (execute_action (H := sample_runtime) (delete_descriptor "Report") 7 two_user_db).1.
Proof.
  exact (proj2 (dispatch_goes_through_the_service sample_runtime
                  (delete_descriptor "Report") 7 two_user_db) two_user_db_wf).
Defined.

(* ===================================================================== *)
(** * The text that the matcher hands back                                *)
(* ===================================================================== *)

Section MatcherText.

Variable P : ascii -> Prop.

Implicit Types (r : regex) (st : mstate) (s : string) (l : list ascii).

Lemma consumed_chars st0 st1 :
  Forall P (seen st1) -> Forall P (list_ascii_of_string (consumed st0 st1)).
Proof.
  intros Hs. unfold consumed. rewrite list_ascii_of_string_of_list_ascii.
  apply Forall_rev, Forall_take, Hs.
Qed.

(** A run of the matcher only moves characters of the text around. *)
Lemma mrel_chars r st st' :
  mrel r st st' -> state_chars P st -> state_chars P st'.
Proof.
  induction 1 as [ |c st xs Hr|p st x xs Hr Hp| | | | | |n r st st1 _ IH| | | ];
    try done; try (intros Hc; by auto).
  - intros (Hs & Hr' & Hc). rewrite Hr in Hr'. apply Forall_cons in Hr' as [? ?].
    repeat split; simpl; auto.
  - intros (Hs & Hr' & Hc). rewrite Hr in Hr'. apply Forall_cons in Hr' as [? ?].
    repeat split; simpl; auto.
  - intros Hc. destruct (IH Hc) as (Hs1 & Hr1 & Hc1).
    repeat split; simpl; auto. constructor; [|done].
    simpl. by apply consumed_chars.
Qed.

Lemma match_here_chars r before after m :
  Forall P before -> Forall P after ->
  match_here r before after = Some m ->
  state_chars P (m_to m) /\ m_from m = MState before after [].
Proof.
  intros Hb Ha Hm. apply match_here_sound in Hm as [Hf Hr].
  split; [|done]. eapply mrel_chars; [exact Hr|]. rewrite Hf.
  repeat split; simpl; auto.
Qed.

Lemma search_from_chars r after :
  forall before m,
    Forall P before -> Forall P after ->
    search_from r before after = Some m -> state_chars P (m_to m).
Proof.
  induction after as [|c after IH]; intros before m Hb Ha Hs; simpl in Hs.
  - destruct (match_here r before []) as [m'|] eqn:Hm; [|done].
    injection Hs as <-. exact (proj1 (match_here_chars _ _ _ _ Hb Ha Hm)).
  - destruct (match_here r before (c :: after)) as [m'|] eqn:Hm.
    + injection Hs as <-. exact (proj1 (match_here_chars _ _ _ _ Hb Ha Hm)).
    + apply Forall_cons in Ha as [Hc Ha]. eapply IH; [| |exact Hs]; auto.
Qed.

(** The text of a group of a match is made of characters of the text that
    was searched. *)
Lemma group_text_chars r s m n :
  Forall P (list_ascii_of_string s) ->
  re_search r s = Some m ->
  Forall P (list_ascii_of_string (group_text (S n) m)).
Proof.
  intros Hs Hm. unfold re_search in Hm.
  apply search_from_chars in Hm as (_ & _ & Hc); [|done|done].
  unfold group_text, group.
  destruct (List.find _ (caps (m_to m))) as [[k x]|] eqn:Hf; simpl; [|done].
  apply find_some in Hf as [Hin _]. rewrite Forall_forall in Hc.
  apply list_elem_of_In in Hin. exact (Hc _ Hin).
Qed.

Lemma first_search_chars (rs : list regex) s m n :
  Forall P (list_ascii_of_string s) ->
  first_search rs s = Some m ->
  Forall P (list_ascii_of_string (group_text (S n) m)).
Proof.
  intros Hs. induction rs as [|r rs IH]; simpl; [done|].
  destruct (re_search r s) as [m'|] eqn:Hm; [|done].
  intros [= <-]. by eapply group_text_chars.
Qed.

Lemma sub_loop_chars r fuel :
  forall before after,
    Forall P before -> Forall P after -> Forall P (sub_loop fuel r before after).
Proof.
  induction fuel as [|fuel IH]; intros before after Hb Ha; simpl; [done|].
  destruct (match_here r before after) as [m|] eqn:Hm.
  - destruct (match_here_chars _ _ _ _ Hb Ha Hm) as ((Hs & Hr & _) & _).
    destruct (length (seen (m_to m)) - length before)%nat; [|by apply IH].
    destruct after as [|c after]; [done|].
    apply Forall_cons in Ha as [Hc Ha]. constructor; [done|]. apply IH; auto.
  - destruct after as [|c after]; [done|].
    apply Forall_cons in Ha as [Hc Ha]. constructor; [done|]. apply IH; auto.
Qed.

Lemma re_sub_chars r s :
  Forall P (list_ascii_of_string s) ->
  Forall P (list_ascii_of_string (re_sub_empty r s)).
Proof.
  intros Hs. unfold re_sub_empty. rewrite list_ascii_of_string_of_list_ascii.
  by apply sub_loop_chars.
Qed.

Lemma lstrip_chars s :
  Forall P (list_ascii_of_string s) -> Forall P (list_ascii_of_string (lstrip s)).
Proof.
  induction s as [|c s IH]; simpl; [done|].
  intros Hf. destruct (is_space c); [|done].
  apply Forall_cons in Hf as [_ Hf]. auto.
Qed.

Lemma rstrip_chars s :
  Forall P (list_ascii_of_string s) -> Forall P (list_ascii_of_string (rstrip s)).
Proof.
  induction s as [|c s IH]; simpl; [done|].
  intros Hf. apply Forall_cons in Hf as [Hc Hf]. specialize (IH Hf).
  destruct (rstrip s) as [|c' r']; simpl.
  - destruct (is_space c); simpl; [done|by constructor].
  - by constructor.
Qed.

Lemma strip_chars s :
  Forall P (list_ascii_of_string s) -> Forall P (list_ascii_of_string (strip s)).
Proof. intros Hs. by apply rstrip_chars, lstrip_chars. Qed.

End MatcherText.

Section LowerCase.

Implicit Types (s : string).

Lemma lower_chars s : Forall lower_case (list_ascii_of_string (lower s)).
Proof.
  induction s as [|c s IH]; simpl; [done|].
  constructor; [apply lower_char_idem|done].
Qed.

Lemma lower_case_fixed s :
  Forall lower_case (list_ascii_of_string s) -> lower s = s.
Proof.
  induction s as [|c s IH]; simpl; [done|].
  intros Hf. apply Forall_cons in Hf as [Hc Hf]. by rewrite Hc, IH.
Qed.

End LowerCase.

(* ===================================================================== *)
(** * What the pattern interpreter returns                                *)
(* ===================================================================== *)

Section InterpreterShape.

Implicit Types (today : date) (d : descriptor) (s text : string).

Lemma set_opt_lookup_ne (k k' : string) (o : option pyval) d :
  k <> k' -> set_opt k o d !! k' = d !! k'.
Proof. intros Hk. destruct o; simpl; [by rewrite lookup_insert_ne|done]. Qed.

Lemma set_opt_lookup_eq (k : string) (o : option pyval) d :
  set_opt k o d !! k = match o with Some x => Some x | None => d !! k end.
Proof. destruct o; simpl; [by rewrite lookup_insert_eq|done]. Qed.

Ltac look :=
  repeat first
    [ rewrite lookup_insert_eq
    | rewrite lookup_insert_ne by (intros ?; discriminate)
    | rewrite set_opt_lookup_eq
    | rewrite set_opt_lookup_ne by (intros ?; discriminate)
    | rewrite lookup_empty ].

Lemma schedule_title_nonempty text : nonempty (schedule_title text) = true.
Proof.
  unfold schedule_title.
  destruct (nonempty (default EmptyString _)) eqn:E1; [done|].
  by destruct (nonempty (strip _)) eqn:E2.
Qed.

Lemma schedule_title_lower text :
  Forall lower_case (list_ascii_of_string text) ->
  Forall lower_case (list_ascii_of_string (schedule_title text)) \/
  schedule_title text = "Scheduled task".
Proof.
  intros Ht. unfold schedule_title.
  destruct (first_search title_patterns text) as [m|] eqn:Hm; simpl.
  - destruct (nonempty (strip (group_text 1 m))).
    + left. apply strip_chars. by eapply first_search_chars.
    + destruct (nonempty _); [|by right].
      left. by apply strip_chars, re_sub_chars.
  - destruct (nonempty _); [|by right].
    left. by apply strip_chars, re_sub_chars.
Qed.

Lemma schedule_title_stripped text : strip (schedule_title text) = schedule_title text.
Proof.
  unfold schedule_title.
  destruct (first_search title_patterns text) as [m|] eqn:Hm; simpl.
  - destruct (nonempty (strip (group_text 1 m))); [apply strip_idem|].
    destruct (nonempty _); [apply strip_idem|done].
  - destruct (nonempty _); [apply strip_idem|done].
Qed.

Lemma schedule_priority_values text :
  In (schedule_priority text) ["URGENT"; "HIGH"; "LOW"; "MEDIUM"].
Proof.
  unfold schedule_priority.
  repeat match goal with |- context [if ?b then _ else _] => destruct b end;
    simpl; auto.
Qed.

Lemma parse_schedule_lookups today text d :
  parse_schedule today text = Ok d ->
  d !! "action" = Some (VStr "create") /\
  d !! "task_title" = Some (VStr (schedule_title text)) /\
  d !! "priority" = Some (VStr (schedule_priority text)) /\
  d !! "due_time" = (VStr <$> extract_time time_patterns text) /\
  d !! "reminder_time"
    = (if contains "remind" text then Some (VInt 15) else None) /\
  d !! "description" = None /\ d !! "category" = None /\
  d !! "scheduled_date" = None /\ d !! "scheduled_time" = None.
Proof.
  unfold parse_schedule.
  generalize (extract_time time_patterns text) as et. intros et.
  destruct (if contains "today" text then _ else _) as [due|e]; simpl; [|done].
  intros [= <-].
  destruct (contains "remind" text); look; destruct et; simpl; look; done.
Qed.

Lemma parse_schedule_total today text :
  service_day today -> exists d, parse_schedule today text = Ok d.
Proof.
  intros Hs. unfold parse_schedule.
  destruct (date_plus_ok today 1 Hs ltac:(lia)) as (t & -> & _).
  destruct (contains "today" text), (contains "tomorrow" text); simpl; eauto.
Qed.

Lemma parse_list_lookups today text d :
  parse_list today text = Ok d ->
  d !! "action" = Some (VStr "list") /\
  d !! "task_title" = None /\
  d !! "state_filter"
    = (if contains "completed" text then Some (VStr "Completed")
       else if contains "progress" text then Some (VStr "In Progress")
       else if contains "pending" text || contains "not started" text
            then Some (VStr "Not Started")
       else None).
Proof.
  unfold parse_list.
  destruct (if any_in ["today"; "today's"] text then _ else _) as [filt|e];
    simpl; [|done].
  intros [= <-].
  destruct (contains "completed" text); [look; done|].
  destruct (contains "progress" text); [look; done|].
  destruct (contains "pending" text || contains "not started" text); look; done.
Qed.

Lemma parse_list_total today text :
  service_day today -> exists d, parse_list today text = Ok d.
Proof.
  intros Hs. unfold parse_list.
  destruct (date_plus_ok today 1 Hs ltac:(lia)) as (t & -> & _).
  destruct (any_in ["today"; "today's"] text),
           (any_in ["tomorrow"; "tomorrow's"] text); simpl; eauto.
Qed.

Lemma chat_descriptor_lookups msg conf :
  chat_descriptor msg conf !! "action" = Some (VStr "chat") /\
  chat_descriptor msg conf !! "message" = Some (VStr msg) /\
  chat_descriptor msg conf !! "task_title" = None.
Proof. unfold chat_descriptor. look. done. Qed.

Lemma titled_lookups act ttl conf :
  titled act ttl conf !! "action" = Some (VStr act) /\
  titled act ttl conf !! "task_title" = Some (VStr ttl) /\
  titled act ttl conf !! "new_state" = None.
Proof. unfold titled. look. done. Qed.

Lemma moved_lookups (ns : string) act ttl conf :
  (<["new_state" := VStr ns]> (titled act ttl conf) : descriptor) !! "action"
    = Some (VStr act) /\
  (<["new_state" := VStr ns]> (titled act ttl conf) : descriptor) !! "task_title"
    = Some (VStr ttl) /\
  (<["new_state" := VStr ns]> (titled act ttl conf) : descriptor) !! "new_state"
    = Some (VStr ns).
Proof. unfold titled. look. done. Qed.

(** The four outcomes of the branches after the keyword gates. *)
Lemma parse_task_command_cases text :
  (exists m, parse_task_command text = titled "create" (strip (group_text 1 m)) "0.8" /\
             first_search create_patterns text = Some m) \/
  (exists m, parse_task_command text
             = <["new_state" := VStr "In Progress"]>
                 (titled "update_state" (strip (group_text 1 m)) "0.9") /\
             re_search start_re text = Some m) \/
  (exists m, parse_task_command text
             = <["new_state" := VStr "Completed"]>
                 (titled "update_state" (strip (group_text 1 m)) "0.9") /\
             re_search complete_re text = Some m) \/
  (exists m, parse_task_command text = titled "delete" (strip (group_text 1 m)) "0.8" /\
             first_search delete_patterns text = Some m) \/
  parse_task_command text = chat_descriptor "unclear" "0.5".
Proof.
  unfold parse_task_command.
  destruct (if any_in ["add"; "create"; "new"; "make"] text
            then first_search create_patterns text else None) as [m|] eqn:E1.
  { left. exists m. split; [done|].
    by destruct (any_in ["add"; "create"; "new"; "make"] text). }
  destruct (if any_in ["start"; "begin"; "working"] text
            then re_search start_re text else None) as [m|] eqn:E2.
  { right; left. exists m. split; [done|].
    by destruct (any_in ["start"; "begin"; "working"] text). }
  destruct (if any_in ["complete"; "finish"; "done"] text
            then re_search complete_re text else None) as [m|] eqn:E3.
  { right; right; left. exists m. split; [done|].
    by destruct (any_in ["complete"; "finish"; "done"] text). }
  destruct (first_search delete_patterns text) as [m|] eqn:E4.
  { right; right; right; left. by exists m. }
  by right; right; right; right.
Qed.

Lemma parse_task_command_shape text : interpreter_shape (parse_task_command text).
Proof.
  destruct (parse_task_command_cases text)
    as [(m & -> & _)|[(m & -> & _)|[(m & -> & _)|[(m & -> & _)| ->]]]].
  - right; left. destruct (titled_lookups "create" (strip (group_text 1 m)) "0.8")
      as (? & ? & _). eauto.
  - right; right; right; left.
    destruct (moved_lookups "In Progress" "update_state" (strip (group_text 1 m)) "0.9")
      as (? & ? & ?).
    split; [done|]. split; [eauto|]. by exists IN_PROGRESS.
  - right; right; right; left.
    destruct (moved_lookups "Completed" "update_state" (strip (group_text 1 m)) "0.9")
      as (? & ? & ?).
    split; [done|]. split; [eauto|]. by exists COMPLETED.
  - right; right; right; right.
    destruct (titled_lookups "delete" (strip (group_text 1 m)) "0.8") as (? & ? & _).
    eauto.
  - left. destruct (chat_descriptor_lookups "unclear" "0.5") as (? & ? & _).
    split; [done|]. exists "unclear". split; [done|]. simpl. auto.
Qed.

Lemma parse_task_command_title text s :
  Forall lower_case (list_ascii_of_string text) ->
  parse_task_command text !! "task_title" = Some (VStr s) ->
  Forall lower_case (list_ascii_of_string s) /\ strip s = s.
Proof.
  intros Ht.
  destruct (parse_task_command_cases text)
    as [(m & -> & Hm)|[(m & -> & Hm)|[(m & -> & Hm)|[(m & -> & Hm)| ->]]]].
  - destruct (titled_lookups "create" (strip (group_text 1 m)) "0.8") as (_ & -> & _).
    intros [= <-]. split; [|apply strip_idem].
    apply strip_chars. by eapply first_search_chars.
  - destruct (moved_lookups "In Progress" "update_state" (strip (group_text 1 m)) "0.9")
      as (_ & -> & _).
    intros [= <-]. split; [|apply strip_idem].
    apply strip_chars. by eapply group_text_chars.
  - destruct (moved_lookups "Completed" "update_state" (strip (group_text 1 m)) "0.9")
      as (_ & -> & _).
    intros [= <-]. split; [|apply strip_idem].
    apply strip_chars. by eapply group_text_chars.
  - destruct (titled_lookups "delete" (strip (group_text 1 m)) "0.8") as (_ & -> & _).
    intros [= <-]. split; [|apply strip_idem].
    apply strip_chars. by eapply first_search_chars.
  - by destruct (chat_descriptor_lookups "unclear" "0.5") as (_ & _ & ->).
Qed.

Lemma chat_shape msg conf :
  In msg ["greeting"; "help"; "general"; "unclear"] ->
  interpreter_shape (chat_descriptor msg conf).
Proof.
  intros Hm. left. destruct (chat_descriptor_lookups msg conf) as (? & ? & _). eauto.
Qed.

Lemma parse_with_patterns_total today command :
  service_day today -> exists d, parse_with_patterns today command = Ok d.
Proof.
  intros Hs. unfold parse_with_patterns.
  repeat match goal with |- context [if ?b then _ else _] => destruct b end;
    eauto using parse_schedule_total, parse_list_total.
Qed.

End InterpreterShape.

(** X16.  Whatever the command, a descriptor of the pattern interpreter is
    of one of five kinds: a chat with one of the four message types, a
    create with a title, a list whose state filter is absent or the value of
    a state, a state change with a title towards In Progress or Completed,
    or a delete with a title.  It never asks for [update_task] and never
    moves a task back to Not Started. *)
Theorem pattern_interpreter_shape :
  forall (today : date) (command : string) (d : descriptor),
    parse_with_patterns today command = Ok d ->
    interpreter_shape d /\
    d !! "action" <> Some (VStr "update_task") /\
    d !! "new_state" <> Some (VStr (state_value NOT_STARTED)).
Proof.
  intros today command d Hp.
  assert (Hsh : interpreter_shape d).
  { revert Hp. unfold parse_with_patterns.
    repeat match goal with |- context [if ?b then _ else _] => destruct b end.
    - intros [= <-]. apply chat_shape. simpl. auto.
    - intros [= <-]. apply chat_shape. simpl. auto.
    - intros Hp. apply parse_schedule_lookups in Hp as (Ha & Ht & _).
      right; left. eauto.
    - intros Hp. apply parse_list_lookups in Hp as (Ha & _ & Hf).
      right; right; left. split; [done|]. rewrite Hf.
      destruct (contains "completed" _); [right; by exists COMPLETED|].
      destruct (contains "progress" _); [right; by exists IN_PROGRESS|].
      destruct (_ || _); [right; by exists NOT_STARTED|by left].
    - intros [= <-]. apply chat_shape. simpl. auto.
    - intros [= <-]. apply parse_task_command_shape. }
  split; [done|].
  revert Hp. unfold parse_with_patterns.
  repeat match goal with |- context [if ?b then _ else _] => destruct b end.
  - intros [= <-]. split; by vm_compute.
  - intros [= <-]. split; by vm_compute.
  - intros Hp. destruct Hsh as [(Ha & _)|[(Ha & _)|[(Ha & _)|[(Ha & _)|(Ha & _)]]]];
      (split; [by rewrite Ha|]).
    all: unfold parse_schedule in Hp;
      destruct (if contains "today" _ then _ else _) as [due|e]; simpl in Hp; [|done];
      injection Hp as <-;
      destruct (contains "remind" _);
      rewrite ?lookup_insert_ne by (intros ?; discriminate);
      rewrite !set_opt_lookup_ne by (intros ?; discriminate);
      rewrite ?lookup_insert_ne by (intros ?; discriminate);
      by rewrite lookup_empty.
  - intros Hp. destruct Hsh as [(Ha & _)|[(Ha & _)|[(Ha & _)|[(Ha & _)|(Ha & _)]]]];
      (split; [by rewrite Ha|]).
    all: unfold parse_list in Hp;
      destruct (if any_in ["today"; "today's"] _ then _ else _) as [filt|e];
      simpl in Hp; [|done];
      injection Hp as <-;
      repeat match goal with |- context [if ?b then _ else _] => destruct b end;
      rewrite ?lookup_insert_ne by (intros ?; discriminate);
      rewrite !set_opt_lookup_ne by (intros ?; discriminate);
      rewrite ?lookup_insert_ne by (intros ?; discriminate);
      by rewrite lookup_empty.
  - intros [= <-]. split; by vm_compute.
  - intros [= <-].
    destruct (parse_task_command_cases (strip (lower command)))
      as [(m & -> & _)|[(m & -> & _)|[(m & -> & _)|[(m & -> & _)| ->]]]].
    + destruct (titled_lookups "create" (strip (group_text 1 m)) "0.8")
        as (-> & _ & ->). done.
    + destruct (moved_lookups "In Progress" "update_state"
                  (strip (group_text 1 m)) "0.9") as (-> & _ & ->). done.
    + destruct (moved_lookups "Completed" "update_state"
                  (strip (group_text 1 m)) "0.9") as (-> & _ & ->). done.
    + destruct (titled_lookups "delete" (strip (group_text 1 m)) "0.8")
        as (-> & _ & ->). done.
    + split; by vm_compute.
Qed.

Lemma pattern_interpreter_shape_witness :
  interpreter_shape (titled "delete" "report" "0.8") /\
  titled "delete" "report" "0.8" !! "action" <> Some (VStr "update_task") /\
  titled "delete" "report" "0.8" !! "new_state"
    <> Some (VStr (state_value NOT_STARTED)).
Proof.
  exact (pattern_interpreter_shape (Date 2024 5 17) "Delete report task"
           (titled "delete" "report" "0.8") eq_refl).
Defined.

Section InterpreterText.

Implicit Types (today : date) (d : descriptor) (s text : string).

Lemma command_lower_chars command :
  Forall lower_case (list_ascii_of_string (strip (lower command))).
Proof. apply strip_chars, lower_chars. Qed.

Lemma any_in_false words text w :
  any_in words text = false -> In w words -> contains w text = false.
Proof.
  intros Ha Hw. destruct (contains w text) eqn:Hc; [|done].
  assert (any_in words text = true); [|congruence].
  apply existsb_exists. eauto.
Qed.

Lemma any_in_true words text w :
  In w words -> contains w text = true -> any_in words text = true.
Proof. intros Hw Hc. apply existsb_exists. eauto. Qed.

Lemma schedule_priority_enum text :
  exists p, schedule_priority text = priority_value p.
Proof.
  unfold schedule_priority.
  destruct (any_in _ text); [by exists URGENT|].
  destruct (any_in _ text); [by exists HIGH|].
  destruct (any_in _ text); [by exists LOW|by exists MEDIUM].
Qed.

End InterpreterText.

(** X17.  A task title in a descriptor of the pattern interpreter has no
    white space around it and no upper-case letter in it, the default title
    "Scheduled task" of the scheduling branch excepted: the title is cut out
    of the lower-cased command. *)
Theorem titles_are_lower_case :
  forall (today : date) (command : string) (d : descriptor) (s : string),
    parse_with_patterns today command = Ok d ->
    d !! "task_title" = Some (VStr s) ->
    (lower s = s \/ s = "Scheduled task") /\ strip s = s.
Proof.
  intros today command d s.
  pose proof (command_lower_chars command) as Hl.
  unfold parse_with_patterns.
  repeat match goal with |- context [if ?b then _ else _] => destruct b end.
  - intros [= <-]. by destruct (chat_descriptor_lookups "greeting" "0.9") as (_ & _ & ->).
  - intros [= <-]. by destruct (chat_descriptor_lookups "help" "0.9") as (_ & _ & ->).
  - intros Hp. apply parse_schedule_lookups in Hp as (_ & -> & _).
    intros [= <-]. split; [|apply schedule_title_stripped].
    destruct (schedule_title_lower _ Hl) as [Hs| ->]; [|by right].
    left. by apply lower_case_fixed.
  - intros Hp. by apply parse_list_lookups in Hp as (_ & -> & _).
  - intros [= <-]. by destruct (chat_descriptor_lookups "general" "0.8") as (_ & _ & ->).
  - intros [= <-] Ht.
    destruct (parse_task_command_title _ _ Hl Ht) as [Hs Hst].
    split; [|done]. left. by apply lower_case_fixed.
Qed.

Lemma titles_are_lower_case_witness :
  (lower "report" = "report" \/ "report" = "Scheduled task") /\
  strip "report" = "report".
Proof.
  exact (titles_are_lower_case (Date 2024 5 17) "Delete REPORT task"
           (titled "delete" "report" "0.8") "report" eq_refl eq_refl).
Defined.

(** X18.  The pattern interpreter reads a command in lower case and without
    the white space around it: a command, its lower-case form and its
    stripped form are interpreted alike, and a service without an LLM client
    answers them alike. *)
Theorem commands_are_read_in_lower_case :
  forall (R : Runtime) (today : date) (command : string) (user : Z) (db : Session),
    parse_with_patterns today (lower command) = parse_with_patterns today command /\
    parse_with_patterns today (strip command) = parse_with_patterns today command /\
    process_command (MkService None) today (strip (lower command)) user db
      = process_command (MkService None) today command user db.
Proof.
  intros R today command user db.
  assert (H1 : parse_with_patterns today (lower command)
               = parse_with_patterns today command).
  { unfold parse_with_patterns. by rewrite lower_idem. }
  assert (H2 : parse_with_patterns today (strip command)
               = parse_with_patterns today command).
  { unfold parse_with_patterns. by rewrite lower_strip, strip_idem. }
  repeat split; [done|done|].
  unfold process_command, parse_command. simpl gemini_client.
  unfold parse_with_patterns. by rewrite strip_lower_idem.
Qed.

(** X19.  On a service day, a command that is no greeting, has no help word
    in it and has one of the words schedule, plan, appointment, meeting,
    remind, at, on, book anywhere in its lower-case text, be it inside
    another word, is read as a create: the descriptor has the action create,
    a non-empty title and the value of a priority. *)
Theorem scheduling_word_makes_a_create :
  forall (today : date) (command w : string),
    service_day today ->
    mem_str (strip (lower command)) greetings = false ->
    any_in help_words (strip (lower command)) = false ->
    In w schedule_words ->
    contains w (strip (lower command)) = true ->
    exists (d : descriptor) (s : string) (p : TaskPriority),
      parse_with_patterns today command = Ok d /\
      d !! "action" = Some (VStr "create") /\
      d !! "task_title" = Some (VStr s) /\ nonempty s = true /\
      d !! "priority" = Some (VStr (priority_value p)).
Proof.
  intros today command w Hs Hg Hh Hw Hc.
  unfold parse_with_patterns. rewrite Hg, Hh, (any_in_true _ _ _ Hw Hc).
  destruct (parse_schedule_total today (strip (lower command)) Hs) as [d Hd].
  destruct (schedule_priority_enum (strip (lower command))) as [p Hp].
  exists d, (schedule_title (strip (lower command))), p.
  split; [done|].
  apply parse_schedule_lookups in Hd as (Ha & Ht & Hpr & _).
  rewrite <- Hp. repeat split; try done. apply schedule_title_nonempty.
Qed.

Lemma scheduling_word_makes_a_create_witness :
  exists (d : descriptor) (s : string) (p : TaskPriority),
    parse_with_patterns (Date 2024 5 17) "Delete station report" = Ok d /\
    d !! "action" = Some (VStr "create") /\
    d !! "task_title" = Some (VStr s) /\ nonempty s = true /\
    d !! "priority" = Some (VStr (priority_value p)).
Proof.
  refine (scheduling_word_makes_a_create (Date 2024 5 17) "Delete station report"
            "at" _ eq_refl eq_refl _ eq_refl).
  - split; [reflexivity|simpl; lia].
  - simpl. do 5 right. left. reflexivity.
Defined.

(** X20.  The pattern interpreter asks for a state change or a deletion only
    when the lower-case command has none of the help, scheduling and listing
    words in it, not even as part of another word. *)
Theorem state_change_needs_plain_words :
  forall (today : date) (command : string) (d : descriptor),
    parse_with_patterns today command = Ok d ->
    d !! "action" = Some (VStr "update_state") \/
    d !! "action" = Some (VStr "delete") ->
    forall w : string,
      In w (help_words ++ schedule_words ++ list_words)%list ->
      contains w (strip (lower command)) = false.
Proof.
  intros today command d. unfold parse_with_patterns.
  destruct (mem_str _ greetings).
  { intros [= <-]. destruct (chat_descriptor_lookups "greeting" "0.9") as (-> & _).
    intros [?|?]; discriminate. }
  destruct (any_in help_words _) eqn:Hh.
  { intros [= <-]. destruct (chat_descriptor_lookups "help" "0.9") as (-> & _).
    intros [?|?]; discriminate. }
  destruct (any_in schedule_words _) eqn:Hs.
  { intros Hp. apply parse_schedule_lookups in Hp as (-> & _).
    intros [?|?]; discriminate. }
  destruct (any_in list_words _) eqn:Hl.
  { intros Hp. apply parse_list_lookups in Hp as (-> & _).
    intros [?|?]; discriminate. }
  intros _ _ w Hw.
  apply in_app_or in Hw as [Hw|Hw]; [exact (any_in_false _ _ _ Hh Hw)|].
  apply in_app_or in Hw as [Hw|Hw];
    [exact (any_in_false _ _ _ Hs Hw)|exact (any_in_false _ _ _ Hl Hw)].
Qed.

Lemma state_change_needs_plain_words_witness :
  contains "at" (strip (lower "Delete report task")) = false.
Proof.
  refine (state_change_needs_plain_words (Date 2024 5 17) "Delete report task"
            (titled "delete" "report" "0.8") eq_refl (or_intror eq_refl) "at" _).
  simpl. do 9 right. left. reflexivity.
Defined.

(** X21.  On a service day [_parse_command] never raises, with or without
    an LLM client and whatever the client returns or raises.  What it hands
    over is a value that the normalizer leaves as it is: a descriptor, to
    which [process_command] gives the dispatcher's answer; or, when the LLM
    replied with a JSON array or a JSON string that has none of the keys of
    the normalizer in it, that list or string itself, on which the
    dispatcher stops before its [try], so that [process_command] answers
    with its own error response and the session as it was. *)
Theorem interpreter_always_hands_over :
  forall (R : Runtime) (svc : AIService) (today : date) (command : string),
    service_day today ->
    exists v : json_value,
      parse_command svc today command = Ok v /\
      normalize_reply today v = Ok v /\
      match v with
      | JObject d =>
          forall (user : Z) (db : Session),
            process_command svc today command user db = execute_action d user db
      | JScalar _ => False
      | _ =>
          is_Some (gemini_client svc) /\
          forall (user : Z) (db : Session),
            process_command svc today command user db
            = (db, failure ("Sorry, I couldn't process that command: " ++
                            exc_text (AttributeError (json_type_name v) "get")))
      end.
Proof.
  intros R svc today command Hs.
  assert (Hv : valid_date today = true) by apply Hs.
  assert (Hshape : forall v, parse_command svc today command = Ok v ->
            normalize_reply today v = Ok v ->
            is_Some (gemini_client svc) \/ (exists d, v = JObject d) ->
            exists v0 : json_value,
              parse_command svc today command = Ok v0 /\
              normalize_reply today v0 = Ok v0 /\
              match v0 with
              | JObject d =>
                  forall user db,
                    process_command svc today command user db
                    = execute_action d user db
              | JScalar _ => False
              | _ =>
                  is_Some (gemini_client svc) /\
                  forall user db,
                    process_command svc today command user db
                    = (db, failure ("Sorry, I couldn't process that command: " ++
                                    exc_text (AttributeError (json_type_name v0)
                                                "get")))
              end).
  { intros v Hp Hn Hc. exists v. split; [done|]. split; [done|].
    destruct v as [d|items|s|x].
    - intros user db. by apply process_command_object.
    - destruct Hc as [Hc|[d Hd]]; [|discriminate]. split; [done|].
      intros user db. by apply (process_command_no_object svc today command).
    - destruct Hc as [Hc|[d Hd]]; [|discriminate]. split; [done|].
      intros user db. by apply (process_command_no_object svc today command).
    - discriminate. }
  destruct (parse_with_patterns_total today command Hs) as [d Hd].
  pose proof (parse_with_patterns_normal today command d Hv Hd) as Hfix.
  assert (Hobj : normalize_reply today (JObject d) = Ok (JObject d))
    by (simpl; by rewrite Hfix).
  destruct (gemini_client svc) as [client|] eqn:Hc.
  - destruct (date_plus_ok today 1 Hs ltac:(lia)) as (t & Ht & _).
    destruct (llm_stage client today t command) as [v|e] eqn:Hl.
    + apply (Hshape v).
      * unfold parse_command, parse_with_gemini. rewrite Hc, Ht. simpl.
        by rewrite Hl.
      * unfold llm_stage in Hl.
        destruct (generate_content client today t command) as [text|e];
          simpl in Hl; [|done].
        destruct (json_loads (strip_fence text)) as [raw|e]; simpl in Hl; [|done].
        by apply (normalize_reply_fixed today raw).
      * by left.
    + apply (Hshape (JObject d)); [|done|right; by exists d].
      unfold parse_command, parse_with_gemini. rewrite Hc, Ht. simpl.
      rewrite Hl. simpl. rewrite Hd. simpl. by rewrite Hfix.
  - apply (Hshape (JObject d)); [|done|right; by exists d].
    unfold parse_command. rewrite Hc, Hd. done.
Qed.

(** Witness for X21: a client that replies with the empty array. *)
Lemma interpreter_always_hands_over_witness :
  parse_command (H := sample_runtime) (MkService (Some array_client))
    (Date 2024 5 17) "hello" = Ok (JArray []) /\
  process_command (H := sample_runtime) (MkService (Some array_client))
    (Date 2024 5 17) "hello" 7 two_user_db
  = (two_user_db,
     failure "Sorry, I couldn't process that command: 'list' object has no attribute 'get'").
Proof.
  destruct (interpreter_always_hands_over sample_runtime
              (MkService (Some array_client)) (Date 2024 5 17) "hello")
    as (v & Hp & _ & Hv); [split; [reflexivity|simpl; lia]|].
  assert (Hq : parse_command (H := sample_runtime) (MkService (Some array_client))
                 (Date 2024 5 17) "hello" = Ok (JArray [])) by reflexivity.
  split; [exact Hq|].
  rewrite Hq in Hp. injection Hp as <-. exact (proj2 Hv 7 two_user_db).
Defined.

(* ===================================================================== *)
(** * What the normalizer leaves alone and what it hands on               *)
(* ===================================================================== *)

Section NormalizerFrame.

Implicit Types (today : date) (d : descriptor) (k key : string).

Lemma store_or_pop_other key k o d :
  k <> key -> store_or_pop key o d !! k = d !! k.
Proof.
  intros Hk. unfold store_or_pop.
  destruct o as [s|]; [destruct (nonempty s)|];
    by rewrite ?lookup_insert_ne, ?lookup_delete_ne by done.
Qed.

Lemma handle_date_other today key d d' k :
  handle_date today key d = Ok d' -> k <> key -> d' !! k = d !! k.
Proof.
  unfold handle_date. destruct (d !! key) as [v|]; [|by intros [= <-]].
  destruct (normalize_date_field today v) as [n|]; simpl; [|done].
  intros [= <-] Hk. by apply store_or_pop_other.
Qed.

Lemma handle_date_absent today key d d' k :
  handle_date today key d = Ok d' -> d !! k = None -> d' !! k = None.
Proof.
  intros Hd Hk. destruct (decide (k = key)) as [->|Hne].
  - unfold handle_date in Hd. rewrite Hk in Hd. by injection Hd as <-.
  - by rewrite (handle_date_other _ _ _ _ _ Hd Hne).
Qed.

Lemma handle_time_other key d k :
  k <> key -> handle_time key d !! k = d !! k.
Proof.
  intros Hk. unfold handle_time. destruct (d !! key) as [v|]; [|done].
  by apply store_or_pop_other.
Qed.

Lemma handle_time_absent key d k :
  d !! k = None -> handle_time key d !! k = None.
Proof.
  intros Hk. destruct (decide (k = key)) as [->|Hne].
  - unfold handle_time. by rewrite Hk.
  - by rewrite handle_time_other.
Qed.

Lemma normalize_priority_absent d k :
  d !! k = None -> normalize_priority d !! k = None.
Proof.
  intros Hk. unfold normalize_priority.
  destruct (d !! "priority") as [v|] eqn:Hp; [|done].
  destruct (truthy v); [|done].
  destruct (priority_map _); [|done].
  rewrite lookup_insert_ne; [done|]. intros <-. congruence.
Qed.

Lemma priority_map_names x y :
  priority_map x = Some y <->
  exists p, x = lower (priority_value p) /\ y = priority_value p.
Proof.
  split.
  - unfold priority_map.
    repeat match goal with
           | |- context [String.eqb x ?l] =>
               destruct (String.eqb_spec x l) as [->|?]
           end; intros [= <-];
      [by exists LOW|by exists MEDIUM|by exists HIGH|by exists URGENT].
  - intros (p & -> & ->). by destruct p.
Qed.

Lemma time_field_result_shape v s :
  normalize_time_field v = Some s -> is_Some (re_match time_shape s).
Proof.
  unfold normalize_time_field.
  destruct (negb (truthy v)); [done|].
  set (ts := strip (lower (py_str v))).
  destruct (mem_str ts _); [done|].
  destruct (time_mappings ts) as [t|] eqn:Hmap.
  - intros [= <-]. unfold time_mappings in Hmap.
    repeat match type of Hmap with
           | (if ?b then _ else _) = _ => destruct b
           end; try discriminate; injection Hmap as <-;
      match goal with
      | |- is_Some ?x => destruct x eqn:E; [done|by vm_compute in E]
      end.
  - destruct (re_match time_shape ts) as [m|] eqn:Hm; [|done].
    intros [= <-]. by rewrite Hm.
Qed.

End NormalizerFrame.

(** X22.  On a service day the normalizer returns a descriptor for every
    descriptor it is given; it adds no key, and it leaves every key other
    than [priority], the three date keys and the two time keys with the
    value it had. *)
Theorem normalizer_only_touches_its_keys :
  forall (today : date) (d : descriptor),
    service_day today ->
    exists d' : descriptor,
      normalize_parsed_command today d = Ok d' /\
      (forall k : string, ~ In k normalized_keys -> d' !! k = d !! k) /\
      (forall k : string, d !! k = None -> d' !! k = None).
Proof.
  intros today d Hs.
  destruct (normalize_total today d Hs) as [d' Hd]. exists d'.
  split; [done|]. split.
  - by apply (normalize_steps today d d' (proj1 Hs) Hd).
  - intros k Hk. revert Hd. unfold normalize_parsed_command.
    destruct (handle_date today "scheduled_date" _) as [d1|] eqn:E1; simpl; [|done].
    destruct (handle_date today "due_date" d1) as [d2|] eqn:E2; simpl; [|done].
    destruct (handle_date today "date_filter" d2) as [d3|] eqn:E3; simpl; [|done].
    intros [= <-].
    apply handle_time_absent, handle_time_absent.
    apply (handle_date_absent _ _ _ _ _ E3), (handle_date_absent _ _ _ _ _ E2),
      (handle_date_absent _ _ _ _ _ E1).
    by apply normalize_priority_absent.
Qed.

Lemma normalizer_only_touches_its_keys_witness :
  exists d' : descriptor,
    normalize_parsed_command (Date 2024 5 17) relative_descriptor = Ok d' /\
    (forall k : string, ~ In k normalized_keys -> d' !! k = relative_descriptor !! k) /\
    (forall k : string, relative_descriptor !! k = None -> d' !! k = None).
Proof.
  refine (normalizer_only_touches_its_keys (Date 2024 5 17) relative_descriptor _).
  split; [reflexivity|simpl; lia].
Defined.

(** X23.  In a descriptor that the normalizer returns, a date key is either
    absent or holds a text that [strptime] with [%Y-%m-%d] accepts, and a
    time key is either absent or holds a text of the form [\d{1,2}:\d{2}]:
    what is neither is removed, never handed on. *)
Theorem normalized_dates_and_times_parse :
  forall (today : date) (d d' : descriptor) (k : string),
    valid_date today = true ->
    normalize_parsed_command today d = Ok d' ->
    (In k ["scheduled_date"; "due_date"; "date_filter"] ->
     d' !! k = None \/
     exists s, d' !! k = Some (VStr s) /\ is_Some (strptime_Ymd s)) /\
    (In k ["scheduled_time"; "due_time"] ->
     d' !! k = None \/
     exists s, d' !! k = Some (VStr s) /\ is_Some (re_match time_shape s)).
Proof.
  intros today d d' k Hv Hd.
  destruct (normalize_steps today d d' Hv Hd) as [(_ & H1 & H2 & H3 & H4 & H5) _].
  assert (Hdate : forall o, date_ok today o ->
            o = None \/ exists s, o = Some (VStr s) /\ is_Some (strptime_Ymd s)).
  { intros [v|] Ho; [|by left]. destruct Ho as (r & -> & _ & Hr).
    right. exists r. split; [done|]. by apply (date_field_result_parsable today (VStr r)). }
  assert (Htime : forall o, time_ok o ->
            o = None \/ exists s, o = Some (VStr s) /\ is_Some (re_match time_shape s)).
  { intros [v|] Ho; [|by left]. destruct Ho as (r & -> & _ & Hr).
    right. exists r. split; [done|]. by apply (time_field_result_shape (VStr r)). }
  split.
  - intros [<-|[<-|[<-|[]]]]; by apply Hdate.
  - intros [<-|[<-|[]]]; by apply Htime.
Qed.

Lemma normalized_dates_and_times_parse_witness :
  exists d' : descriptor,
    normalize_parsed_command (Date 2024 5 17) relative_descriptor = Ok d' /\
    (In "due_time" ["scheduled_date"; "due_date"; "date_filter"] ->
     d' !! "due_time" = None \/
     exists s, d' !! "due_time" = Some (VStr s) /\ is_Some (strptime_Ymd s)) /\
    (In "due_time" ["scheduled_time"; "due_time"] ->
     d' !! "due_time" = None \/
     exists s, d' !! "due_time" = Some (VStr s) /\ is_Some (re_match time_shape s)).
Proof.
  destruct (normalize_parsed_command (Date 2024 5 17) relative_descriptor)
    as [d'|e] eqn:Hn; [|by vm_compute in Hn].
  exists d'. split; [done|].
  exact (normalized_dates_and_times_parse (Date 2024 5 17) relative_descriptor d'
           "due_time" eq_refl Hn).
Defined.

(** X24.  The normalizer recognises the four priority names in any letter
    case and writes them in upper case, the form that [TaskPriority]
    accepts; a priority that is empty, or is none of the four names, is
    handed on as it was given. *)
Theorem priority_names_are_recognised :
  forall (today : date) (d d' : descriptor) (v : pyval),
    normalize_parsed_command today d = Ok d' ->
    d !! "priority" = Some v ->
    (forall p : TaskPriority,
        truthy v = true -> lower (py_str v) = lower (priority_value p) ->
        d' !! "priority" = Some (VStr (priority_value p)) /\
        TaskPriority_of (VStr (priority_value p)) = Some p) /\
    (truthy v = false \/
     (forall p : TaskPriority, lower (py_str v) <> lower (priority_value p)) ->
     d' !! "priority" = Some v).
Proof.
  intros today d d' v Hd Hp.
  assert (Hkeep : d' !! "priority" = normalize_priority d !! "priority").
  { revert Hd. unfold normalize_parsed_command.
    destruct (handle_date today "scheduled_date" _) as [d1|] eqn:E1; simpl; [|done].
    destruct (handle_date today "due_date" d1) as [d2|] eqn:E2; simpl; [|done].
    destruct (handle_date today "date_filter" d2) as [d3|] eqn:E3; simpl; [|done].
    intros [= <-].
    rewrite !handle_time_other by done.
    rewrite (handle_date_other _ _ _ _ _ E3) by done.
    rewrite (handle_date_other _ _ _ _ _ E2) by done.
    by rewrite (handle_date_other _ _ _ _ _ E1) by done. }
  rewrite Hkeep. unfold normalize_priority. rewrite Hp. split.
  - intros p Ht Hl. rewrite Ht.
    assert (Hm : priority_map (lower (py_str v)) = Some (priority_value p))
      by (apply priority_map_names; eauto).
    rewrite Hm, lookup_insert_eq. split; [done|by destruct p].
  - intros [Ht|Hn]; [by rewrite Ht|].
    destruct (truthy v); [|done].
    destruct (priority_map (lower (py_str v))) as [y|] eqn:Hm; [|done].
    apply priority_map_names in Hm as (p & Hl & _). by destruct (Hn p).
Qed.

Lemma priority_names_are_recognised_witness :
  exists d' : descriptor,
    normalize_parsed_command (Date 2024 5 17)
      (<["priority" := VStr "High"]> relative_descriptor) = Ok d' /\
    d' !! "priority" = Some (VStr (priority_value HIGH)) /\
    TaskPriority_of (VStr (priority_value HIGH)) = Some HIGH.
Proof.
  destruct (normalize_parsed_command (Date 2024 5 17)
              (<["priority" := VStr "High"]> relative_descriptor))
    as [d'|e] eqn:Hn; [|by vm_compute in Hn].
  exists d'. split; [done|].
  exact (proj1 (priority_names_are_recognised (Date 2024 5 17)
                  (<["priority" := VStr "High"]> relative_descriptor) d'
                  (VStr "High") Hn eq_refl) HIGH eq_refl eq_refl).
Defined.

(* ===================================================================== *)
(** * The text taken from the reply of the LLM                            *)
(* ===================================================================== *)

Section Fence.

Implicit Types (s p body tail : string).

Lemma prefix_app p s : String.prefix p (p ++ s) = true.
Proof.
  induction p as [|c p IH]; [by destruct s|].
  change (String.prefix (String c p) (String c p ++ s))
    with (if ascii_dec c c then String.prefix p (p ++ s) else false).
  destruct (ascii_dec c c); [exact IH|done].
Qed.

Lemma length_app s1 s2 :
  String.length (s1 ++ s2) = (String.length s1 + String.length s2)%nat.
Proof. induction s1 as [|c s1 IH]; simpl; [done|]. by rewrite IH. Qed.

Lemma substring_all s : String.substring 0 (String.length s) s = s.
Proof. induction s as [|c s IH]; simpl; [done|]. by rewrite IH. Qed.

Lemma substring_head body tail :
  String.substring 0 (String.length body) (body ++ tail) = body.
Proof.
  induction body as [|c body IH]; simpl; [by destruct tail|]. by rewrite IH.
Qed.

Lemma substring_skip p s n :
  String.substring (String.length p) n (p ++ s) = String.substring 0 n s.
Proof. induction p as [|c p IH]; simpl; [done|]. exact IH. Qed.

Lemma slice_fence_app p body tail :
  String.length tail = 3%nat ->
  slice_fence (String.length p) (p ++ body ++ tail) = body.
Proof.
  intros Ht. unfold slice_fence.
  rewrite !length_app, Ht, substring_skip.
  replace (String.length p + (String.length body + 3) - 3 - String.length p)%nat
    with (String.length body) by lia.
  apply substring_head.
Qed.

Lemma prefix_fence_json s :
  String.prefix "```json" s = true -> String.prefix "```" s = true.
Proof.
  change "```json" with ("```" ++ "json"). generalize "```" as p, "json" as q.
  intros p q. revert s.
  induction p as [|c p IH]; intros s; [by destruct s|].
  destruct s as [|a s]; [done|].
  change (String.prefix ((String c p ++ q)) (String a s))
    with (if ascii_dec c a then String.prefix (p ++ q) s else false).
  change (String.prefix (String c p) (String a s))
    with (if ascii_dec c a then String.prefix p s else false).
  destruct (ascii_dec c a); [apply IH|done].
Qed.

End Fence.

(** X25.  The JSON text is cut out of the reply by position.  A reply that,
    white space around it apart, starts with the fence [```json] loses these
    seven characters and its last three, whatever the last three are; one
    that starts with the fence without [json] loses three characters at
    either end; any other reply is decoded as it is, stripped. *)
Theorem fence_is_cut_by_position :
  forall text body tail : string,
    String.length tail = 3%nat ->
    (strip text = "```json" ++ body ++ tail -> strip_fence text = body) /\
    (strip text = "```" ++ body ++ tail ->
     String.prefix "```json" (strip text) = false -> strip_fence text = body) /\
    (String.prefix "```" (strip text) = false -> strip_fence text = strip text).
Proof.
  intros text body tail Ht. unfold strip_fence. repeat split.
  - intros ->. rewrite prefix_app.
    exact (slice_fence_app "```json" body tail Ht).
  - intros He Hj. rewrite Hj, He, prefix_app.
    exact (slice_fence_app "```" body tail Ht).
  - intros Hp. rewrite Hp.
    destruct (String.prefix "```json" (strip text)) eqn:Hj; [|done].
    apply prefix_fence_json in Hj. congruence.
Qed.

Lemma fence_is_cut_by_position_witness :
  strip_fence "  ```json{ }```  " = "{ }" /\ strip_fence "```json{ }" = EmptyString.
Proof.
  split.
  - exact (proj1 (fence_is_cut_by_position "  ```json{ }```  " "{ }" "```" eq_refl)
             eq_refl).
  - exact (proj1 (fence_is_cut_by_position "```json{ }" EmptyString "{ }" eq_refl)
             eq_refl).
Defined.

(* ===================================================================== *)
(** * Passwords and users                                                 *)
(* ===================================================================== *)

(** X26.  When the base64 decoding undoes the encoding and the salt has 32
    bytes, a password verifies against its own hash, another password
    verifies against it exactly when it has the same digest under the same
    salt, and a stored text that cannot be decoded verifies against
    nothing. *)
Theorem password_round_trip :
  forall (C : Hashing) (salt : list Byte.byte) (password : string),
    (forall bs, b64decode (b64encode bs) = Ok bs) ->
    length salt = 32%nat ->
    verify_password password (get_password_hash salt password) = true /\
    (forall other : string,
        verify_password other (get_password_hash salt password) = true <->
        pbkdf2_hmac_sha256 (encode_utf8 other) salt
        = pbkdf2_hmac_sha256 (encode_utf8 password) salt) /\
    (forall (plain hashed : string) (e : pyexc),
        b64decode hashed = Raise e -> verify_password plain hashed = false).
Proof.
  intros C salt password Hb Hl.
  assert (Hv : forall other,
             verify_password other (get_password_hash salt password)
             = bool_decide (pbkdf2_hmac_sha256 (encode_utf8 password) salt
                            = pbkdf2_hmac_sha256 (encode_utf8 other) salt)).
  { intros other. unfold verify_password, get_password_hash. rewrite Hb.
    rewrite take_app_length' by done. by rewrite drop_app_length' by done. }
  repeat split.
  - rewrite Hv. by apply bool_decide_eq_true.
  - rewrite Hv. intros Hd. by apply bool_decide_eq_true in Hd.
  - intros He. rewrite Hv. by apply bool_decide_eq_true.
  - intros plain hashed e He. unfold verify_password. by rewrite He.
Qed.

Lemma password_round_trip_witness :
  verify_password (H := sample_hashing) "secret"
    (get_password_hash (H := sample_hashing) sample_salt "secret") = true.
Proof.
  exact (proj1 (password_round_trip sample_hashing sample_salt "secret"
                  (fun bs => f_equal Ok (list_byte_of_string_of_list_byte bs))
                  eq_refl)).
Defined.

Section Users.

Context `{Hashing}.

Implicit Types (db : Database) (u : User) (name : string).

Lemma find_user_app (p : User -> bool) (l1 l2 : list User) :
  List.find p (l1 ++ l2)%list =
  match List.find p l1 with
  | Some x => Some x
  | None => List.find p l2
  end.
Proof. induction l1 as [|x l1 IH]; simpl; [done|]. by destruct (p x). Qed.

Lemma get_user_by_username_None name db :
  get_user_by_username name db = None -> ~ In name (username <$> users db).
Proof.
  unfold get_user_by_username. intros Hf Hin.
  apply list_elem_of_In, list_elem_of_fmap in Hin as (u & -> & Hu).
  apply list_elem_of_In in Hu.
  apply (find_none _ _ Hf) in Hu. by rewrite String.eqb_refl in Hu.
Qed.

Lemma find_uid_fresh (l : list User) (k : Z) :
  Forall (fun u => uid u < k) l -> List.find (fun u => uid u =? k) l = None.
Proof.
  induction 1 as [|x l Hx _ IH]; simpl; [done|].
  destruct (uid x =? k) eqn:He; [lia|done].
Qed.

End Users.

(** X27.  [create_user] keeps the names and the keys of the users unique.
    A name that is taken is refused with status 400 and nothing changes; a
    new name gives a user that both lookups find, with that name, the next
    key and the hash of the password.  The lookup of any other name gives
    what it gave before. *)
Theorem create_user_keeps_names_unique :
  forall (C : Hashing) (salt : list Byte.byte) (name password : string)
         (db : Database),
    users_wf db ->
    users_wf (create_user salt name password db).1 /\
    match get_user_by_username name db with
    | Some _ =>
        create_user salt name password db
        = (db, Raise (HTTPException 400 "Username already registered"))
    | None =>
        exists u : User,
          (create_user salt name password db).2 = Ok u /\
          username u = name /\ uid u = next_uid db /\
          hashed_password u = get_password_hash salt password /\
          users (create_user salt name password db).1 = (users db ++ [u])%list /\
          get_user_by_username name (create_user salt name password db).1 = Some u /\
          get_user_by_id (uid u) (create_user salt name password db).1 = Some u
    end /\
    (forall other : string,
        other <> name ->
        get_user_by_username other (create_user salt name password db).1
        = get_user_by_username other db).
Proof.
  intros C salt name password db (Hn & Hi & Hb).
  unfold create_user.
  destruct (get_user_by_username name db) as [u0|] eqn:Hg.
  { repeat split; done. }
  set (u := MkUser (next_uid db) name (get_password_hash salt password)).
  simpl. split; [|split].
  - unfold users_wf, py_append. simpl. rewrite !fmap_app. simpl. repeat split.
    + apply NoDup_app. split; [done|]. split; [|apply NoDup_singleton].
      intros x Hx ->%list_elem_of_singleton.
      apply (get_user_by_username_None name db Hg). by apply list_elem_of_In.
    + apply NoDup_app. split; [done|]. split; [|apply NoDup_singleton].
      intros x Hx ->%list_elem_of_singleton.
      apply list_elem_of_fmap in Hx as (u1 & Hu1 & Hin).
      rewrite Forall_forall in Hb. specialize (Hb _ Hin). lia.
    + apply Forall_app. split.
      * eapply Forall_impl; [exact Hb|]. simpl. intros; lia.
      * constructor; [simpl; lia|done].
  - exists u. repeat split.
    + unfold get_user_by_username, py_append in *. simpl.
      rewrite find_user_app, Hg. simpl. by rewrite String.eqb_refl.
    + unfold get_user_by_id, py_append. simpl.
      rewrite find_user_app, (find_uid_fresh _ _ Hb). simpl.
      by rewrite Z.eqb_refl.
  - intros other Hne. unfold get_user_by_username, py_append. simpl.
    rewrite find_user_app.
    destruct (List.find _ (users db)); [done|]. simpl.
    destruct (String.eqb_spec name other); [congruence|done].
Qed.

Lemma create_user_keeps_names_unique_witness :
  users_wf (create_user (H := sample_hashing) sample_salt "bob" "secret"
              one_user_db).1 /\
  get_user_by_username "ann"
    (create_user (H := sample_hashing) sample_salt "bob" "secret" one_user_db).1
  = get_user_by_username "ann" one_user_db.
Proof.
  assert (Hwf : users_wf one_user_db).
  { unfold users_wf, one_user_db. simpl. repeat split.
    - apply NoDup_singleton.
    - apply NoDup_singleton.
    - constructor; [simpl; lia|constructor]. }
  split.
  - exact (proj1 (create_user_keeps_names_unique sample_hashing sample_salt
                    "bob" "secret" one_user_db Hwf)).
  - refine (proj2 (proj2 (create_user_keeps_names_unique sample_hashing sample_salt
                            "bob" "secret" one_user_db Hwf)) "ann" _).
    discriminate.
Defined.

(* ===================================================================== *)
(** * The reference of the transitions and the store                      *)
(* ===================================================================== *)

Lemma reference_lookup (s : TaskState) :
  ref_transitions get_state_transitions !! state_value s
  = Some (state_value <$> get_valid_transitions s).
Proof. destruct s; by vm_compute. Qed.

Lemma reference_entry (s ns : TaskState) :
  In (state_value ns) (state_value <$> get_valid_transitions s) <->
  validate_state_transition s ns = true.
Proof.
  destruct s, ns; vm_compute; split; intros Hx; try done;
    repeat match goal with
           | Hd : _ \/ _ |- _ => destruct Hd
           | Hf : False |- _ => destruct Hf
           | He : String _ _ = String _ _ |- _ => discriminate He
           end; auto.
Qed.

(** X28.  The reference that the route [get_state_transitions] returns
    agrees with the store: for a task of the caller, [update_task] accepts a
    request that carries a state exactly when the reference lists that state
    under the current state of the task, and the task is then in that state;
    the states it names are the three values of [TaskState]. *)
Theorem reference_lists_what_the_store_accepts :
  forall (db : Session) (task_id user : Z) (t : Task) (task_update : TaskUpdate)
         (ns : TaskState),
    get_task task_id user db = Some t ->
    tu_state task_update = Some ns ->
    ((exists l : list string,
         ref_transitions get_state_transitions !! state_value (state t) = Some l /\
         In (state_value ns) l) <->
     (exists t' : Task,
         (update_task task_id task_update user db).2 = Ok t' /\ state t' = ns)) /\
    (forall v : string,
        In v (ref_states get_state_transitions) <-> is_Some (TaskState_of (VStr v))).
Proof.
  intros db task_id user t task_update ns Hg Hs. split.
  - rewrite reference_lookup. unfold update_task. rewrite Hg, Hs.
    destruct (validate_state_transition (state t) ns) eqn:Hv; simpl.
    + split; [intros _; eexists; split; [reflexivity|by destruct t]|].
      intros _. eexists. split; [reflexivity|]. by apply reference_entry.
    + split; [|by intros (t' & ? & _)].
      intros (l & [= <-] & Hin). apply reference_entry in Hin. congruence.
  - intros v. split.
    + intros Hin. simpl in Hin.
      destruct Hin as [<-|[<-|[<-|[]]]]; by eexists.
    + intros [s Hv]. unfold TaskState_of in Hv.
      repeat match type of Hv with
             | context [String.eqb v ?l] => destruct (String.eqb_spec v l) as [->|?]
             end; try discriminate; simpl; auto.
Qed.

Lemma reference_lists_what_the_store_accepts_witness :
  (exists l : list string,
      ref_transitions get_state_transitions !! "Not Started" = Some l /\
      In "In Progress" l) <->
  (exists t' : Task,
      (update_task 1 (state_update IN_PROGRESS) 7 two_user_db).2 = Ok t' /\
      state t' = IN_PROGRESS).
Proof.
  exact (proj1 (reference_lists_what_the_store_accepts two_user_db 1 7
                  (sample_task 1 "Report" NOT_STARTED 7)
                  (state_update IN_PROGRESS) IN_PROGRESS eq_refl eq_refl)).
Defined.

(* ===================================================================== *)
(** * From the command to the store                                       *)
(* ===================================================================== *)

Section EndToEnd.

Context `{Runtime}.

Implicit Types (today : date) (d : descriptor) (db : Session) (text : string).

Lemma parse_schedule_due today text d :
  parse_schedule today text = Ok d ->
  exists due : option date,
    schedule_due today text = Ok due /\
    d !! "due_date" = ((fun dt => VStr (str_date dt)) <$> due).
Proof.
  unfold parse_schedule, schedule_due.
  generalize (extract_time time_patterns text) as et. intros et.
  destruct (contains "today" text).
  - simpl. intros [= <-]. exists (Some today). split; [done|].
    destruct (contains "remind" text);
      rewrite ?lookup_insert_ne by (intros ?; discriminate);
      by rewrite lookup_insert_eq.
  - destruct (contains "tomorrow" text).
    + destruct (date_plus today 1) as [t|e]; simpl; [|done].
      intros [= <-]. exists (Some t). split; [done|].
      destruct (contains "remind" text);
        rewrite ?lookup_insert_ne by (intros ?; discriminate);
        by rewrite lookup_insert_eq.
    + simpl. intros [= <-]. exists None. split; [done|].
      destruct (contains "remind" text), et; simpl;
        rewrite ?lookup_insert_ne by (intros ?; discriminate);
        by rewrite lookup_empty.
Qed.

Lemma schedule_due_valid today text due dt :
  service_day today -> schedule_due today text = Ok due -> due = Some dt ->
  valid_date dt = true.
Proof.
  intros Hs. unfold schedule_due.
  destruct (contains "today" text); [intros [= <-] [= <-]; apply Hs|].
  destruct (contains "tomorrow" text); [|by intros [= <-]].
  destruct (date_plus_ok today 1 Hs ltac:(lia)) as (t & -> & Hv). simpl.
  by intros [= <-] [= <-].
Qed.

Lemma str_date_nonempty dt : valid_date dt = true -> nonempty (str_date dt) = true.
Proof.
  intros Hv. destruct (date_text_ok dt dt Hv) as (r & [= <-] & Hne & _). done.
Qed.

Lemma extract_time_nonempty text t :
  extract_time time_patterns text = Some t -> nonempty t = true.
Proof.
  intros Ht. destruct (extract_time_ok text t Ht) as (r & [= <-] & Hne & _). done.
Qed.

(** The create branch on a descriptor whose fields are all known. *)
Lemma create_dispatch d user db ttl p (due : option date) (tm : option string)
  (rem : bool) :
  d !! "action" = Some (VStr "create") ->
  d !! "task_title" = Some (VStr ttl) -> strip ttl = ttl -> nonempty ttl = true ->
  d !! "priority" = Some (VStr (priority_value p)) ->
  d !! "due_date" = ((fun dt => VStr (str_date dt)) <$> due) ->
  (forall dt, due = Some dt -> valid_date dt = true) ->
  d !! "due_time" = (VStr <$> tm) ->
  (forall t, tm = Some t -> nonempty t = true /\ is_Some (validate_time (VStr t))) ->
  d !! "reminder_time" = (if rem then Some (VInt 15) else None) ->
  d !! "description" = None -> d !! "category" = None ->
  d !! "scheduled_date" = None -> d !! "scheduled_time" = None ->
  (forall dt, valid_date dt = true -> validate_date (VStr (str_date dt)) = Some dt) ->
  py_int (VInt 15) = Ok 15 ->
  let t := MkTask (next_id db) ttl None NOT_STARTED p None None None due
             (tm ≫= fun x => validate_time (VStr x))
             (if rem then Some 15 else None) user in
  execute_action d user db
  = (MkSession (objects db ++ [t]) (objects db ++ [t]) (next_id db + 1),
     MkResponse true (created_message t) (Some "create") (Some (next_id db)) None).
Proof.
  intros Ha Ht Hst Hne Hp Hdd Hdv Hdt Htv Hr Hde Hc Hsd Hst' Hvd Hint t.
  assert (Hpres : forall k, d !! k = None -> present k d = None)
    by (intros k Hk; unfold present; by rewrite Hk).
  assert (Hprio : present "priority" d = Some (VStr (priority_value p))).
  { unfold present. rewrite Hp. by destruct p. }
  assert (Hdue : check_field "due_date" validate_date (present "due_date" d)
                 = ([], due)).
  { unfold present. rewrite Hdd. destruct due as [dt|]; simpl; [|done].
    rewrite (str_date_nonempty dt (Hdv dt eq_refl)).
    simpl. by rewrite (Hvd dt (Hdv dt eq_refl)). }
  assert (Htime : check_field "due_time" validate_time (present "due_time" d)
                  = ([], tm ≫= fun x => validate_time (VStr x))).
  { unfold present. rewrite Hdt. destruct tm as [x|]; simpl; [|done].
    destruct (Htv x eq_refl) as [-> [v Hv]]. simpl. by rewrite Hv. }
  assert (Hrem : (match present "reminder_time" d with
                  | Some v => n ← py_int v; Ok (Some n)
                  | None => Ok None
                  end) = Ok (if rem then Some 15 else None)).
  { unfold present. rewrite Hr. destruct rem; simpl; [|done]. by rewrite Hint. }
  assert (Hprio' : TaskPriority_of (VStr (priority_value p)) = Some p)
    by by destruct p.
  assert (Hmk : make_TaskCreate
                  (MkCreateData ttl None (present "priority" d) (present "category" d)
                     (present "scheduled_date" d) (present "scheduled_time" d)
                     (present "due_date" d) (present "due_time" d)
                     (if rem then Some 15 else None))
                = Ok (MkTaskCreate ttl None p None None None due
                        (tm ≫= fun x => validate_time (VStr x))
                        (if rem then Some 15 else None))).
  { unfold make_TaskCreate.
    cbn [cd_priority cd_category cd_scheduled_date cd_scheduled_time cd_due_date
         cd_due_time cd_title cd_description cd_reminder_time].
    rewrite Hprio, (Hpres _ Hc), (Hpres _ Hsd), (Hpres _ Hst'), Hdue, Htime.
    unfold check_field. rewrite Hprio'. reflexivity. }
  unfold execute_action, execute_body. rewrite Ha.
  change (default VNone (Some (VStr "create"))) with (VStr "create").
  change (eq_str (VStr "create") "chat") with false.
  change (eq_str (VStr "create") "create") with true.
  cbv iota.
  unfold get_stripped. rewrite Ht.
  change (default (VStr EmptyString) (Some (VStr ttl))) with (VStr ttl).
  cbv iota. rewrite Hst, Hne.
  change (negb true) with false. cbv iota.
  unfold collect_create_data.
  rewrite (Hpres _ Hde), Hrem.
  change (Ok None ≫= ?f) with (f None). cbv beta.
  change (Ok ?x ≫= ?f) with (f x). cbv beta iota.
  rewrite Hmk. unfold create_task, commit, py_append.
  cbn [tc_title tc_description tc_priority tc_category tc_scheduled_date
       tc_scheduled_time tc_due_date tc_due_time tc_reminder_time
       objects stored next_id id].
  assert (Hpv : nonempty (priority_value p) = true) by by destruct p.
  rewrite Hpv. reflexivity.
Qed.

End EndToEnd.

(** X29.  From the command to the store.  On a service day, with no LLM
    client, a command that passes the scheduling gate makes one task, which
    is committed: its title is the title that the scheduling branch cuts out
    of the command, its priority the one named in the command or MEDIUM, its
    due date today or tomorrow when the command says so, its due time the
    clock time of the command, its reminder 15 minutes when the command has
    "remind" in it; it is Not Started and belongs to the caller.  The
    validators of [TaskCreate] are taken to accept the ISO text of a valid
    date and the clock text of the command, and [int(15)] to be 15. *)
Theorem scheduling_command_makes_the_task :
  forall (R : Runtime) (today : date) (command w : string) (user : Z)
         (db : Session),
    let text := strip (lower command) in
    service_day today ->
    (forall dt, valid_date dt = true -> validate_date (VStr (str_date dt)) = Some dt) ->
    (forall t, extract_time time_patterns text = Some t ->
               is_Some (validate_time (VStr t))) ->
    py_int (VInt 15) = Ok 15 ->
    mem_str text greetings = false ->
    any_in help_words text = false ->
    In w schedule_words ->
    contains w text = true ->
    exists (p : TaskPriority) (due : option date),
      schedule_priority text = priority_value p /\
      schedule_due today text = Ok due /\
      let t := MkTask (next_id db) (schedule_title text) None NOT_STARTED p
                 None None None due
                 (extract_time time_patterns text ≫= fun x => validate_time (VStr x))
                 (if contains "remind" text then Some 15 else None) user in
      process_command (MkService None) today command user db
      = (MkSession (objects db ++ [t]) (objects db ++ [t]) (next_id db + 1),
         MkResponse true (created_message t) (Some "create") (Some (next_id db))
           None).
Proof.
  intros R today command w user db text Hs Hvd Hvt Hint Hg Hh Hw Hc.
  destruct (parse_schedule_total today text Hs) as [d Hd].
  destruct (schedule_priority_enum text) as [p Hp].
  destruct (parse_schedule_due today text d Hd) as (due & Hdue & Hdd).
  exists p, due. split; [done|]. split; [done|].
  intros t.
  assert (Hparse : parse_with_patterns today command = Ok d).
  { unfold parse_with_patterns. fold text.
    by rewrite Hg, Hh, (any_in_true _ _ _ Hw Hc). }
  rewrite (process_command_object (MkService None) today command d user db)
    by (unfold parse_command; simpl gemini_client; by rewrite Hparse).
  apply parse_schedule_lookups in Hd
    as (Ha & Ht & Hpr & Hdt & Hr & Hde & Hca & Hsd & Hst).
  rewrite Hp in Hpr.
  apply (create_dispatch d user db (schedule_title text) p due
           (extract_time time_patterns text) (contains "remind" text));
    try done.
  - apply schedule_title_stripped.
  - apply schedule_title_nonempty.
  - intros dt Hdt'. by apply (schedule_due_valid today text due dt Hs Hdue).
  - intros x Hx. split; [by apply (extract_time_nonempty text)|by apply Hvt].
Qed.

Lemma scheduling_command_makes_the_task_witness :
  exists (p : TaskPriority) (due : option date),
    schedule_priority (strip (lower "Delete station report at 10:30")) = priority_value p /\
    schedule_due (Date 2024 5 17) (strip (lower "Delete station report at 10:30")) = Ok due /\
    let t := MkTask (next_id two_user_db)
               (schedule_title (strip (lower "Delete station report at 10:30"))) None
               NOT_STARTED p None None None due
               (extract_time time_patterns (strip (lower "Delete station report at 10:30"))
                  ≫= fun x => validate_time (Runtime := sample_runtime) (VStr x))
               (if contains "remind" (strip (lower "Delete station report at 10:30"))
                then Some 15 else None) 7 in
    process_command (H := sample_runtime) (MkService None) (Date 2024 5 17)
      "Delete station report at 10:30" 7 two_user_db
    = (MkSession (objects two_user_db ++ [t]) (objects two_user_db ++ [t])
         (next_id two_user_db + 1),
       MkResponse true (created_message (H := sample_runtime) t) (Some "create")
         (Some (next_id two_user_db)) None).
Proof.
  refine (scheduling_command_makes_the_task sample_runtime (Date 2024 5 17)
            "Delete station report at 10:30" "at" 7 two_user_db _ _ _ eq_refl eq_refl eq_refl
            _ eq_refl).
  - split; [reflexivity|simpl; lia].
  - intros dt Hv. simpl. unfold sample_validate_date.
    rewrite (strptime_str_date dt Hv). by rewrite String.eqb_refl.
  - intros t Ht. vm_compute in Ht. injection Ht as <-.
    exists (MkTime 10 30 0). reflexivity.
  - simpl. do 5 right. left. reflexivity.
Defined.

(** X30.  From the command to the listing.  On a service day, with no LLM
    client, a command that is no greeting, has no help word and no
    scheduling word in it and has one of the listing words in it is answered
    with the caller's tasks and changes nothing: all of them, or those in
    the state that the command names with "completed", "progress",
    "pending" or "not started". *)
Theorem listing_command_lists_the_tasks :
  forall (R : Runtime) (today : date) (command w : string) (user : Z)
         (db : Session),
    let text := strip (lower command) in
    service_day today ->
    mem_str text greetings = false ->
    any_in help_words text = false ->
    any_in schedule_words text = false ->
    In w list_words ->
    contains w text = true ->
    (process_command (MkService None) today command user db).1 = db /\
    success (process_command (MkService None) today command user db).2 = true /\
    action (process_command (MkService None) today command user db).2
      = Some "list" /\
    tasks (process_command (MkService None) today command user db).2
      = Some (get_tasks user (list_state_filter text) db).
Proof.
  intros R today command w user db text Hs Hg Hh Hsw Hw Hc.
  destruct (parse_list_total today text Hs) as [d Hd].
  assert (Hparse : parse_with_patterns today command = Ok d).
  { unfold parse_with_patterns. fold text.
    by rewrite Hg, Hh, Hsw, (any_in_true _ _ _ Hw Hc). }
  rewrite (process_command_object (MkService None) today command d user db)
    by (unfold parse_command; simpl gemini_client; by rewrite Hparse).
  apply parse_list_lookups in Hd as (Ha & _ & Hf).
  unfold execute_action, execute_body. rewrite Ha, Hf.
  change (default VNone (Some (VStr "list"))) with (VStr "list").
  change (eq_str (VStr "list") "chat") with false.
  change (eq_str (VStr "list") "create") with false.
  change (eq_str (VStr "list") "update_state") with false.
  change (eq_str (VStr "list") "list") with true.
  cbv iota. unfold list_state_filter.
  destruct (contains "completed" text);
    [|destruct (contains "progress" text);
      [|destruct (contains "pending" text || contains "not started" text)]].
  - change (truthy (VStr "Completed")) with true.
    change (TaskState_of (VStr "Completed")) with (Some COMPLETED).
    cbv iota beta. by destruct (get_tasks user (Some COMPLETED) db).
  - change (truthy (VStr "In Progress")) with true.
    change (TaskState_of (VStr "In Progress")) with (Some IN_PROGRESS).
    cbv iota beta. by destruct (get_tasks user (Some IN_PROGRESS) db).
  - change (truthy (VStr "Not Started")) with true.
    change (TaskState_of (VStr "Not Started")) with (Some NOT_STARTED).
    cbv iota beta. by destruct (get_tasks user (Some NOT_STARTED) db).
  - cbv iota beta. by destruct (get_tasks user None db).
Qed.

Lemma listing_command_lists_the_tasks_witness :
  (process_command (H := sample_runtime) (MkService None) (Date 2024 5 17)
     "Show completed tasks" 7 completed_db).1 = completed_db /\
  success (process_command (H := sample_runtime) (MkService None) (Date 2024 5 17)
             "Show completed tasks" 7 completed_db).2 = true /\
  action (process_command (H := sample_runtime) (MkService None) (Date 2024 5 17)
            "Show completed tasks" 7 completed_db).2 = Some "list" /\
  tasks (process_command (H := sample_runtime) (MkService None) (Date 2024 5 17)
           "Show completed tasks" 7 completed_db).2
    = Some (get_tasks 7 (list_state_filter (strip (lower "Show completed tasks")))
              completed_db).
Proof.
  refine (listing_command_lists_the_tasks sample_runtime (Date 2024 5 17)
            "Show completed tasks" "show" 7 completed_db _ eq_refl eq_refl eq_refl
            _ eq_refl).
  - split; [reflexivity|simpl; lia].
  - simpl. left. reflexivity.
Defined.
